(** * teams-bot: planning and routing pipeline

    A shallow embedding of the TypeScript sources of the bot
    (conversationHistory.ts, toolCache.ts, contextProvider.ts, planner.js,
    planExecutor.ts, router.ts) together with the properties that its
    specification states about them.

    Conventions of the embedding
    - JavaScript strings are [string] (8-bit characters); [toLowerCase],
      [trim] and the [\s] class act on the ASCII range.
    - JSON data is [JValue]; [undefined] is the [None] of [option JValue].
      Numbers are integers ([Z]).  An object is the list of its own
      properties in JavaScript's order: array indices first, ascending,
      then the other keys as inserted; an assignment to [__proto__] adds
      no own property.
    - The remote MCP server, the model endpoint, the system clock,
      [JSON.parse] and the regular-expression searches of
      [Router.extractArgsFromMessage] are fields of an environment record
      [Env]; every theorem quantifies over it.  A search may raise: the
      pattern built from a property name need not compile.
    - The progress callback is a field of the state; a call of it is
      delivered or rejected, with an error or with a bare value.
    - Asynchronous methods are computations in a state-and-exception monad
      [M] whose state holds the component fields and the log of requests
      that left the process. *)

From Stdlib Require Import String Ascii List ZArith QArith Bool Lia Permutation.
From Stdlib Require Import Numbers.DecimalString.
From stdpp Require Import gmap strings.

Import ListNotations.
Local Open Scope string_scope.
Local Open Scope list_scope.
Local Open Scope Z_scope.

(* ===================================================================== *)
(** * JavaScript strings *)
(* ===================================================================== *)

Module JS.

(** [String.prototype.toLowerCase] on the ASCII range. *)
Definition lower_ascii (c : ascii) : ascii :=
  let n := nat_of_ascii c in
  if (Nat.leb 65 n && Nat.leb n 90)%bool then ascii_of_nat (n + 32) else c.

Fixpoint toLowerCase (s : string) : string :=
  match s with
  | EmptyString => EmptyString
  | String c r => String (lower_ascii c) (toLowerCase r)
  end.

(** The ASCII members of the regular-expression class [\s]
    (tab, line feed, vertical tab, form feed, carriage return, space). *)
Definition is_ws (c : ascii) : bool :=
  let n := nat_of_ascii c in
  ((Nat.leb 9 n && Nat.leb n 13) || Nat.eqb n 32)%bool.

Fixpoint trimStart (s : string) : string :=
  match s with
  | EmptyString => EmptyString
  | String c r => if is_ws c then trimStart r else s
  end.

Fixpoint all_ws (s : string) : bool :=
  match s with
  | EmptyString => true
  | String c r => (is_ws c && all_ws r)%bool
  end.

Fixpoint trimEnd (s : string) : string :=
  match s with
  | EmptyString => EmptyString
  | String c r => if all_ws s then EmptyString else String c (trimEnd r)
  end.

Definition trim (s : string) : string := trimEnd (trimStart s).

Fixpoint startsWith (s p : string) : bool :=
  match p, s with
  | EmptyString, _ => true
  | String _ _, EmptyString => false
  | String a p', String b s' => (Ascii.eqb a b && startsWith s' p')%bool
  end.

(** [s.includes(sub)]. *)
Fixpoint includes (s sub : string) : bool :=
  (startsWith s sub ||
   match s with
   | EmptyString => false
   | String _ r => includes r sub
   end)%bool.

(** [s.endsWith(suf)]. *)
Fixpoint endsWith (s suf : string) : bool :=
  (String.eqb s suf ||
   match s with
   | EmptyString => false
   | String _ r => endsWith r suf
   end)%bool.

(** [s.split(/C+/)] for a character class [C]: the pieces between maximal
    runs of separator characters.  A leading or trailing run yields an
    empty first or last piece, and the empty string yields one empty
    piece. *)
Fixpoint split_runs (sep : ascii -> bool) (s : string) : list string :=
  match s with
  | EmptyString => [EmptyString]
  | String c r =>
      let pieces := split_runs sep r in
      if sep c then
        match r with
        | String c' _ => if sep c' then pieces else EmptyString :: pieces
        | EmptyString => EmptyString :: pieces
        end
      else
        match pieces with
        | p :: ps => String c p :: ps
        | [] => [String c EmptyString]
        end
  end.

(** [s.split(/\s+/)] *)
Definition split_ws (s : string) : list string := split_runs is_ws s.

(** [s.split(/[_\s]+/)] *)
Definition split_underscore_ws (s : string) : list string :=
  split_runs (fun c => (Ascii.eqb c "_" || is_ws c)%bool) s.

(** [xs.join(sep)] *)
Fixpoint join (sep : string) (xs : list string) : string :=
  match xs with
  | [] => EmptyString
  | [x] => x
  | x :: r => (x ++ sep ++ join sep r)%string
  end.

(** [s.match(/^([^:]+):/)]: the non-empty text before the first colon. *)
Fixpoint before_colon (s : string) : option string :=
  match s with
  | EmptyString => None
  | String c r =>
      if Ascii.eqb c ":" then Some EmptyString
      else match before_colon r with
           | Some p => Some (String c p)
           | None => None
           end
  end.

Definition uri_scheme (uri : string) : option string :=
  match before_colon uri with
  | Some EmptyString => None
  | o => o
  end.

(** Decimal rendering of an integer, as [String(n)] gives it. *)
Definition string_of_Z (n : Z) : string :=
  NilEmpty.string_of_int (Z.to_int n).

(** [xs.slice(0, n)] and [xs.slice(-n)] for an integer [n].  A negative
    start counts from the end; [-0] is [0], so [slice(-0)] is the whole
    array. *)
Definition slice_to {A} (n : nat) (xs : list A) : list A := firstn n xs.

Definition slice_from {A} (start : Z) (xs : list A) : list A :=
  let len := Z.of_nat (List.length xs) in
  let k := if start <? 0 then Z.max (len + start) 0 else Z.min start len in
  skipn (Z.to_nat k) xs.

End JS.

(* ===================================================================== *)
(** * JavaScript values *)
(* ===================================================================== *)

(** JSON-shaped values.  An object is the list of its own enumerable
    properties in the order in which [Object.keys] lists them: the keys
    that are array indices first, in ascending order, then the other keys
    in the order of their creation.  [Obj.define] and [Obj.put] keep a
    list in that order. *)
#[local] Set Warnings "-register-all".
Inductive JValue : Type :=
| JNull
| JBool (b : bool)
| JNum (n : Z)
| JStr (s : string)
| JArr (items : list JValue)
| JObj (fields : list (string * JValue)).
#[local] Set Warnings "register-all".

Module Obj.

(** [o[k]] on a property list; [None] is [undefined]. *)
Fixpoint get {V} (k : string) (fs : list (string * V)) : option V :=
  match fs with
  | [] => None
  | (k', v) :: r => if String.eqb k k' then Some v else get k r
  end.

(** [o[k] = v]: an existing key keeps its position, a new one is appended.
    The same discipline governs [Map.prototype.set]. *)
Fixpoint set {V} (k : string) (v : V) (fs : list (string * V)) : list (string * V) :=
  match fs with
  | [] => [(k, v)]
  | (k', v') :: r => if String.eqb k k' then (k, v) :: r else (k', v') :: set k v r
  end.

Definition keys {V} (fs : list (string * V)) : list string := List.map fst fs.
Definition values {V} (fs : list (string * V)) : list V := List.map snd fs.

Definition is_digit (c : ascii) : bool :=
  let n := nat_of_ascii c in (Nat.leb 48 n && Nat.leb n 57)%bool.

Fixpoint digits_value (acc : Z) (s : string) : option Z :=
  match s with
  | EmptyString => Some acc
  | String c r =>
      if is_digit c
      then digits_value (10 * acc + Z.of_nat (nat_of_ascii c - 48)) r
      else None
  end.

(** The array index that a key denotes: the key is the decimal text,
    without leading zero, of an integer from 0 to 2^32 - 2. *)
Definition index_of (k : string) : option Z :=
  match k with
  | EmptyString => None
  | String c r =>
      if (Ascii.eqb c "0" && negb (String.eqb r EmptyString))%bool then None
      else match digits_value 0 k with
           | Some n => if n <=? 4294967294 then Some n else None
           | None => None
           end
  end.

(** The place of a new index key: after the index keys that are smaller,
    before everything else. *)
Fixpoint insert_index {V} (i : Z) (k : string) (v : V) (fs : list (string * V))
  : list (string * V) :=
  match fs with
  | [] => [(k, v)]
  | (k', v') :: r =>
      match index_of k' with
      | Some j => if j <? i then (k', v') :: insert_index i k v r else (k, v) :: fs
      | None => (k, v) :: fs
      end
  end.

(** The definition of an own property, as an object literal,
    [JSON.parse] and an assignment to a key that is not inherited carry
    it out: an existing key keeps its place and takes the value, a new
    index key goes to its place among the index keys, any other new key
    goes to the end. *)
Definition define {V} (k : string) (v : V) (fs : list (string * V))
  : list (string * V) :=
  match get k fs, index_of k with
  | None, Some i => insert_index i k v fs
  | _, _ => set k v fs
  end.

(** [o[k] = v] on an object whose prototype is [Object.prototype].  The
    key [__proto__] is an accessor of the prototype: unless the object
    has an own property of that name, the assignment creates none (it
    replaces the prototype when [v] is an object or [null], and does
    nothing otherwise). *)
Definition put {V} (k : string) (v : V) (fs : list (string * V))
  : list (string * V) :=
  match get k fs with
  | None => if String.eqb k "__proto__" then fs else define k v fs
  | Some _ => define k v fs
  end.

(** [Object.assign(target, source)] *)
Definition assign {V} (target source : list (string * V)) : list (string * V) :=
  fold_left (fun acc kv => put (fst kv) (snd kv) acc) source target.

End Obj.

Module Val.

(** [!!v] *)
Definition truthy (v : JValue) : bool :=
  match v with
  | JNull => false
  | JBool b => b
  | JNum n => negb (n =? 0)
  | JStr s => negb (String.eqb s EmptyString)
  | JArr _ | JObj _ => true
  end.

Definition truthy_opt (o : option JValue) : bool :=
  match o with
  | Some v => truthy v
  | None => false
  end.

(** [a || b] where either side may be [undefined]. *)
Definition or (a b : option JValue) : option JValue :=
  if truthy_opt a then a else b.

(** [typeof v] *)
Definition typeof (v : JValue) : string :=
  match v with
  | JNull => "object"
  | JBool _ => "boolean"
  | JNum _ => "number"
  | JStr _ => "string"
  | JArr _ | JObj _ => "object"
  end.

Definition is_array (v : JValue) : bool :=
  match v with JArr _ => true | _ => false end.

(** Index keys ["0"], ["1"], ... paired with the elements. *)
Fixpoint indexed {A} (i : nat) (xs : list A) : list (string * A) :=
  match xs with
  | [] => []
  | x :: r => (JS.string_of_Z (Z.of_nat i), x) :: indexed (S i) r
  end.

Definition chars (s : string) : list JValue :=
  List.map (fun c => JStr (String c EmptyString)) (list_ascii_of_string s).

(** [Object.entries(v)] for a value other than [null]. *)
Definition entries (v : JValue) : list (string * JValue) :=
  match v with
  | JObj fs => fs
  | JArr xs => indexed 0 xs
  | JStr s => indexed 0 (chars s)
  | _ => []
  end.

(** [v[k]] for a key [k] that is neither an index nor a member of a
    prototype ([id], [name], [calls], [tool], ...): only objects carry it.
    Reading a property of [null] raises a TypeError, modelled by the
    outer [None]. *)
Definition prop (v : JValue) (k : string) : option (option JValue) :=
  match v with
  | JNull => None
  | JObj fs => Some (Obj.get k fs)
  | _ => Some None
  end.

(** [String(v)] *)
Fixpoint toString (v : JValue) : string :=
  match v with
  | JNull => "null"
  | JBool true => "true"
  | JBool false => "false"
  | JNum n => JS.string_of_Z n
  | JStr s => s
  | JArr xs =>
      JS.join ","
        (List.map (fun x => match x with JNull => EmptyString | _ => toString x end) xs)
  | JObj _ => "[object Object]"
  end.

Definition eq_dec : forall a b : JValue, {a = b} + {a <> b}.
Proof.
  fix IH 1.
  decide equality.
  - apply Bool.bool_dec.
  - apply Z.eq_dec.
  - apply String.string_dec.
  - apply (List.list_eq_dec IH).
  - apply List.list_eq_dec. decide equality. apply String.string_dec.
Defined.

Definition eqb (a b : JValue) : bool := if eq_dec a b then true else false.

End Val.

(* ===================================================================== *)
(** * A JSON reader *)
(* ===================================================================== *)

(** [JSON.parse] is a parameter of the development (see [Env]); this
    reader is the instance used to run the model on concrete payloads.  It
    accepts JSON texts whose numbers are integers and whose strings stay
    within 8-bit characters, and rejects everything else. *)
Module Json.

Definition dquote : ascii := ascii_of_nat 34.

(** [quoted s] is the text of [s] between double quotes. *)
Definition quoted (s : string) : string :=
  String dquote (s +:+ String dquote EmptyString).

Definition is_json_ws (c : ascii) : bool :=
  let n := nat_of_ascii c in
  (Nat.eqb n 32 || Nat.eqb n 9 || Nat.eqb n 10 || Nat.eqb n 13)%bool.

Fixpoint skip_ws (s : string) : string :=
  match s with
  | String c r => if is_json_ws c then skip_ws r else s
  | EmptyString => s
  end.

Definition digit_of (c : ascii) : option Z :=
  let n := nat_of_ascii c in
  if (Nat.leb 48 n && Nat.leb n 57)%bool then Some (Z.of_nat (n - 48)) else None.

Definition hex_of (c : ascii) : option nat :=
  let n := nat_of_ascii c in
  if (Nat.leb 48 n && Nat.leb n 57)%bool then Some (n - 48)%nat
  else if (Nat.leb 97 n && Nat.leb n 102)%bool then Some (n - 87)%nat
  else if (Nat.leb 65 n && Nat.leb n 70)%bool then Some (n - 55)%nat
  else None.

(** Digits of a number after its first one. *)
Fixpoint read_digits (acc : Z) (s : string) : Z * string :=
  match s with
  | String c r =>
      match digit_of c with
      | Some d => read_digits (10 * acc + d) r
      | None => (acc, s)
      end
  | EmptyString => (acc, s)
  end.

Definition starts_fraction (s : string) : bool :=
  match s with
  | String c _ => (Ascii.eqb c "." || Ascii.eqb c "e" || Ascii.eqb c "E")%bool
  | EmptyString => false
  end.

(** An unsigned integer literal: [0] or a digit string without leading
    zero, not followed by a fraction or an exponent. *)
Definition read_nat (s : string) : option (Z * string) :=
  match s with
  | String c r =>
      match digit_of c with
      | Some 0 => if starts_fraction r then None
                  else match r with
                       | String c' _ => match digit_of c' with
                                        | Some _ => None
                                        | None => Some (0, r)
                                        end
                       | EmptyString => Some (0, r)
                       end
      | Some d => let '(n, rest) := read_digits d r in
                  if starts_fraction rest then None else Some (n, rest)
      | None => None
      end
  | EmptyString => None
  end.

(** The body of a string literal, after the opening quote. *)
Fixpoint read_string (s : string) : option (string * string) :=
  match s with
  | EmptyString => None
  | String c r =>
      if Ascii.eqb c dquote then Some (EmptyString, r)
      else if Ascii.eqb c "\" then
        match r with
        | String e r' =>
            let continue (ch : ascii) (rest : string) :=
              match read_string rest with
              | Some (body, out) => Some (String ch body, out)
              | None => None
              end in
            if Ascii.eqb e dquote then continue dquote r'
            else if Ascii.eqb e "\" then continue "\"%char r'
            else if Ascii.eqb e "/" then continue "/"%char r'
            else if Ascii.eqb e "b" then continue (ascii_of_nat 8) r'
            else if Ascii.eqb e "f" then continue (ascii_of_nat 12) r'
            else if Ascii.eqb e "n" then continue (ascii_of_nat 10) r'
            else if Ascii.eqb e "r" then continue (ascii_of_nat 13) r'
            else if Ascii.eqb e "t" then continue (ascii_of_nat 9) r'
            else if Ascii.eqb e "u" then
              match r' with
              | String h1 (String h2 (String h3 (String h4 r''))) =>
                  match hex_of h1, hex_of h2, hex_of h3, hex_of h4 with
                  | Some 0%nat, Some 0%nat, Some a, Some b =>
                      continue (ascii_of_nat (16 * a + b)) r''
                  | _, _, _, _ => None
                  end
              | _ => None
              end
            else None
        | EmptyString => None
        end
      else if Nat.ltb (nat_of_ascii c) 32 then None
      else match read_string r with
           | Some (body, out) => Some (String c body, out)
           | None => None
           end
  end.

Fixpoint read_value (fuel : nat) (s : string) : option (JValue * string) :=
  match fuel with
  | O => None
  | S f =>
      match skip_ws s with
      | String c r =>
          if Ascii.eqb c "{" then
            match skip_ws r with
            | String c' r' =>
                if Ascii.eqb c' "}" then Some (JObj [], r')
                else read_members f (skip_ws r) []
            | EmptyString => None
            end
          else if Ascii.eqb c "[" then
            match skip_ws r with
            | String c' r' =>
                if Ascii.eqb c' "]" then Some (JArr [], r')
                else read_elements f r []
            | EmptyString => None
            end
          else if Ascii.eqb c dquote then
            match read_string r with
            | Some (str, out) => Some (JStr str, out)
            | None => None
            end
          else if Ascii.eqb c "-" then
            match read_nat r with
            | Some (n, out) => Some (JNum (- n), out)
            | None => None
            end
          else if JS.startsWith (String c r) "true" then
            Some (JBool true, String.substring 4 (String.length r) (String c r))
          else if JS.startsWith (String c r) "false" then
            Some (JBool false, String.substring 5 (String.length r) (String c r))
          else if JS.startsWith (String c r) "null" then
            Some (JNull, String.substring 4 (String.length r) (String c r))
          else
            match read_nat (String c r) with
            | Some (n, out) => Some (JNum n, out)
            | None => None
            end
      | EmptyString => None
      end
  end

with read_elements (fuel : nat) (s : string) (acc : list JValue)
  : option (JValue * string) :=
  match fuel with
  | O => None
  | S f =>
      match read_value f s with
      | Some (v, out) =>
          match skip_ws out with
          | String c r =>
              if Ascii.eqb c "," then read_elements f r (acc ++ [v])
              else if Ascii.eqb c "]" then Some (JArr (acc ++ [v]), r)
              else None
          | EmptyString => None
          end
      | None => None
      end
  end

with read_members (fuel : nat) (s : string) (acc : list (string * JValue))
  : option (JValue * string) :=
  match fuel with
  | O => None
  | S f =>
      match s with
      | String q r =>
          if Ascii.eqb q dquote then
            match read_string r with
            | Some (key, out) =>
                match skip_ws out with
                | String c r' =>
                    if Ascii.eqb c ":" then
                      match read_value f r' with
                      | Some (v, out') =>
                          match skip_ws out' with
                          | String c' r'' =>
                              if Ascii.eqb c' "," then
                                read_members f (skip_ws r'') (Obj.define key v acc)
                              else if Ascii.eqb c' "}" then
                                Some (JObj (Obj.define key v acc), r'')
                              else None
                          | EmptyString => None
                          end
                      | None => None
                      end
                    else None
                | EmptyString => None
                end
            | None => None
            end
          else None
      | EmptyString => None
      end
  end.

(** A whole text: one value, surrounded by optional white space. *)
Definition parse (text : string) : option JValue :=
  match read_value (2 * String.length text + 2) text with
  | Some (v, out) =>
      match skip_ws out with
      | EmptyString => Some v
      | String _ _ => None
      end
  | None => None
  end.

End Json.


(* ===================================================================== *)
(** * Data model *)
(* ===================================================================== *)

(** The result of an operation that may raise: the value, or the
    [message] of the [Error] thrown. *)
Inductive Outcome (A : Type) : Type :=
| Ok (a : A)
| Throw (message : string).
Arguments Ok {A} a.
Arguments Throw {A} message.

(** [error.message || String(error)] for a caught [Error]. *)
Definition error_text (message : string) : string :=
  if String.eqb message EmptyString then "Error" else message.

(** Sequencing of operations that may raise. *)
Definition and_then {A B} (o : Outcome A) (k : A -> Outcome B) : Outcome B :=
  match o with
  | Ok a => k a
  | Throw message => Throw message
  end.

Notation "'let+' x := c 'in' k" := (and_then c (fun x => k))
  (at level 10, x name, c at level 100, k at level 200).

(** A loop that appends what each round yields and stops at the first
    round that raises. *)
Fixpoint collect {A B} (f : A -> Outcome (list B)) (xs : list A) : Outcome (list B) :=
  match xs with
  | [] => Ok []
  | x :: r =>
      let+ ys := f x in
      let+ zs := collect f r in
      Ok (ys ++ zs)
  end.

(** One declared property of an input schema. *)
Record PropSchema : Type := {
  p_type : option string;
  p_description : option string
}.

(** [inputSchema]: [properties] and [required] may each be absent. *)
Record Schema : Type := {
  properties : option (list (string * PropSchema));
  required : option (list string)
}.

(** [{}], the schema substituted for a missing one. *)
Definition empty_schema : Schema := {| properties := None; required := None |}.

Record Example : Type := {
  query : string;
  args : list (string * JValue)
}.

Record Safety : Type := {
  read : bool;
  write : bool;
  destructive : bool
}.

Record ToolMetadata : Type := {
  name : string;
  description : string;
  inputSchema : Schema;
  examples : list Example;
  safety : Safety
}.

(** An item of [tools/list]. *)
Record DiscoveredTool : Type := {
  dt_name : string;
  dt_description : option string;
  dt_inputSchema : option Schema
}.

(** An item of [resources/list]. *)
Record DiscoveredResource : Type := {
  uri : string
}.

Inductive Role : Type := user | assistant.

Record Message : Type := {
  role : Role;
  content : string;
  timestamp : Z
}.

Record UserContext : Type := {
  userId : string;
  userName : option string;
  defaultProject : option string;
  lastReferencedProject : option string;
  timezone : option string
}.

Record PlanCall : Type := {
  tool : string;
  call_args : list (string * JValue)
}.

(** The argument of [PlanExecutor.execute]. *)
Record Plan : Type := {
  calls : list PlanCall;
  needs_confirmation : option bool
}.

Record ExecutionResult : Type := {
  success : bool;
  results : list JValue;
  errors : list (PlanCall * string);
  needsConfirmation : bool
}.

Record FastPathMatch : Type := {
  m_tool : string;
  m_args : list (string * JValue);
  confidence : Q
}.

(** A message of the chat-completions request. *)
Inductive ChatRole : Type := system_role | user_role | assistant_role.

Record ChatMessage : Type := {
  chat_role : ChatRole;
  chat_content : string
}.

(** What [fetch] on the model endpoint does: it rejects, answers with a
    status that is not [ok], answers with a body that is not JSON, or
    answers with a body whose [choices[0].message.content] is the given
    text (absent when the path is missing). *)
Inductive FetchResult : Type :=
| FetchRejects (message : string)
| FetchStatus (status : Z) (errorText : string)
| FetchBadBody (message : string)
| FetchContent (text : option string).

(** How the promise of a progress handler settles: it resolves; it
    rejects with a value on which [error.message || String(error)] is
    [text] (an [Error] with its message, a string, ...); or it rejects
    with [undefined] or [null], on which reading [message] raises a
    TypeError. *)
Inductive Delivery : Type :=
| Delivered
| Rejected (text : string)
| RejectedUndefined
| RejectedNull.

(** Requests that leave the process. *)
Inductive Event : Type :=
| EvListTools
| EvListResources
| EvReadResource (uri : string)
| EvCallTool (tool : string) (args : list (string * JValue))
| EvLlmFetch (url : string) (messages : list ChatMessage)
| EvStream (message : string).

(** Entry of the compact tool index handed to the planner prompt. *)
Record ToolIndexEntry : Type := {
  ti_name : string;
  ti_description : string;
  ti_args : string;
  ti_safety : Safety;
  ti_examples : list Example
}.

(** The surroundings of the process. *)
Record Env : Type := {
  (** [JSON.parse]; [None] when it raises a SyntaxError *)
  JSON_parse : string -> option JValue;
  (** the successive readings of [Date.now()] *)
  Date_now : nat -> Z;
  (** [process.env.OPENAI_API_KEY] *)
  env_OPENAI_API_KEY : option string;
  (** the MCP server behind [McpHttpClient] *)
  mcp_listTools : Outcome (list DiscoveredTool);
  mcp_listResources : Outcome (list DiscoveredResource);
  mcp_readResource : string -> Outcome (option string);
  mcp_callTool : string -> list (string * JValue) -> Outcome JValue;
  (** the chat-completions endpoint *)
  llm_fetch : string -> list ChatMessage -> FetchResult;
  (** the template literal of [Planner.buildPlannerPrompt] *)
  renderPrompt :
    string -> list ToolIndexEntry -> UserContext ->
    list (string * list JValue) -> list Message -> string;
  (** the regular-expression heuristics of
      [Router.extractArgsFromMessage] for one schema property (the body
      of its loop after the test for a value already present): the value
      found in the message, if any, or the SyntaxError that [new RegExp]
      raises on a pattern built from the property name *)
  extractProp : string -> string -> PropSchema -> Outcome (option JValue)
}.

(** The mutable fields of the components. *)
Record State : Type := {
  trace : list Event;
  ticks : nat;
  tools : list (string * ToolMetadata);
  userSessions : gmap string UserContext;
  entityCache : list (string * list JValue);
  discoveredResources : list DiscoveredResource;
  lastEntityRefresh : Z;
  onStream : option (string -> Delivery)
}.

(* ===================================================================== *)
(** * Computations *)
(* ===================================================================== *)

Definition M (A : Type) : Type := State -> Outcome A * State.

Definition ret {A} (a : A) : M A := fun st => (Ok a, st).

Definition bind {A B} (c : M A) (k : A -> M B) : M B :=
  fun st =>
    match c st with
    | (Ok a, st') => k a st'
    | (Throw e, st') => (Throw e, st')
    end.

Definition throw {A} (message : string) : M A := fun st => (Throw message, st).

(** [try { c } catch (error) { h(error.message) }] *)
Definition try_catch {A} (c : M A) (h : string -> M A) : M A :=
  fun st =>
    match c st with
    | (Ok a, st') => (Ok a, st')
    | (Throw e, st') => h e st'
    end.

Definition get_state : M State := fun st => (Ok st, st).

Definition modify (f : State -> State) : M unit := fun st => (Ok tt, f st).

Notation "'let*' x := c 'in' k" := (bind c (fun x => k))
  (at level 10, x name, c at level 100, k at level 200).
Notation "c ;; k" := (bind c (fun _ => k))
  (at level 100, k at level 200, right associativity).

(** The request is recorded when it is sent. *)
Definition emit (ev : Event) : M unit :=
  modify (fun st =>
    {| trace := trace st ++ [ev]; ticks := ticks st; tools := tools st;
       userSessions := userSessions st; entityCache := entityCache st;
       discoveredResources := discoveredResources st;
       lastEntityRefresh := lastEntityRefresh st; onStream := onStream st |}).

Definition lift_outcome {A} (o : Outcome A) : M A := fun st => (o, st).

Definition now (E : Env) : M Z :=
  fun st =>
    (Ok (Date_now E (ticks st)),
     {| trace := trace st; ticks := S (ticks st); tools := tools st;
        userSessions := userSessions st; entityCache := entityCache st;
        discoveredResources := discoveredResources st;
        lastEntityRefresh := lastEntityRefresh st; onStream := onStream st |}).

Definition set_tools (t : list (string * ToolMetadata)) : M unit :=
  modify (fun st =>
    {| trace := trace st; ticks := ticks st; tools := t;
       userSessions := userSessions st; entityCache := entityCache st;
       discoveredResources := discoveredResources st;
       lastEntityRefresh := lastEntityRefresh st; onStream := onStream st |}).

Definition set_userSessions (u : gmap string UserContext) : M unit :=
  modify (fun st =>
    {| trace := trace st; ticks := ticks st; tools := tools st;
       userSessions := u; entityCache := entityCache st;
       discoveredResources := discoveredResources st;
       lastEntityRefresh := lastEntityRefresh st; onStream := onStream st |}).

Definition set_entityCache (c : list (string * list JValue)) : M unit :=
  modify (fun st =>
    {| trace := trace st; ticks := ticks st; tools := tools st;
       userSessions := userSessions st; entityCache := c;
       discoveredResources := discoveredResources st;
       lastEntityRefresh := lastEntityRefresh st; onStream := onStream st |}).

Definition set_discoveredResources (r : list DiscoveredResource) : M unit :=
  modify (fun st =>
    {| trace := trace st; ticks := ticks st; tools := tools st;
       userSessions := userSessions st; entityCache := entityCache st;
       discoveredResources := r;
       lastEntityRefresh := lastEntityRefresh st; onStream := onStream st |}).

Definition set_lastEntityRefresh (t : Z) : M unit :=
  modify (fun st =>
    {| trace := trace st; ticks := ticks st; tools := tools st;
       userSessions := userSessions st; entityCache := entityCache st;
       discoveredResources := discoveredResources st;
       lastEntityRefresh := t; onStream := onStream st |}).

Definition set_onStream (h : option (string -> Delivery)) : M unit :=
  modify (fun st =>
    {| trace := trace st; ticks := ticks st; tools := tools st;
       userSessions := userSessions st; entityCache := entityCache st;
       discoveredResources := discoveredResources st;
       lastEntityRefresh := lastEntityRefresh st; onStream := h |}).

(** A process that has just been constructed. *)
Definition initial_state : State :=
  {| trace := []; ticks := 0%nat; tools := []; userSessions := ∅;
     entityCache := []; discoveredResources := [];
     lastEntityRefresh := 0; onStream := None |}.

(** [for (const x of xs) { body(x) }] *)
Fixpoint for_each {A} (xs : list A) (body : A -> M unit) : M unit :=
  match xs with
  | [] => ret tt
  | x :: r => body x ;; for_each r body
  end.

(* ===================================================================== *)
(** * conversationHistory.ts *)
(* ===================================================================== *)

Module ConversationHistory.

(** The fields of a [ConversationHistory].  [Date.now()] is read by the
    callers below and passed in, so that every reading is explicit. *)
Record t : Type := {
  conversations : gmap string (list Message);
  maxMessages : Z;
  maxAge : Z
}.

(** [new ConversationHistory(maxMessages, maxAge)] *)
Definition create (maxMessages maxAge : Z) : t :=
  {| conversations := ∅; maxMessages := maxMessages; maxAge := maxAge |}.

Definition with_conversations (h : t) (c : gmap string (list Message)) : t :=
  {| conversations := c; maxMessages := maxMessages h; maxAge := maxAge h |}.

(** [cleanup(userId)], [now] being its reading of the clock. *)
Definition cleanup (userId : string) (now : Z) (h : t) : t :=
  match conversations h !! userId with
  | None => h
  | Some messages =>
      let cutoffTime := now - maxAge h in
      let filtered := List.filter (fun msg => cutoffTime <? timestamp msg) messages in
      if maxMessages h <? Z.of_nat (List.length filtered) then
        let trimmed := JS.slice_from (- maxMessages h) filtered in
        with_conversations h (<[userId := trimmed]> (conversations h))
      else
        with_conversations h (<[userId := filtered]> (conversations h))
  end.

(** [addMessage(userId, role, content)]: [stamp] is the clock reading
    stored in the message, [now] the later one taken by [cleanup]. *)
Definition addMessage (userId : string) (r : Role) (text : string)
    (stamp now : Z) (h : t) : t :=
  let h1 :=
    match conversations h !! userId with
    | Some _ => h
    | None => with_conversations h (<[userId := []]> (conversations h))
    end in
  let messages := default [] (conversations h1 !! userId) in
  let pushed := messages ++ [{| role := r; content := text; timestamp := stamp |}] in
  cleanup userId now (with_conversations h1 (<[userId := pushed]> (conversations h1))).

(** [getHistory(userId)]: the array is fetched from the map, [cleanup]
    stores a new array in the map, and a copy of the array fetched first
    is returned. *)
Definition getHistory (userId : string) (now : Z) (h : t) : list Message * t :=
  let messages := default [] (conversations h !! userId) in
  let h' := cleanup userId now h in
  (messages, h').

(** [clearHistory(userId)] *)
Definition clearHistory (userId : string) (h : t) : t :=
  with_conversations h (delete userId (conversations h)).

Definition newline : string := String (ascii_of_nat 10) EmptyString.

(** [getFormattedHistory(userId, maxMessages)] *)
Definition getFormattedHistory (userId : string) (limit : Z) (now : Z) (h : t)
  : string * t :=
  let '(messages, h') := getHistory userId now h in
  let recentMessages := JS.slice_from (- limit) messages in
  (JS.join newline
     (List.map (fun msg =>
        (match role msg with user => "User" | assistant => "Assistant" end)
          +:+ ": " +:+ content msg) recentMessages),
   h').

(** The entries kept for a user. *)
Definition retained (userId : string) (h : t) : list Message :=
  default [] (conversations h !! userId).

(** Age of an entry at time [now]. *)
Definition age (now : Z) (msg : Message) : Z := now - timestamp msg.

(** A call on the store. *)
Inductive Op : Type :=
| AddMessage (userId : string) (r : Role) (text : string) (stamp now : Z)
| GetHistory (userId : string) (now : Z)
| ClearHistory (userId : string).

(** One call: the new store and, for [getHistory], what it returned. *)
Definition step (h : t) (op : Op) : t * option (list Message) :=
  match op with
  | AddMessage u r c stamp now => (addMessage u r c stamp now h, None)
  | GetHistory u now => let '(l, h') := getHistory u now h in (h', Some l)
  | ClearHistory u => (clearHistory u h, None)
  end.

Definition run (h : t) (ops : list Op) : t :=
  fold_left (fun acc op => fst (step acc op)) ops h.

End ConversationHistory.

(* ===================================================================== *)
(** * toolCache.ts *)
(* ===================================================================== *)

Module ToolCache.

Definition ex (q : string) (a : list (string * JValue)) : Example :=
  {| query := q; args := a |}.

(** The generic example built from the declared properties. *)
Definition exampleArgs_of (props : list (string * PropSchema)) : list (string * JValue) :=
  fold_left
    (fun acc kp =>
       let '(key, prop) := kp in
       match p_type prop with
       | Some ty =>
           if String.eqb ty "string" then Obj.put key (JStr ("example-" +:+ key)) acc
           else if String.eqb ty "number" then Obj.put key (JNum 123) acc
           else if String.eqb ty "boolean" then Obj.put key (JBool true) acc
           else acc
       | None => acc
       end)
    props [].

(** [generateExamples(toolName, description, schema)] *)
Definition generateExamples (toolName description : string) (schema : Schema)
  : list Example :=
  let canned :=
    if String.eqb toolName "send_document" then
      [ ex "send me the ecp checklist" [("query", JStr "ecp checklist")];
        ex "where is the submittal package" [("query", JStr "submittal package")];
        ex "get me the project deadline document" [("query", JStr "project deadline")] ]
    else if (JS.includes toolName "project" || JS.includes toolName "project")%bool then
      [ ex "show me project details" [];
        ex "what projects do we have" [] ]
    else if (JS.includes toolName "user" || JS.includes toolName "users")%bool then
      [ ex "list all users" [];
        ex "who are the team members" [] ]
    else if (JS.includes toolName "document" || JS.includes toolName "doc")%bool then
      [ ex "get document by id" [("id", JStr "example-id")];
        ex "find document" [("query", JStr "example")] ]
    else if JS.includes toolName "client" then
      [ ex "get client information" [];
        ex "show me client details" [] ]
    else if (JS.includes toolName "phone" || JS.includes toolName "phone_number")%bool then
      [ ex "get phone number for client" [];
        ex "what is the phone number" [];
        ex "send me phone number" [];
        ex "send me burkards number" [];
        ex "get burkards phone" [];
        ex "phone number" [] ]
    else if JS.includes toolName "email" then
      [ ex "get email address for client" [];
        ex "what is the email" [];
        ex "send me email" [];
        ex "send me burkards email" [];
        ex "get bruce harveys email" [];
        ex "email address" [] ]
    else if JS.includes toolName "address" then
      [ ex "get address for client" [];
        ex "what is the address" [];
        ex "send me address" [];
        ex "address" [] ]
    else [] in
  let generic :=
    match properties schema with
    | Some props =>
        if Nat.ltb 0 (List.length props) then
          let exampleArgs := exampleArgs_of props in
          if Nat.ltb 0 (List.length exampleArgs) then
            [ ex ("use " +:+ toolName +:+ " with " +:+ JS.join " and " (Obj.keys exampleArgs))
                 exampleArgs ]
          else []
        else []
    | None => []
    end in
  canned ++ generic.

Definition destructiveKeywords : list string :=
  ["delete"; "remove"; "destroy"; "drop"; "clear"; "truncate"; "cancel"].

Definition writeKeywords : list string :=
  ["create"; "update"; "edit"; "modify"; "add"; "insert"; "save"; "set";
   "post"; "put"; "patch"].

(** [analyzeSafety(toolName, description, schema)] *)
Definition analyzeSafety (toolName description : string) (schema : Schema) : Safety :=
  let lowerName := JS.toLowerCase toolName in
  let lowerDesc := JS.toLowerCase description in
  let hit kw := (JS.includes lowerName kw || JS.includes lowerDesc kw)%bool in
  let d := existsb hit destructiveKeywords in
  let w := (existsb hit writeKeywords || d)%bool in
  let r := (negb w && negb d)%bool in
  {| read := r; write := w; destructive := d |}.

(** The metadata stored for one listed tool. *)
Definition metadata_of (t : DiscoveredTool) : ToolMetadata :=
  let desc := match dt_description t with
              | Some d => d     (* [d || ''] is [d] also when [d] is empty *)
              | None => EmptyString
              end in
  let schema := default empty_schema (dt_inputSchema t) in
  {| name := dt_name t;
     description := desc;
     inputSchema := schema;
     examples := generateExamples (dt_name t) desc schema;
     safety := analyzeSafety (dt_name t) desc schema |}.

(** The table after [this.tools.clear()] and one [set] per listed tool. *)
Definition table_of (toolList : list DiscoveredTool) : list (string * ToolMetadata) :=
  fold_left (fun acc t => Obj.set (dt_name t) (metadata_of t) acc) toolList [].

(** [refresh()]: the table is cleared only once [listTools] has
    answered; its error is rethrown. *)
Definition refresh (E : Env) : M unit :=
  try_catch
    (let* toolList := (emit EvListTools ;; lift_outcome (mcp_listTools E)) in
     set_tools [] ;;
     set_tools (table_of toolList))
    (fun error => throw error).

(** [getTool(name)] *)
Definition getTool (st : State) (n : string) : option ToolMetadata :=
  Obj.get n (tools st).

(** [getAllTools()] *)
Definition getAllTools (st : State) : list ToolMetadata :=
  Obj.values (tools st).

(** [summarizeSchema(schema)] *)
Definition summarizeSchema (schema : Schema) : string :=
  match properties schema with
  | None => "{}"
  | Some props =>
      "{ " +:+
      JS.join ", "
        (List.map (fun kp =>
           fst kp +:+ ": " +:+ default "any" (p_type (snd kp)) +:+
           match p_description (snd kp) with
           | Some d => if String.eqb d EmptyString then EmptyString
                       else " (" +:+ d +:+ ")"
           | None => EmptyString
           end) props)
      +:+ " }"
  end.

(** The entries that [getToolIndex()] serialises. *)
Definition getToolIndex (st : State) : list ToolIndexEntry :=
  List.map (fun t =>
    {| ti_name := name t;
       ti_description := description t;
       ti_args := summarizeSchema (inputSchema t);
       ti_safety := safety t;
       ti_examples := JS.slice_to 2 (examples t) |}) (getAllTools st).

End ToolCache.

(* ===================================================================== *)
(** * contextProvider.ts *)
(* ===================================================================== *)

Module ContextProvider.

Definition entityRefreshInterval : Z := 5 * 60 * 1000.

(** The resources kept by [discoverResources]. *)
Definition is_all_resource (r : DiscoveredResource) : bool :=
  (JS.endsWith (uri r) "://all" || JS.includes (uri r) "://all/")%bool.

Definition knownResources : list DiscoveredResource :=
  [ {| uri := "projects://all" |};
    {| uri := "users://all" |};
    {| uri := "documents://all" |} ].

(** [discoverResources()] *)
Definition discoverResources (E : Env) : M unit :=
  try_catch
    (let* resources := (emit EvListResources ;; lift_outcome (mcp_listResources E)) in
     set_discoveredResources (List.filter is_all_resource resources))
    (fun _ => set_discoveredResources knownResources).

(** [a || d] with a default [d] that is always defined. *)
Definition or_else (a : option JValue) (d : JValue) : JValue :=
  match a with
  | Some v => if Val.truthy v then v else d
  | None => d
  end.

(** One round of the loop that copies the properties of the item:
    [if (key !== 'id' && key !== 'name' && key !== '_id') entity[key] = value]. *)
Definition copy_field (entity : list (string * JValue)) (kv : string * JValue)
  : list (string * JValue) :=
  let '(key, value) := kv in
  if (negb (String.eqb key "id") && negb (String.eqb key "name")
      && negb (String.eqb key "_id"))%bool
  then Obj.put key value entity
  else entity.

(** The callback of [items.slice(0, 100).map(...)].  [None] is the
    TypeError raised by a [null] item. *)
Definition entity_of (resourceType : string) (item : JValue) : option JValue :=
  match item with
  | JNull => None
  | _ =>
      let p k := match Val.prop item k with Some o => o | None => None end in
      let idv :=
        or_else (Val.or (p "id") (p (resourceType +:+ "Id")))
                (JStr (Val.toString (or_else (p "_id") (JStr EmptyString)))) in
      let namev :=
        or_else (Val.or (Val.or (Val.or (p "name") (p (resourceType +:+ "Name")))
                                (p "fileName"))
                        (p "title"))
                (JStr EmptyString) in
      let entity :=
        fold_left copy_field (Val.entries item) [("id", idv); ("name", namev)] in
      Some (JObj entity)
  end.

Fixpoint entities_of (resourceType : string) (items : list JValue)
  : option (list JValue) :=
  match items with
  | [] => Some []
  | item :: r =>
      match entity_of resourceType item with
      | None => None
      | Some e =>
          match entities_of resourceType r with
          | None => None
          | Some es => Some (e :: es)
          end
      end
  end.

(** The body of the loop over the discovered resources. *)
Definition fetch_resource (E : Env) (resource : DiscoveredResource) : M unit :=
  match JS.uri_scheme (uri resource) with
  | None => ret tt
  | Some resourceType =>
      try_catch
        (let* text := (emit (EvReadResource (uri resource)) ;;
                       lift_outcome (mcp_readResource E (uri resource))) in
         let resourceText :=
           match text with
           | Some t => if String.eqb t EmptyString then "[]" else t
           | None => "[]"
           end in
         match JSON_parse E resourceText with
         | None => ret tt
         | Some parsed =>
             let items := match parsed with JArr xs => xs | _ => [parsed] end in
             match entities_of resourceType (JS.slice_to 100 items) with
             | None => throw "Cannot read properties of null"
             | Some entities =>
                 let* st := get_state in
                 set_entityCache (Obj.put resourceType entities (entityCache st))
             end
         end)
        (fun _ => ret tt)
  end.

(** [refreshEntityCatalog()] *)
Definition refreshEntityCatalog (E : Env) : M unit :=
  try_catch
    (discoverResources E ;;
     set_entityCache [] ;;
     (let* st := get_state in
      for_each (discoveredResources st) (fetch_resource E)) ;;
     let* t := now E in
     set_lastEntityRefresh t)
    (fun _ => ret tt).

Definition refresh_if_stale (E : Env) : M unit :=
  let* t := now E in
  let* st := get_state in
  if entityRefreshInterval <? t - lastEntityRefresh st
  then refreshEntityCatalog E
  else ret tt.

(** [getUserContext(userId)] *)
Definition getUserContext (E : Env) (uid : string) : M UserContext :=
  let* st := get_state in
  let* context :=
    match userSessions st !! uid with
    | Some c => ret c
    | None =>
        let c := {| userId := uid; userName := None; defaultProject := None;
                    lastReferencedProject := None;
                    timezone := Some "America/New_York" |} in
        set_userSessions (<[uid := c]> (userSessions st)) ;; ret c
    end in
  refresh_if_stale E ;;
  ret context.

(** [getEntityCatalog()] *)
Definition getEntityCatalog (E : Env) : M (list (string * list JValue)) :=
  refresh_if_stale E ;;
  let* st := get_state in
  ret (entityCache st).

End ContextProvider.

(* ===================================================================== *)
(** * planner.js *)
(* ===================================================================== *)

Module Planner.

Record t : Type := {
  llmApiKey : string;
  llmBaseUrl : string;
  llmModel : string
}.

(** [s || d] on strings. *)
Definition str_or (s : option string) (d : option string) : option string :=
  match s with
  | Some v => if String.eqb v EmptyString then d else Some v
  | None => d
  end.

(** [new Planner(toolCache, contextProvider, llmApiKey, llmBaseUrl, llmModel)];
    an argument left out is [None]. *)
Definition create (E : Env) (key baseUrl model : option string) : t :=
  let k := match key with Some v => Some v
                        | None => str_or (env_OPENAI_API_KEY E) (Some EmptyString) end in
  {| llmApiKey := default EmptyString
                    (str_or (str_or k (env_OPENAI_API_KEY E)) (Some EmptyString));
     llmBaseUrl := default "https://api.openai.com/v1" baseUrl;
     llmModel := default "gpt-4o-mini" model |}.

(** [this.llmApiKey || process.env.OPENAI_API_KEY] *)
Definition apiKey (E : Env) (P : t) : option string :=
  str_or (Some (llmApiKey P)) (env_OPENAI_API_KEY E).

(** [!apiKey || apiKey.trim() === ''] *)
Definition credential_missing (E : Env) (P : t) : bool :=
  match apiKey E P with
  | None => true
  | Some k => (String.eqb k EmptyString || String.eqb (JS.trim k) EmptyString)%bool
  end.

Definition newline : string := String (ascii_of_nat 10) EmptyString.

Definition configuration_error : string :=
  "LLM API key not configured. Set OPENAI_API_KEY environment variable." +:+ newline +:+
  "Make sure your .env file is loaded and contains: OPENAI_API_KEY=your-key-here".

Definition systemMessage : ChatMessage :=
  {| chat_role := system_role;
     chat_content := "You are a helpful assistant with a sarcastic sense of humor. You return only valid JSON, but feel free to be witty and playful in your reasoning. Throw in some light-hearted jabs when appropriate - keep it fun!" |}.

Definition chat_of (msg : Message) : ChatMessage :=
  {| chat_role := match role msg with user => user_role | assistant => assistant_role end;
     chat_content := content msg |}.

(** [callLLM(prompt, conversationHistory)] *)
Definition callLLM (E : Env) (P : t) (prompt : string) (history : list Message)
  : M string :=
  if credential_missing E P then throw configuration_error
  else
    let recentHistory := JS.slice_from (-10) history in
    let messages :=
      [systemMessage] ++ List.map chat_of recentHistory ++
      [{| chat_role := user_role; chat_content := prompt |}] in
    let url := llmBaseUrl P +:+ "/chat/completions" in
    emit (EvLlmFetch url messages) ;;
    match llm_fetch E url messages with
    | FetchRejects errorMessage =>
        throw ("Failed to connect to LLM API at " +:+ url +:+ ". " +:+
               "This could be due to network issues, DNS resolution failure, or the API server being unreachable. " +:+
               "Error: " +:+ error_text errorMessage +:+ ". " +:+
               "Please check your OPENAI_BASE_URL environment variable (currently: " +:+
               llmBaseUrl P +:+ ") and ensure the service is accessible.")
    | FetchStatus status errorText =>
        throw ("LLM API error: " +:+ JS.string_of_Z status +:+ " " +:+ errorText)
    | FetchBadBody message => throw message
    | FetchContent text =>
        ret (default EmptyString text)
    end.

(** One iteration of the loop of [validatePlan]. *)
Definition validateCall (st : State) (call : JValue) : Outcome unit :=
  match Val.prop call "tool" with
  | None => Throw "Cannot read properties of null"
  | Some toolv =>
      match toolv with
      | Some (JStr toolName) =>
          if String.eqb toolName EmptyString
          then Throw "Each call must have a tool name"
          else
            match Val.prop call "args" with
            | Some (Some argsv) =>
                if (Val.truthy argsv && String.eqb (Val.typeof argsv) "object")%bool
                then
                  match ToolCache.getTool st toolName with
                  | Some _ => Ok tt
                  | None => Throw ("Unknown tool: " +:+ toolName)
                  end
                else Throw "Each call must have args object"
            | _ => Throw "Each call must have args object"
            end
      | _ => Throw "Each call must have a tool name"
      end
  end.

Fixpoint validateCalls (st : State) (cs : list JValue) : Outcome unit :=
  match cs with
  | [] => Ok tt
  | call :: r =>
      match validateCall st call with
      | Ok _ => validateCalls st r
      | Throw e => Throw e
      end
  end.

(** [validatePlan(plan)] *)
Definition validatePlan (st : State) (plan : JValue) : Outcome unit :=
  match Val.prop plan "calls" with
  | None => Throw "Cannot read properties of null"
  | Some (Some (JArr cs)) => validateCalls st cs
  | Some _ => Throw "Plan must have calls array"
  end.

Definition fallback_text : string :=
  "Look, I tried my best to understand what you're asking for, but even my superior AI brain is confused. Could you maybe try using actual words next time? Just kidding... mostly. Could you rephrase that?".

Definition fallback_plan : JValue :=
  JObj [("calls", JArr []); ("fallback_text", JStr fallback_text)].

(** The [try { JSON.parse; validatePlan } catch { fallback }] of [plan]. *)
Definition parse_response (E : Env) (st : State) (response : string) : JValue :=
  match JSON_parse E response with
  | None => fallback_plan
  | Some plan =>
      match validatePlan st plan with
      | Ok _ => plan
      | Throw _ => fallback_plan
      end
  end.

(** [plan(message, userId, context, conversationHistory)]; [context] is
    not read. *)
Definition plan (E : Env) (P : t) (message uid : string) (history : list Message)
  : M JValue :=
  let* userContext := ContextProvider.getUserContext E uid in
  let* entityCatalog := ContextProvider.getEntityCatalog E in
  let* st := get_state in
  let toolIndex := ToolCache.getToolIndex st in
  let prompt := renderPrompt E message toolIndex userContext entityCatalog history in
  let* response := callLLM E P prompt history in
  let* st' := get_state in
  ret (parse_response E st' response).

End Planner.

(* ===================================================================== *)
(** * planExecutor.ts *)
(* ===================================================================== *)

Module PlanExecutor.

(** The property names every object inherits from [Object.prototype];
    [k in o] and [o[k] !== undefined] hold for them as well. *)
Definition prototype_keys : list string :=
  [ "constructor"; "hasOwnProperty"; "isPrototypeOf"; "propertyIsEnumerable";
    "toLocaleString"; "toString"; "valueOf"; "__proto__";
    "__defineGetter__"; "__defineSetter__"; "__lookupGetter__"; "__lookupSetter__" ].

Definition own {V} (k : string) (fs : list (string * V)) : bool :=
  match Obj.get k fs with Some _ => true | None => false end.

(** [k in o] *)
Definition has_in {V} (k : string) (fs : list (string * V)) : bool :=
  (own k fs || existsb (String.eqb k) prototype_keys)%bool.

Definition add_error (r : ExecutionResult) (call : PlanCall) (e : string)
  : ExecutionResult :=
  {| success := false; results := results r;
     errors := errors r ++ [(call, e)];
     needsConfirmation := needsConfirmation r |}.

Definition add_result (r : ExecutionResult) (v : JValue) : ExecutionResult :=
  {| success := success r; results := results r ++ [v];
     errors := errors r; needsConfirmation := needsConfirmation r |}.

(** [setStreamHandler(handler)] *)
Definition setStreamHandler (handler : string -> Delivery) : M unit :=
  set_onStream (Some handler).

(** [stream(message)]: its promise settles as the one of the handler
    does; the value is how it settled. *)
Definition stream (message : string) : M Delivery :=
  let* st := get_state in
  match onStream st with
  | None => ret Delivered
  | Some handler => emit (EvStream message) ;; ret (handler message)
  end.

(** [await this.stream(...)] inside the [try] of [execute], followed by
    [rest]: a rejection goes to the [catch] block, which records
    [error.message || String(error)] for [call] in [result]; on
    [undefined] and [null] the block itself raises, and the error leaves
    [execute]. *)
Definition awaited (d : Delivery) (call : PlanCall) (result : ExecutionResult)
    (rest : M ExecutionResult) : M ExecutionResult :=
  match d with
  | Delivered => rest
  | Rejected text => ret (add_error result call text)
  | RejectedUndefined =>
      throw "Cannot read properties of undefined (reading 'message')"
  | RejectedNull =>
      throw "Cannot read properties of null (reading 'message')"
  end.

(** The settlement of a computation, as a value. *)
Definition settled {A} (c : M A) : M (Outcome A) :=
  fun st => let '(o, st') := c st in (Ok o, st').

(** The type check of one argument against its declared property. *)
Definition type_error (props : list (string * PropSchema)) (kv : string * JValue)
  : option string :=
  let '(key, value) := kv in
  match Obj.get key props with
  | None => None
  | Some prop =>
      let ty := default EmptyString (p_type prop) in
      let mismatch expected :=
        (String.eqb ty expected && negb (String.eqb (Val.typeof value) expected))%bool in
      let report expected :=
        Some ("Invalid type for " +:+ key +:+ ": expected " +:+ expected +:+
              ", got " +:+ Val.typeof value) in
      if mismatch "string" then report "string"
      else if mismatch "number" then report "number"
      else if mismatch "boolean" then report "boolean"
      else None
  end.

Fixpoint first_some {A B} (f : A -> option B) (xs : list A) : option B :=
  match xs with
  | [] => None
  | x :: r => match f x with Some b => Some b | None => first_some f r end
  end.

(** [validateCall(call)]: the error text, or [None] for [null]. *)
Definition validateCall (st : State) (call : PlanCall) : option string :=
  match ToolCache.getTool st (tool call) with
  | None => Some ("Unknown tool: " +:+ tool call)
  | Some t =>
      match properties (inputSchema t) with
      | None => None
      | Some props =>
          let req := default [] (required (inputSchema t)) in
          match List.find (fun prop => negb (has_in prop (call_args call))) req with
          | Some prop => Some ("Missing required argument: " +:+ prop)
          | None => first_some (type_error props) (call_args call)
          end
      end
  end.

(** [executeCall(call)] *)
Definition executeCall (E : Env) (call : PlanCall) : M JValue :=
  try_catch
    (emit (EvCallTool (tool call) (call_args call)) ;;
     lift_outcome (mcp_callTool E (tool call) (call_args call)))
    (fun e => throw ("Tool execution failed: " +:+ error_text e)).

(** The check mark of the completion notice (U+2713 in UTF-8). *)
Definition check_mark : string :=
  String (ascii_of_nat 226) (String (ascii_of_nat 156)
    (String (ascii_of_nat 147) EmptyString)).

(** One iteration of the loop of [execute].  [result] is updated in
    place by the source, so a result pushed before the completion notice
    raises is still there when the [catch] block records the error. *)
Definition execute_call (E : Env) (call : PlanCall) (result : ExecutionResult)
  : M ExecutionResult :=
  let* started := stream ("Executing " +:+ tool call +:+ "...") in
  awaited started call result
    (let* st := get_state in
     match validateCall st call with
     | Some validationError => ret (add_error result call validationError)
     | None =>
         let* outcome := settled (executeCall E call) in
         match outcome with
         | Throw e => ret (add_error result call (error_text e))
         | Ok toolResult =>
             let pushed := add_result result toolResult in
             let* completed := stream (check_mark +:+ " Completed " +:+ tool call) in
             awaited completed call pushed (ret pushed)
         end
     end).

Fixpoint execute_calls (E : Env) (cs : list PlanCall) (result : ExecutionResult)
  : M ExecutionResult :=
  match cs with
  | [] => ret result
  | call :: r =>
      let* result' := execute_call E call result in
      execute_calls E r result'
  end.

(** [execute(plan, userId, context)]; [userId] and [context] are not
    read. *)
Definition execute (E : Env) (plan : Plan) : M ExecutionResult :=
  let result :=
    {| success := true; results := []; errors := [];
       needsConfirmation := default false (needs_confirmation plan) |} in
  if default false (needs_confirmation plan) then ret result
  else execute_calls E (calls plan) result.

(** [requestRepair(originalPlan, error, userId, context)] *)
Definition requestRepair (error : string) : JValue :=
  JObj [("calls", JArr []);
        ("fallback_text",
         JStr ("I encountered an error: " +:+ error +:+ ". Could you rephrase your request?"))].

End PlanExecutor.

(* ===================================================================== *)
(** * router.ts *)
(* ===================================================================== *)

Module Router.

(** Confidences are JavaScript numbers in the source.  They are
    rationals here, kept in lowest terms; every comparison the router
    makes on them (against 0.4, 0.5 and 0.6) has the same outcome on the
    doubles, since a quotient of two small integers is rounded
    monotonically and the sums start from the thresholds themselves. *)
Definition ratio (m n : nat) : Q :=
  Qred (inject_Z (Z.of_nat m) / inject_Z (Z.of_nat n)).

(** [Math.min(a, b)] *)
Definition qmin (a b : Q) : Q := if Qle_bool a b then a else b.

Definition geq (a b : Q) : bool := Qle_bool b a.
Definition gt (a b : Q) : bool := negb (Qle_bool a b).

(** [o[k] !== undefined] *)
Definition defined {V} (k : string) (fs : list (string * V)) : bool :=
  PlanExecutor.has_in k fs.

(** The loop of [extractArgsFromMessage] over the declared properties.
    The search of the message for one property (the regular expressions
    of the loop body) is [extractProp]; the [SyntaxError] of a pattern
    that does not compile ends the loop. *)
Fixpoint fill (E : Env) (message : string) (props : list (string * PropSchema))
    (args : list (string * JValue)) : Outcome (list (string * JValue)) :=
  match props with
  | [] => Ok args
  | (propName, propSchema) :: r =>
      if defined propName args then fill E message r args
      else
        let+ found := extractProp E message propName propSchema in
        match found with
        | Some v => fill E message r (Obj.put propName v args)
        | None => fill E message r args
        end
  end.

(** [extractArgsFromMessage(message, tool, exampleArgs)]; [None] is
    [null].  The arguments keep [Object.prototype] as their prototype:
    [exampleArgs] is a template of [generateExamples], which has no own
    [__proto__] for [Object.assign] to pass to the accessor of that
    name. *)
Definition extractArgsFromMessage (E : Env) (message : string)
    (t : ToolMetadata) (exampleArgs : list (string * JValue))
  : Outcome (option (list (string * JValue))) :=
  let props := default [] (properties (inputSchema t)) in
  let seeded :=
    if Nat.ltb 0 (List.length (Obj.keys exampleArgs))
    then Obj.assign [] exampleArgs else [] in
  let+ filled := fill E message props seeded in
  let req := default [] (required (inputSchema t)) in
  let hasAllRequired := forallb (fun prop => defined prop filled) req in
  if (Nat.eqb (List.length req) 0 || hasAllRequired)%bool then
    if (Nat.eqb (List.length (Obj.keys filled)) 0 && Nat.ltb 0 (List.length req))%bool
    then Ok None
    else Ok (Some filled)
  else if Nat.ltb 0 (List.length (Obj.keys filled)) then Ok (Some filled)
  else Ok None.

Definition documentKeywords : list string :=
  ["document"; "doc"; "checklist"; "package"; "file"; "pdf"; "submittal"; "ecp"].

Definition lowerMessage_of (message : string) : string :=
  JS.trim (JS.toLowerCase message).

Definition isDocumentRequest (message : string) : bool :=
  existsb (fun kw => JS.includes (lowerMessage_of message) kw) documentKeywords.

(** [tool.name === 'send_document' && !isDocumentRequest] *)
Definition guarded (message : string) (t : ToolMetadata) : bool :=
  (String.eqb (name t) "send_document" && negb (isDocumentRequest message))%bool.

Definition longer_than (n : nat) (w : string) : bool := Nat.ltb n (String.length w).

Definition exampleWords_of (e : Example) : list string :=
  List.filter (longer_than 2) (JS.split_ws (JS.toLowerCase (query e))).

Definition matchingWords_of (message : string) (e : Example) : list string :=
  let messageWords := JS.split_ws (lowerMessage_of message) in
  List.filter
    (fun ew => existsb (fun mw => (JS.includes mw ew || JS.includes ew mw)%bool) messageWords)
    (exampleWords_of e).

Definition example_confidence (message : string) (e : Example) : Q :=
  if Nat.ltb 0 (List.length (exampleWords_of e))
  then ratio (List.length (matchingWords_of message e)) (List.length (exampleWords_of e))
  else 0%Q.

(** The candidate of one usage example. *)
Definition example_matches (E : Env) (message : string) (t : ToolMetadata) (e : Example)
  : Outcome (list FastPathMatch) :=
  let c := example_confidence message e in
  if (Nat.leb (Nat.min 2 (List.length (exampleWords_of e)))
              (List.length (matchingWords_of message e))
      && gt c (1 # 2))%bool
  then
    let+ found := extractArgsFromMessage E message t (args e) in
    match found with
    | Some a => Ok [{| m_tool := name t; m_args := a; confidence := c |}]
    | None => Ok []
    end
  else Ok [].

Definition toolNameWords_of (t : ToolMetadata) : list string :=
  List.filter (longer_than 3) (JS.split_underscore_ws (JS.toLowerCase (name t))).

Definition descWords_of (t : ToolMetadata) : list string :=
  List.filter (longer_than 4) (JS.split_ws (JS.toLowerCase (description t))).

Definition occurring (message : string) (ws : list string) : list string :=
  List.filter (fun word => JS.includes (lowerMessage_of message) word) ws.

(** The candidate of the description keywords. *)
Definition description_matches (E : Env) (message : string) (t : ToolMetadata)
  : Outcome (list FastPathMatch) :=
  let descMatches := occurring message (descWords_of t) in
  if Nat.ltb 0 (List.length descMatches) then
    if guarded message t then Ok []
    else
      let+ found := extractArgsFromMessage E message t [] in
      match found with
      | Some a =>
          let c := ((1 # 2) + ratio (List.length descMatches)
                                    (List.length (descWords_of t)) * (1 # 10))%Q in
          Ok [{| m_tool := name t; m_args := a; confidence := Qred (qmin c (7 # 10)) |}]
      | None => Ok []
      end
  else Ok [].

(** The candidates of the tool name keywords, then those of the
    description; the [continue] of the name branch skips the description
    branch as well. *)
Definition name_and_description_matches (E : Env) (message : string) (t : ToolMetadata)
  : Outcome (list FastPathMatch) :=
  let nameMatches := occurring message (toolNameWords_of t) in
  if Nat.ltb 0 (List.length nameMatches) then
    if guarded message t then Ok []
    else
      let+ found := extractArgsFromMessage E message t [] in
      let byName :=
        match found with
        | Some a =>
            let c := ((3 # 5) + ratio (List.length nameMatches)
                                      (List.length (toolNameWords_of t)) * (1 # 5))%Q in
            [{| m_tool := name t; m_args := a; confidence := Qred (qmin c (9 # 10)) |}]
        | None => []
        end in
      let+ byDescription := description_matches E message t in
      Ok (byName ++ byDescription)
  else description_matches E message t.

(** One iteration of the loop over the tools. *)
Definition tool_matches (E : Env) (message : string) (t : ToolMetadata)
  : Outcome (list FastPathMatch) :=
  if guarded message t then Ok []
  else
    let+ byExample := collect (example_matches E message t) (examples t) in
    let+ byWords := name_and_description_matches E message t in
    Ok (byExample ++ byWords).

(** The candidates pooled by the loop ([matches] before it is sorted);
    an error raised while the arguments of a candidate are extracted ends
    the loop. *)
Definition pooled (E : Env) (st : State) (message : string)
  : Outcome (list FastPathMatch) :=
  collect (tool_matches E message) (ToolCache.getAllTools st).

(** [xs.sort((a, b) => b.confidence - a.confidence)], a stable sort. *)
Fixpoint insert_desc (x : FastPathMatch) (l : list FastPathMatch) : list FastPathMatch :=
  match l with
  | [] => [x]
  | y :: r => if Qle_bool (confidence y) (confidence x)
              then x :: l else y :: insert_desc x r
  end.

Definition sort_desc (l : list FastPathMatch) : list FastPathMatch :=
  fold_right insert_desc [] l.

(** The selection made at the end of [tryFastPath]. *)
Definition select (matches : list FastPathMatch) : list FastPathMatch :=
  if Nat.eqb (List.length matches) 0 then []
  else
    let sorted := sort_desc matches in
    let validMatches := List.filter (fun m => geq (confidence m) (1 # 2)) sorted in
    if Nat.ltb 0 (List.length validMatches) then
      if existsb (fun m => geq (confidence m) (3 # 5)) validMatches
      then List.filter (fun m => geq (confidence m) (2 # 5)) sorted
      else validMatches
    else validMatches.

(** [tryFastPath(message)] *)
Definition tryFastPath (E : Env) (st : State) (message : string)
  : Outcome (list FastPathMatch) :=
  let+ matches := pooled E st message in
  Ok (select matches).

(** The key of [deduplicateMatches] is the tool name followed by the
    JSON text of the arguments; two keys are equal exactly when the names
    and the argument objects are. *)
Definition same_key (a b : FastPathMatch) : bool :=
  (String.eqb (m_tool a) (m_tool b) && Val.eqb (JObj (m_args a)) (JObj (m_args b)))%bool.

(** [seen.set(key, match)] when the key is present. *)
Fixpoint replace_key (m : FastPathMatch) (seen : list FastPathMatch) : list FastPathMatch :=
  match seen with
  | [] => []
  | x :: r => if same_key m x then m :: r else x :: replace_key m r
  end.

(** One round of the loop of [deduplicateMatches]. *)
Definition remember_match (seen : list FastPathMatch) (m : FastPathMatch)
  : list FastPathMatch :=
  match List.find (same_key m) seen with
  | None => seen ++ [m]
  | Some existing =>
      if gt (confidence m) (confidence existing)
      then replace_key m seen else seen
  end.

(** [deduplicateMatches(matches)] *)
Definition deduplicateMatches (matches : list FastPathMatch) : list FastPathMatch :=
  let seen := fold_left remember_match matches [] in
  sort_desc seen.

Definition call_json (m : FastPathMatch) : JValue :=
  JObj [("tool", JStr (m_tool m)); ("args", JObj (m_args m))].

(** The plan built from the fast-path matches. *)
Definition fast_plan (fastPathMatches : list FastPathMatch) : JValue :=
  let uniqueMatches := deduplicateMatches fastPathMatches in
  JObj [("calls", JArr (List.map call_json uniqueMatches));
        ("needs_confirmation", JBool false);
        ("reasoning",
         JStr ("Fast path matches: " +:+ JS.join ", " (List.map m_tool uniqueMatches)))].

(** [route(message, userId, context, conversationHistory)]; an error of
    [tryFastPath] is not caught. *)
Definition route (E : Env) (P : Planner.t) (message uid : string)
    (history : list Message) : M JValue :=
  let* st := get_state in
  let* fastPathMatches := lift_outcome (tryFastPath E st message) in
  if Nat.ltb 0 (List.length fastPathMatches)
  then ret (fast_plan fastPathMatches)
  else Planner.plan E P message uid history.

End Router.

(* ===================================================================== *)
(** * resourceManager.ts *)
(* ===================================================================== *)

(** The manager has fields of its own; its two clock readings are given
    explicitly, as for the conversation history. *)
Module ResourceManager.

Record t : Type := {
  resources : list DiscoveredResource;
  tools : list DiscoveredTool;
  lastRefresh : Z;
  refreshIntervalMs : Z
}.

(** [new ResourceManager(mcp, refreshIntervalMs)]; an argument left out
    is [None]. *)
Definition create (interval : option Z) : t :=
  {| resources := []; tools := []; lastRefresh := 0;
     refreshIntervalMs := default (1 * 60 * 1000) interval |}.

(** The callback of [(toolsResult?.tools || []).map(...)]. *)
Definition tool_of (d : DiscoveredTool) : DiscoveredTool :=
  {| dt_name := dt_name d;
     dt_description := Some (match dt_description d with
                             | Some s => s
                             | None => EmptyString
                             end);
     dt_inputSchema := Some (default empty_schema (dt_inputSchema d)) |}.

(** [refresh()], [now] being the reading of the clock taken once both
    listings have answered. *)
Definition refresh (E : Env) (now : Z) (m : t) : Outcome unit * t :=
  match mcp_listTools E with
  | Throw error => (Throw error, m)
  | Ok toolList =>
      let m1 := {| resources := resources m; tools := List.map tool_of toolList;
                   lastRefresh := lastRefresh m;
                   refreshIntervalMs := refreshIntervalMs m |} in
      match mcp_listResources E with
      | Throw error => (Throw error, m1)
      | Ok listed =>
          (Ok tt,
           {| resources := List.filter ContextProvider.is_all_resource listed;
              tools := tools m1;
              lastRefresh := now;
              refreshIntervalMs := refreshIntervalMs m1 |})
      end
  end.

(** [getResources()] and [getTools()] *)
Definition getResources (m : t) : list DiscoveredResource := resources m.
Definition getTools (m : t) : list DiscoveredTool := tools m.

(** The callback of [find] in [getResourceByType]. *)
Definition of_type (type : string) (r : DiscoveredResource) : bool :=
  match JS.uri_scheme (uri r) with
  | Some scheme => String.eqb scheme type
  | None => false
  end.

(** [getResourceByType(type)] *)
Definition getResourceByType (type : string) (m : t) : option DiscoveredResource :=
  List.find (of_type type) (resources m).

(** [getResourceUri(type)] *)
Definition getResourceUri (type : string) (m : t) : option string :=
  option_map uri (getResourceByType type m).

(** [ensureFresh()]: [now] is its own reading of the clock, [later] the
    one of the refresh it may run. *)
Definition ensureFresh (E : Env) (now later : Z) (m : t) : Outcome unit * t :=
  if refreshIntervalMs m <? now - lastRefresh m
  then refresh E later m
  else (Ok tt, m).

End ResourceManager.

(* ===================================================================== *)
(** * Scenarios *)
(* ===================================================================== *)

(** Concrete surroundings on which the model is run. *)
Module Scenario.

(** What the regular expressions of [extractArgsFromMessage] find in the
    messages of the scenarios for the string properties [query] and
    [id].  In [send me the ecp checklist] neither name occurs, so the two
    patterns built from the name match nothing; the rule for query-like
    properties captures the text after the verb [send], and the rule for
    id-like properties captures the first word.
    [what's the capital of France] holds none of the verbs and is not
    searched for [id] in the scenarios. *)
Definition heuristics (message propName : string) (propSchema : PropSchema)
  : Outcome (option JValue) :=
  if (String.eqb message "send me the ecp checklist"
      && String.eqb (default "string" (p_type propSchema)) "string")%bool
  then
    if String.eqb propName "query" then Ok (Some (JStr "me the ecp checklist"))
    else if String.eqb propName "id" then Ok (Some (JStr "send"))
    else Ok None
  else Ok None.

(** Surroundings given by the reading of the clock, the credential of
    the environment, the answers of the MCP server and the answer of the
    model endpoint. *)
Definition make (t : Z) (key : option string)
    (listed : Outcome (list DiscoveredTool))
    (resources : Outcome (list DiscoveredResource))
    (read : string -> Outcome (option string))
    (answer : FetchResult) : Env :=
  {| JSON_parse := Json.parse;
     Date_now := fun _ => t;
     env_OPENAI_API_KEY := key;
     mcp_listTools := listed;
     mcp_listResources := resources;
     mcp_readResource := read;
     mcp_callTool := fun _ _ => Ok JNull;
     llm_fetch := fun _ _ => answer;
     renderPrompt := fun message _ _ _ _ => message;
     extractProp := heuristics |}.

(** A server that lists nothing, a model that answers nothing, a clock
    that stands at [t], no credential. *)
Definition quiet (t : Z) : Env :=
  make t None (Ok []) (Ok []) (fun _ => Ok None) (FetchContent None).

(** A server that cannot be reached for [tools/list]. *)
Definition unreachable : Env :=
  make 0 None (Throw "fetch failed") (Ok []) (fun _ => Ok None) (FetchContent None).

(** The payload of the projects resource. *)
Definition projects_payload : string :=
  "[{" +:+ Json.quoted "id" +:+ ":" +:+ Json.quoted "p1" +:+ "," +:+
  Json.quoted "projectName" +:+ ":" +:+ Json.quoted "Aspen" +:+ "}]".

(** A server whose only resource is [projects://all]. *)
Definition projects_server : Env :=
  make 0 None (Ok []) (Ok [ {| uri := "projects://all" |} ])
    (fun u => if String.eqb u "projects://all" then Ok (Some projects_payload)
              else Throw "Resource not found")
    (FetchContent None).

(** A configured credential and a model that answers [text]. *)
Definition answering (text : string) : Env :=
  make 0 (Some "sk-test") (Ok []) (Ok []) (fun _ => Ok None)
    (FetchContent (Some text)).

Definition query_schema : Schema :=
  {| properties := Some [("query", {| p_type := Some "string"; p_description := None |})];
     required := Some ["query"] |}.

(** The document tool as a server lists it. *)
Definition send_document_listing : DiscoveredTool :=
  {| dt_name := "send_document";
     dt_description := Some "Find a document and send it";
     dt_inputSchema := Some query_schema |}.

(** A state whose tool table was built from that listing. *)
Definition with_send_document : State :=
  {| trace := []; ticks := 0%nat;
     tools := ToolCache.table_of [send_document_listing];
     userSessions := ∅; entityCache := []; discoveredResources := [];
     lastEntityRefresh := 0; onStream := None |}.

(** An answer that is JSON and names a tool the catalog does not hold,
    and one whose [calls] is not an array. *)
Definition unknown_tool_answer : string :=
  "{" +:+ Json.quoted "calls" +:+ ":[{" +:+ Json.quoted "tool" +:+ ":" +:+
  Json.quoted "launch_rocket" +:+ "," +:+ Json.quoted "args" +:+ ":{}}]}".

Definition calls_not_array_answer : string :=
  "{" +:+ Json.quoted "calls" +:+ ":" +:+ Json.quoted "none" +:+ "}".

(** The same state with a progress handler whose delivery fails. *)
Definition with_failing_handler : State :=
  {| trace := []; ticks := 0%nat;
     tools := ToolCache.table_of [send_document_listing];
     userSessions := ∅; entityCache := []; discoveredResources := [];
     lastEntityRefresh := 0; onStream := Some (fun _ => Rejected "connection lost") |}.

(** A plan of two calls, the first without the required [query]. *)
Definition incomplete_call : PlanCall :=
  {| tool := "send_document"; call_args := [] |}.

Definition complete_call : PlanCall :=
  {| tool := "send_document"; call_args := [("query", JStr "ecp checklist")] |}.

Definition two_calls : Plan :=
  {| calls := [incomplete_call; complete_call]; needs_confirmation := Some false |}.

Definition planner : Planner.t :=
  {| Planner.llmApiKey := EmptyString;
     Planner.llmBaseUrl := "https://api.openai.com/v1";
     Planner.llmModel := "gpt-4o-mini" |}.

End Scenario.

(* ===================================================================== *)
(** * Vocabulary of the statements *)
(* ===================================================================== *)

(** The confidence below which a pooled candidate is dropped. *)
Definition selection_threshold (pool : list FastPathMatch) : Q :=
  if existsb (fun m => (Router.geq (confidence m) (1 # 2)
                        && Router.geq (confidence m) (3 # 5))%bool) pool
  then 2 # 5 else 1 # 2.

Definition ecp_message : string := "send me the ecp checklist".

Definition ecp_example : Example :=
  {| query := "send me the ecp checklist"; args := [("query", JStr "ecp checklist")] |}.

Definition ecp_candidate : FastPathMatch :=
  {| m_tool := "send_document";
     m_args := [("query", JStr "ecp checklist")];
     confidence := 1 |}.

(** The declared properties other than [query] for which the message
    search finds nothing: the template of the example is then the whole
    argument set. *)
Definition template_suffices (E : Env) (t : ToolMetadata) : Prop :=
  forall p ps,
    In (p, ps) (default [] (properties (inputSchema t))) ->
    p <> "query" -> extractProp E ecp_message p ps = Ok None.

(** The tool invocations among the requests sent. *)
Definition remote_calls (tr : list Event) : list Event :=
  List.filter (fun ev => match ev with EvCallTool _ _ => true | _ => false end) tr.

(** No progress handler is registered, or the registered one never
    rejects. *)
Definition stream_quiet (st : State) : Prop :=
  match onStream st with
  | None => True
  | Some handler => forall message, handler message = Delivered
  end.




(** The state once a progress notice has been delivered. *)
Definition notified (message : string) (st : State) : State :=
  match onStream st with
  | None => st
  | Some _ =>
      {| trace := trace st ++ [EvStream message]; ticks := ticks st;
         tools := tools st; userSessions := userSessions st;
         entityCache := entityCache st;
         discoveredResources := discoveredResources st;
         lastEntityRefresh := lastEntityRefresh st; onStream := onStream st |}
  end.

(** The state once a tool invocation has been sent. *)
Definition invoked (call : PlanCall) (st : State) : State :=
  {| trace := trace st ++ [EvCallTool (tool call) (call_args call)];
     ticks := ticks st; tools := tools st; userSessions := userSessions st;
     entityCache := entityCache st;
     discoveredResources := discoveredResources st;
     lastEntityRefresh := lastEntityRefresh st; onStream := onStream st |}.

(** The requests sent to the model endpoint. *)
Definition llm_requests (tr : list Event) : list Event :=
  List.filter (fun ev => match ev with EvLlmFetch _ _ => true | _ => false end) tr.

(** A computation that leaves the tool table alone and sends nothing to
    the model endpoint, whatever its outcome. *)
Definition frames {A} (c : M A) : Prop :=
  forall st,
    tools (snd (c st)) = tools st
    /\ llm_requests (trace (snd (c st))) = llm_requests (trace st).

(** A computation that never raises. *)
Definition total {A} (c : M A) : Prop :=
  forall st, exists a, fst (c st) = Ok a.

(** The rules of plan validation, in the words of the specification: a
    call has a non-empty string [tool], an [args] that is an object (a
    non-null value whose [typeof] is [object]), and names a tool of the
    catalog. *)
Definition has_tool_name (call : JValue) : Prop :=
  exists s, Val.prop call "tool" = Some (Some (JStr s)) /\ s <> EmptyString.

Definition has_args_object (call : JValue) : Prop :=
  exists a, Val.prop call "args" = Some (Some a)
            /\ a <> JNull /\ Val.typeof a = "object".

Definition names_known_tool (st : State) (call : JValue) : Prop :=
  exists s t, Val.prop call "tool" = Some (Some (JStr s))
              /\ ToolCache.getTool st s = Some t.


(** The item of the projects payload, the record the catalog holds for
    it, and the record the specification expects. *)
Definition projects_resource : DiscoveredResource := {| uri := "projects://all" |}.

Definition projects_item : JValue :=
  JObj [("id", JStr "p1"); ("projectName", JStr "Aspen")].

Definition projects_entity : JValue :=
  JObj [("id", JStr "p1"); ("name", JStr EmptyString); ("projectName", JStr "Aspen")].

Definition expected_projects_entity : JValue :=
  JObj [("id", JStr "p1"); ("name", JStr "Aspen"); ("projectName", JStr "Aspen")].

(** The state once the projects resource has been read and stored. *)
Definition projects_stored (st : State) : State :=
  {| trace := trace st ++ [EvReadResource "projects://all"]; ticks := ticks st;
     tools := tools st; userSessions := userSessions st;
     entityCache := Obj.put "projects" [projects_entity] (entityCache st);
     discoveredResources := discoveredResources st;
     lastEntityRefresh := lastEntityRefresh st; onStream := onStream st |}.

(** The store of the failing run: limits of twenty messages and one
    second, one message written at time 0. *)
Definition hello : Message := {| role := user; content := "hello"; timestamp := 0 |}.

Definition one_message : ConversationHistory.t :=
  ConversationHistory.addMessage "u1" user "hello" 0 0
    (ConversationHistory.create 20 1000).


(** The pair that [deduplicateMatches] compares: tool and arguments. *)
Definition match_key (m : FastPathMatch) : string * list (string * JValue) :=
  (m_tool m, m_args m).

(** No two matches of the list have the same tool and arguments. *)
Definition unique_keys (l : list FastPathMatch) : Prop :=
  List.NoDup (List.map match_key l).

(** The confidences of the list never increase from one match to the
    next. *)
Fixpoint sorted_desc (l : list FastPathMatch) : Prop :=
  match l with
  | [] => True
  | x :: r => (forall y, In y r -> (confidence y <= confidence x)%Q) /\ sorted_desc r
  end.

(** What the loop of [deduplicateMatches] has established once it has
    gone through [done]: the matches seen so far have distinct keys, come
    from [done], and cover every match of [done] with one of the same key
    and at least its confidence. *)
Definition deduplicated (done seen : list FastPathMatch) : Prop :=
  unique_keys seen
  /\ (forall y, In y seen -> In y done)
  /\ forall m, In m done ->
       exists y, In y seen /\ match_key y = match_key m
                 /\ (confidence m <= confidence y)%Q.

(** What becomes of one call of a plan when progress notices are
    delivered: the result of the tool, or the error recorded for the
    call. *)
Definition call_outcome (E : Env) (st : State) (call : PlanCall) : JValue + string :=
  match PlanExecutor.validateCall st call with
  | Some validationError => inr validationError
  | None =>
      match mcp_callTool E (tool call) (call_args call) with
      | Ok r => inl r
      | Throw e => inr ("Tool execution failed: " +:+ error_text e)
      end
  end.

Definition call_results (E : Env) (st : State) (cs : list PlanCall) : list JValue :=
  flat_map (fun c => match call_outcome E st c with inl r => [r] | inr _ => [] end) cs.

Definition call_errors (E : Env) (st : State) (cs : list PlanCall)
  : list (PlanCall * string) :=
  flat_map (fun c => match call_outcome E st c with inl _ => [] | inr e => [(c, e)] end) cs.

Definition is_valid (st : State) (call : PlanCall) : bool :=
  match PlanExecutor.validateCall st call with None => true | Some _ => false end.

Definition call_event (call : PlanCall) : Event :=
  EvCallTool (tool call) (call_args call).


(** Further surroundings on which the model is run. *)
Module Cases.

(** An answer that is a plan with one call of the document tool. *)
Definition valid_answer : string :=
  "{" +:+ Json.quoted "calls" +:+ ":[{" +:+ Json.quoted "tool" +:+ ":" +:+
  Json.quoted "send_document" +:+ "," +:+ Json.quoted "args" +:+ ":{" +:+
  Json.quoted "query" +:+ ":" +:+ Json.quoted "ecp checklist" +:+ "}}]}".

Definition valid_plan : JValue :=
  JObj [("calls",
         JArr [JObj [("tool", JStr "send_document");
                     ("args", JObj [("query", JStr "ecp checklist")])]])].

(** A configured credential and a model endpoint that refuses the
    connection. *)
Definition refusing : Env :=
  Scenario.make 0 (Some "sk-test") (Ok []) (Ok []) (fun _ => Ok None)
    (FetchRejects "connect ECONNREFUSED").

(** A server whose [tools/list] and [resources/list] both fail. *)
Definition offline : Env :=
  Scenario.make 600000 None (Throw "fetch failed") (Throw "fetch failed")
    (fun _ => Throw "fetch failed") (FetchContent None).

End Cases.




(** An entity record: an object that has an [id] and a [name]. *)
Definition is_record (e : JValue) : Prop :=
  exists fs idv namev,
    e = JObj fs /\ Obj.get "id" fs = Some idv /\ Obj.get "name" fs = Some namev.

(** The catalog holds at most a hundred records per type, each type being
    the scheme of a discovered resource. *)
Definition catalog_ok (st : State) : Prop :=
  forall ty es, In (ty, es) (entityCache st) ->
    (List.length es <= 100)%nat
    /\ (forall e, In e es -> is_record e)
    /\ exists r, In r (discoveredResources st) /\ JS.uri_scheme (uri r) = Some ty.

(** The resources discovered are list endpoints. *)
Definition resources_ok (st : State) : Prop :=
  forall r, In r (discoveredResources st) -> ContextProvider.is_all_resource r = true.

(** [hoare P c Q R]: from a state that satisfies [P], the computation
    [c] returns a value [a] in a state that satisfies [Q a], or raises in
    a state that satisfies [R]. *)
Definition hoare {A} (P : State -> Prop) (c : M A) (Q : A -> State -> Prop)
    (R : State -> Prop) : Prop :=
  forall st, P st ->
    match c st with
    | (Ok a, st') => Q a st'
    | (Throw _, st') => R st'
    end.

(** A property of the state that the requests recorded and the clock do
    not touch. *)
Definition passive (I : State -> Prop) : Prop :=
  forall st tr n,
    I st ->
    I {| trace := tr; ticks := n; tools := tools st;
         userSessions := userSessions st; entityCache := entityCache st;
         discoveredResources := discoveredResources st;
         lastEntityRefresh := lastEntityRefresh st; onStream := onStream st |}.

(** What the loop over the resources maintains. *)
Definition refreshing (st : State) : Prop := resources_ok st /\ catalog_ok st.

(** [keeps I c]: the computation [c] maintains [I], whatever its
    outcome. *)
Definition keeps {A} (I : State -> Prop) (c : M A) : Prop :=
  hoare I c (fun _ => I) I.

(** A property of the state that depends on nothing the refresh of the
    entity catalog writes. *)
Definition catalog_blind (I : State -> Prop) : Prop :=
  forall st tr n c r t,
    I st ->
    I {| trace := tr; ticks := n; tools := tools st;
         userSessions := userSessions st; entityCache := c;
         discoveredResources := r;
         lastEntityRefresh := t; onStream := onStream st |}.

(** The context that [getUserContext] creates for a user it has not
    seen. *)
Definition default_context (uid : string) : UserContext :=
  {| userId := uid; userName := None; defaultProject := None;
     lastReferencedProject := None; timezone := Some "America/New_York" |}.

(** The resources whose URI has a scheme: the ones for which the loop of
    [refreshEntityCatalog] sends a read. *)
Definition has_scheme (r : DiscoveredResource) : bool :=
  match JS.uri_scheme (uri r) with Some _ => true | None => false end.

Definition reads_of (rs : list DiscoveredResource) : list Event :=
  List.map (fun r => EvReadResource (uri r)) (List.filter has_scheme rs).




(** A document tool whose schema declares an [id] beside the [query],
    the state whose table holds it, and the two candidates that the
    message of C9 yields there. *)
Definition send_document_with_id : DiscoveredTool :=
  {| dt_name := "send_document";
     dt_description := Some "Find a document and send it";
     dt_inputSchema :=
       Some {| properties :=
                 Some [("query", {| p_type := Some "string"; p_description := None |});
                       ("id", {| p_type := Some "string"; p_description := None |})];
               required := Some ["query"] |} |}.

Definition with_id_property : State :=
  {| trace := []; ticks := 0%nat;
     tools := ToolCache.table_of [send_document_with_id];
     userSessions := ∅; entityCache := []; discoveredResources := [];
     lastEntityRefresh := 0; onStream := None |}.

Definition ecp_candidate_with_id : FastPathMatch :=
  {| m_tool := "send_document";
     m_args := [("query", JStr "ecp checklist"); ("id", JStr "send")];
     confidence := 1 |}.

Definition name_candidate_with_id : FastPathMatch :=
  {| m_tool := "send_document";
     m_args := [("query", JStr "me the ecp checklist"); ("id", JStr "send")];
     confidence := 7 # 10 |}.

(** The state of the scenarios with a progress handler that delivers
    the notice of a start and rejects the notice of a completion, and one
    whose handler rejects with [undefined]. *)
Definition with_rejected_completion : State :=
  {| trace := []; ticks := 0%nat;
     tools := ToolCache.table_of [Scenario.send_document_listing];
     userSessions := ∅; entityCache := []; discoveredResources := [];
     lastEntityRefresh := 0;
     onStream := Some (fun message =>
                         if JS.startsWith message "Executing" then Delivered
                         else Rejected "connection lost") |}.

Definition with_bare_rejection : State :=
  {| trace := []; ticks := 0%nat;
     tools := ToolCache.table_of [Scenario.send_document_listing];
     userSessions := ∅; entityCache := []; discoveredResources := [];
     lastEntityRefresh := 0;
     onStream := Some (fun _ => RejectedUndefined) |}.

(** A tool that declares a property named [c++], the state whose table
    holds it, and surroundings in which the pattern built from that name
    does not compile: [new RegExp] raises a SyntaxError on it. *)
Definition lookup_language : DiscoveredTool :=
  {| dt_name := "lookup_language";
     dt_description := Some "Language facts";
     dt_inputSchema :=
       Some {| properties :=
                 Some [("c++", {| p_type := Some "string"; p_description := None |})];
               required := None |} |}.

Definition with_lookup_language : State :=
  {| trace := []; ticks := 0%nat;
     tools := ToolCache.table_of [lookup_language];
     userSessions := ∅; entityCache := []; discoveredResources := [];
     lastEntityRefresh := 0; onStream := None |}.

Definition nothing_to_repeat : string :=
  "Invalid regular expression: /c++\s*[:=]\s*[" +:+ String Json.dquote "']([^" +:+
  String Json.dquote "']+)[" +:+ String Json.dquote "']/i: Nothing to repeat".

Definition strict_patterns : Env :=
  {| JSON_parse := Json.parse;
     Date_now := fun _ => 0;
     env_OPENAI_API_KEY := None;
     mcp_listTools := Ok [];
     mcp_listResources := Ok [];
     mcp_readResource := fun _ => Ok None;
     mcp_callTool := fun _ _ => Ok JNull;
     llm_fetch := fun _ _ => FetchContent None;
     renderPrompt := fun message _ _ _ _ => message;
     extractProp := fun _ propName _ =>
                      if String.eqb propName "c++" then Throw nothing_to_repeat
                      else Ok None |}.

(* ===================================================================== *)
(** * Properties of the object model *)
(* ===================================================================== *)

Section ObjectFacts.

Context {V : Type}.

Lemma get_set_same (k : string) (v : V) (fs : list (string * V)) :
  Obj.get k (Obj.set k v fs) = Some v.
Proof.
  induction fs as [|[k' v'] r IH]; cbn.
  - now rewrite String.eqb_refl.
  - destruct (String.eqb k k') eqn:Hk; cbn; rewrite ?Hk, ?String.eqb_refl; auto.
Qed.

Lemma get_set_other (k k' : string) (v : V) (fs : list (string * V)) :
  k <> k' -> Obj.get k (Obj.set k' v fs) = Obj.get k fs.
Proof.
  intros Hne. induction fs as [|[k0 v0] r IH]; cbn.
  - apply String.eqb_neq in Hne. now rewrite Hne.
  - destruct (String.eqb k' k0) eqn:Hk; cbn.
    + apply String.eqb_eq in Hk. subst k0.
      apply String.eqb_neq in Hne. now rewrite Hne.
    + destruct (String.eqb k k0); [reflexivity|exact IH].
Qed.

Lemma in_set (k k' : string) (v v' : V) (fs : list (string * V)) :
  In (k', v') (Obj.set k v fs) -> (k', v') = (k, v) \/ In (k', v') fs.
Proof.
  induction fs as [|[k0 v0] r IH]; cbn [Obj.set].
  - intros [H|[]]. now left.
  - destruct (String.eqb k k0).
    + intros [H|H]; [now left|right; now right].
    + intros [H|H]; [right; now left|].
      destruct (IH H) as [H1|H1]; [now left|right; now right].
Qed.

Lemma get_insert_index_absent (i : Z) (k : string) (v : V) (fs : list (string * V)) :
  Obj.get k fs = None -> Obj.get k (Obj.insert_index i k v fs) = Some v.
Proof.
  induction fs as [|[k' v'] r IH]; cbn [Obj.insert_index Obj.get].
  - now rewrite String.eqb_refl.
  - destruct (String.eqb k k') eqn:Hk; [discriminate|]. intros Hr.
    destruct (Obj.index_of k') as [j|]; [destruct (j <? i)|];
      cbn [Obj.get]; rewrite ?String.eqb_refl, ?Hk; auto.
Qed.

Lemma get_insert_index_other (i : Z) (k k' : string) (v : V)
    (fs : list (string * V)) :
  k <> k' -> Obj.get k (Obj.insert_index i k' v fs) = Obj.get k fs.
Proof.
  intros Hne. apply String.eqb_neq in Hne.
  induction fs as [|[k0 v0] r IH]; cbn [Obj.insert_index Obj.get].
  - now rewrite Hne.
  - destruct (Obj.index_of k0) as [j|]; [destruct (j <? i)|];
      cbn [Obj.get]; rewrite ?Hne, ?IH; reflexivity.
Qed.

Lemma in_insert_index (i : Z) (k k' : string) (v v' : V) (fs : list (string * V)) :
  In (k', v') (Obj.insert_index i k v fs) <-> (k', v') = (k, v) \/ In (k', v') fs.
Proof.
  induction fs as [|[k0 v0] r IH]; cbn [Obj.insert_index].
  - cbn. intuition congruence.
  - destruct (Obj.index_of k0) as [j|]; [destruct (j <? i)|]; cbn [In];
      rewrite ?IH; intuition congruence.
Qed.

Lemma get_define_same (k : string) (v : V) (fs : list (string * V)) :
  Obj.get k (Obj.define k v fs) = Some v.
Proof.
  unfold Obj.define. destruct (Obj.get k fs) eqn:Hg; [apply get_set_same|].
  destruct (Obj.index_of k); [now apply get_insert_index_absent|apply get_set_same].
Qed.

Lemma get_define_other (k k' : string) (v : V) (fs : list (string * V)) :
  k <> k' -> Obj.get k (Obj.define k' v fs) = Obj.get k fs.
Proof.
  intros Hne. unfold Obj.define.
  destruct (Obj.get k' fs); [now apply get_set_other|].
  destruct (Obj.index_of k'); [now apply get_insert_index_other|now apply get_set_other].
Qed.

Lemma in_define (k k' : string) (v v' : V) (fs : list (string * V)) :
  In (k', v') (Obj.define k v fs) -> (k', v') = (k, v) \/ In (k', v') fs.
Proof.
  unfold Obj.define. destruct (Obj.get k fs); [apply in_set|].
  destruct (Obj.index_of k); [apply in_insert_index|apply in_set].
Qed.

(** An assignment stores the value, except under the key [__proto__]
    when the object has no own property of that name. *)
Lemma get_put_same (k : string) (v : V) (fs : list (string * V)) :
  k <> "__proto__" -> Obj.get k (Obj.put k v fs) = Some v.
Proof.
  intros Hne. unfold Obj.put. apply String.eqb_neq in Hne. rewrite Hne.
  destruct (Obj.get k fs); apply get_define_same.
Qed.

Lemma get_put_other (k k' : string) (v : V) (fs : list (string * V)) :
  k <> k' -> Obj.get k (Obj.put k' v fs) = Obj.get k fs.
Proof.
  intros Hne. unfold Obj.put.
  destruct (Obj.get k' fs); [now apply get_define_other|].
  destruct (String.eqb k' "__proto__"); [reflexivity|now apply get_define_other].
Qed.

Lemma put_proto (v : V) (fs : list (string * V)) :
  Obj.get "__proto__" fs = None -> Obj.put "__proto__" v fs = fs.
Proof. intros H. unfold Obj.put. now rewrite H. Qed.

Lemma in_put (k k' : string) (v v' : V) (fs : list (string * V)) :
  In (k', v') (Obj.put k v fs) -> (k', v') = (k, v) \/ In (k', v') fs.
Proof.
  unfold Obj.put. destruct (Obj.get k fs); [apply in_define|].
  destruct (String.eqb k "__proto__"); [now right|apply in_define].
Qed.

(** A value that is present stays present, under its key, whatever is
    assigned. *)
Lemma get_put_defined (k k' : string) (v : V) (fs : list (string * V)) :
  Obj.get k fs <> None -> Obj.get k (Obj.put k' v fs) <> None.
Proof.
  intros H. destruct (String.eqb_spec k k') as [<-|Hne].
  - unfold Obj.put. destruct (Obj.get k fs) eqn:Hg; [|congruence].
    rewrite get_define_same. discriminate.
  - now rewrite get_put_other.
Qed.

End ObjectFacts.

(* ===================================================================== *)
(** * Properties of the router *)
(* ===================================================================== *)

Section Sequencing.

Context {A B : Type}.

Lemma collect_in (f : A -> Outcome (list B)) (xs : list A) (l : list B) :
  collect f xs = Ok l ->
  forall b, In b l <-> exists a ys, In a xs /\ f a = Ok ys /\ In b ys.
Proof.
  revert l. induction xs as [|x r IH]; intros l; cbn [collect].
  - intros [= <-] b. split; [intros []|intros (a & ys & [] & _)].
  - unfold and_then. destruct (f x) as [ys|e] eqn:Hx; [|discriminate].
    destruct (collect f r) as [zs|e]; [|discriminate].
    intros [= <-] b. rewrite in_app_iff, (IH zs eq_refl b). split.
    + intros [H|(a & ys' & Ha & Hf & Hb)].
      * exists x, ys. auto with datatypes.
      * exists a, ys'. auto with datatypes.
    + intros (a & ys' & [<-|Ha] & Hf & Hb).
      * left. congruence.
      * right. eauto.
Qed.

Lemma collect_each (f : A -> Outcome (list B)) (xs : list A) (l : list B) :
  collect f xs = Ok l -> forall a, In a xs -> exists ys, f a = Ok ys.
Proof.
  revert l. induction xs as [|x r IH]; intros l; cbn [collect]; [intros _ a []|].
  unfold and_then. destruct (f x) as [ys|e] eqn:Hx; [|discriminate].
  destruct (collect f r) as [zs|e]; [|discriminate].
  intros _ a [<-|Ha]; [eauto|]. now apply (IH zs).
Qed.

Lemma collect_total (f : A -> Outcome (list B)) (xs : list A) :
  (forall a, In a xs -> exists ys, f a = Ok ys) -> exists l, collect f xs = Ok l.
Proof.
  induction xs as [|x r IH]; intros H; cbn [collect]; [eauto|].
  destruct (H x (or_introl eq_refl)) as [ys Hx]. rewrite Hx.
  destruct IH as [zs Hr]; [intros a Ha; apply H; now right|].
  rewrite Hr. cbn. eauto.
Qed.


End Sequencing.

Section RouterFacts.

Import Router.

Lemma insert_desc_perm (x : FastPathMatch) (l : list FastPathMatch) :
  Permutation (insert_desc x l) (x :: l).
Proof.
  induction l as [|y r IH]; simpl.
  - apply Permutation_refl.
  - destruct (Qle_bool (confidence y) (confidence x)).
    + apply Permutation_refl.
    + eapply Permutation_trans.
      * apply perm_skip, IH.
      * apply perm_swap.
Qed.

Lemma sort_desc_perm (l : list FastPathMatch) : Permutation (sort_desc l) l.
Proof.
  induction l as [|x r IH]; simpl.
  - apply Permutation_refl.
  - eapply Permutation_trans.
    + apply insert_desc_perm.
    + apply perm_skip, IH.
Qed.

Lemma filter_perm {A} (f : A -> bool) (l l' : list A) :
  Permutation l l' -> Permutation (List.filter f l) (List.filter f l').
Proof.
  induction 1 as [|x l l' _ IH|x y l|l l' l'' _ IH1 _ IH2]; simpl.
  - apply Permutation_refl.
  - destruct (f x); [apply perm_skip|]; exact IH.
  - destruct (f x), (f y); try apply Permutation_refl. apply perm_swap.
  - eapply Permutation_trans; eassumption.
Qed.

Lemma existsb_perm {A} (f : A -> bool) (l l' : list A) :
  Permutation l l' -> existsb f l = existsb f l'.
Proof.
  induction 1 as [|x l l' _ IH|x y l|l l' l'' _ IH1 _ IH2]; simpl.
  - reflexivity.
  - now rewrite IH.
  - destruct (f x), (f y); reflexivity.
  - congruence.
Qed.

Lemma existsb_filter {A} (f g : A -> bool) (l : list A) :
  existsb f (List.filter g l) = existsb (fun x => (g x && f x)%bool) l.
Proof.
  induction l as [|x r IH]; simpl; [reflexivity|].
  destruct (g x); simpl; now rewrite IH.
Qed.

Lemma filter_nil_existsb {A} (f : A -> bool) (l : list A) :
  List.filter f l = [] -> existsb f l = false.
Proof.
  induction l as [|x r IH]; simpl; [reflexivity|].
  destruct (f x); [discriminate|exact IH].
Qed.

Lemma select_perm (pool : list FastPathMatch) :
  Permutation (select pool)
    (List.filter (fun m => geq (confidence m) (selection_threshold pool)) pool).
Proof.
  unfold select, selection_threshold.
  destruct pool as [|m0 r]; [apply Permutation_refl|].
  cbn [List.length Nat.eqb].
  set (pool := m0 :: r).
  pose proof (sort_desc_perm pool) as Hs.
  rewrite <- (existsb_perm _ _ _ Hs), <- existsb_filter.
  destruct (List.filter (fun m => geq (confidence m) (1 # 2)) (sort_desc pool))
    as [|v vs] eqn:Hv.
  - cbn [List.length Nat.ltb Nat.leb existsb]. rewrite <- Hv. now apply filter_perm.
  - cbn [List.length Nat.ltb Nat.leb].
    destruct (existsb _ (v :: vs)).
    + now apply filter_perm.
    + rewrite <- Hv. now apply filter_perm.
Qed.




Lemma route_fast (E : Env) (P : Planner.t) (message uid : string)
    (history : list Message) (st : State) (sel : list FastPathMatch) :
  tryFastPath E st message = Ok sel ->
  sel <> [] ->
  route E P message uid history st = (Ok (fast_plan sel), st).
Proof.
  intros H Hne. unfold route, bind, get_state, lift_outcome. rewrite H.
  destruct sel; [congruence|reflexivity].
Qed.

Lemma route_raises (E : Env) (P : Planner.t) (message uid : string)
    (history : list Message) (st : State) (e : string) :
  tryFastPath E st message = Throw e ->
  route E P message uid history st = (Throw e, st).
Proof.
  intros H. unfold route, bind, get_state, lift_outcome. rewrite H. reflexivity.
Qed.

Lemma tryFastPath_ok (E : Env) (st : State) (message : string)
    (sel : list FastPathMatch) :
  tryFastPath E st message = Ok sel <->
  exists pool, pooled E st message = Ok pool /\ sel = select pool.
Proof.
  unfold tryFastPath, and_then. destruct (pooled E st message) as [pool|e].
  - split; [intros [= <-]; eauto|intros (pool' & [= <-] & ->); reflexivity].
  - split; [discriminate|intros (pool' & Hp & _); discriminate].
Qed.






End RouterFacts.





Section Deduplication.

Import Router.

Lemma same_key_spec (a b : FastPathMatch) :
  same_key a b = true <-> m_tool a = m_tool b /\ m_args a = m_args b.
Proof.
  unfold same_key, Val.eqb. rewrite andb_true_iff, String.eqb_eq.
  destruct (Val.eq_dec (JObj (m_args a)) (JObj (m_args b))) as [Heq|Hne].
  - injection Heq as Heq. tauto.
  - split; [intros [_ H]; discriminate|].
    intros [_ H]. exfalso. apply Hne. now rewrite H.
Qed.

Lemma same_key_refl (a : FastPathMatch) : same_key a a = true.
Proof. apply same_key_spec. tauto. Qed.

Lemma same_key_trans (a b c : FastPathMatch) :
  same_key a b = true -> same_key b c = true -> same_key a c = true.
Proof.
  rewrite !same_key_spec. intros [-> ->] [-> ->]. tauto.
Qed.

Lemma same_key_sym (a b : FastPathMatch) :
  same_key a b = true -> same_key b a = true.
Proof. rewrite !same_key_spec. intros [-> ->]. tauto. Qed.

(** A key that is present stays present when another entry is replaced. *)
Lemma replace_key_keeps (m x : FastPathMatch) (seen : list FastPathMatch) :
  (exists y, In y seen /\ same_key m y = true) ->
  exists y, In y (replace_key x seen) /\ same_key m y = true.
Proof.
  induction seen as [|z r IH]; intros (y & Hy & Hk); [destruct Hy|].
  simpl. destruct (same_key x z) eqn:Hxz.
  - destruct Hy as [<-|Hy].
    + exists x. split; [now left|].
      eapply same_key_trans; [exact Hk|]. now apply same_key_sym.
    + exists y. split; [now right|exact Hk].
  - destruct Hy as [<-|Hy].
    + exists z. split; [now left|exact Hk].
    + destruct IH as (y' & Hy' & Hk'); [eauto|].
      exists y'. split; [now right|exact Hk'].
Qed.

Lemma replace_key_puts (x : FastPathMatch) (seen : list FastPathMatch) :
  (exists y, In y seen /\ same_key x y = true) -> In x (replace_key x seen).
Proof.
  induction seen as [|z r IH]; intros (y & Hy & Hk); [destruct Hy|].
  simpl. destruct (same_key x z) eqn:Hxz; [now left|].
  destruct Hy as [<-|Hy]; [congruence|].
  right. apply IH. eauto.
Qed.

Lemma remember_match_keeps (seen : list FastPathMatch) (x m : FastPathMatch) :
  (exists y, In y seen /\ same_key m y = true) ->
  exists y, In y (remember_match seen x) /\ same_key m y = true.
Proof.
  intros H. unfold remember_match.
  destruct (List.find (same_key x) seen) as [existing|].
  - destruct (gt _ _); [now apply replace_key_keeps|exact H].
  - destruct H as (y & Hy & Hk). exists y. split; [|exact Hk].
    apply in_or_app. now left.
Qed.

Lemma remember_match_adds (seen : list FastPathMatch) (x : FastPathMatch) :
  exists y, In y (remember_match seen x) /\ same_key x y = true.
Proof.
  unfold remember_match.
  destruct (List.find (same_key x) seen) as [existing|] eqn:Hf.
  - apply find_some in Hf. destruct Hf as [Hin Hk].
    destruct (gt _ _).
    + exists x. split; [|apply same_key_refl].
      apply replace_key_puts. eauto.
    + eauto.
  - exists x. split; [|apply same_key_refl].
    apply in_or_app. right. now left.
Qed.

Lemma fold_remember_keeps (l seen : list FastPathMatch) (m : FastPathMatch) :
  (In m l \/ exists y, In y seen /\ same_key m y = true) ->
  exists y, In y (fold_left remember_match l seen) /\ same_key m y = true.
Proof.
  revert seen. induction l as [|x r IH]; intros seen H; simpl.
  - destruct H as [[]|H]. exact H.
  - apply IH. destruct H as [[<-|H]|H].
    + right. apply remember_match_adds.
    + now left.
    + right. now apply remember_match_keeps.
Qed.

(** Deduplication keeps one match for every pair of tool and arguments. *)
Lemma deduplicateMatches_keeps (l : list FastPathMatch) (m : FastPathMatch) :
  In m l ->
  exists y, In y (deduplicateMatches l) /\ m_tool y = m_tool m /\ m_args y = m_args m.
Proof.
  intros H.
  destruct (fold_remember_keeps l [] m) as (y & Hy & Hk); [now left|].
  exists y. split.
  - unfold deduplicateMatches.
    apply (Permutation_in _ (Permutation_sym (sort_desc_perm _))). exact Hy.
  - apply same_key_spec in Hk. destruct Hk as [-> ->]. tauto.
Qed.

End Deduplication.

Section EcpChecklist.

Import Router.

Lemma fill_template (E : Env) (props : list (string * PropSchema)) :
  (forall p ps, In (p, ps) props -> p <> "query" ->
                extractProp E ecp_message p ps = Ok None) ->
  fill E ecp_message props [("query", JStr "ecp checklist")]
  = Ok [("query", JStr "ecp checklist")].
Proof.
  induction props as [|[p ps] r IH]; intros Hp; [reflexivity|].
  cbn [fill].
  destruct (defined p [("query", JStr "ecp checklist")]) eqn:D.
  - apply IH. intros. eapply Hp; [right|]; eassumption.
  - assert (Hne : p <> "query").
    { intros ->. vm_compute in D. discriminate. }
    rewrite (Hp p ps (or_introl eq_refl) Hne). cbn [and_then].
    apply IH. intros. eapply Hp; [right|]; eassumption.
Qed.

Lemma extract_template (E : Env) (t : ToolMetadata) :
  template_suffices E t ->
  extractArgsFromMessage E ecp_message t (args ecp_example)
  = Ok (Some [("query", JStr "ecp checklist")]).
Proof.
  intros H. unfold extractArgsFromMessage.
  replace (if Nat.ltb 0 (List.length (Obj.keys (args ecp_example)))
           then Obj.assign [] (args ecp_example) else [])
    with [("query", JStr "ecp checklist")] by (vm_compute; reflexivity).
  rewrite (fill_template E _ H). cbn [and_then].
  cbn [Obj.keys List.map List.length Nat.eqb Nat.ltb Nat.leb andb fst].
  destruct (_ || _)%bool; reflexivity.
Qed.

Lemma ecp_is_document_request : isDocumentRequest ecp_message = true.
Proof. vm_compute. reflexivity. Qed.

Lemma ecp_example_matches (E : Env) (t : ToolMetadata) :
  name t = "send_document" ->
  template_suffices E t ->
  example_matches E ecp_message t ecp_example = Ok [ecp_candidate].
Proof.
  intros Hn H. unfold example_matches.
  replace (example_confidence ecp_message ecp_example) with 1%Q
    by (vm_compute; reflexivity).
  replace (_ && _)%bool with true by (vm_compute; reflexivity).
  rewrite (extract_template E t H), Hn. reflexivity.
Qed.

End EcpChecklist.

(** C9.  For the message [send me the ecp checklist] and a catalog
    holding a [send_document] tool one of whose examples is that query
    with arguments [{query: "ecp checklist"}], provided the search of the
    message finds nothing for the other properties that the tool
    declares.  The example has the four tokens [send], [the], [ecp],
    [checklist]; against any message its confidence is the share of these
    tokens that contain, or are contained in, a word of the message; here
    all four match.  The example yields the candidate [send_document] with
    those arguments and confidence 1; whenever the fast path returns, that
    candidate is pooled and selected, and [route] returns the fast-path
    plan, which holds that call, without changing the state (no request
    is sent, the planner is not run). *)
Theorem ecp_checklist_fast_path (E : Env) (st : State) (t : ToolMetadata) :
  In t (ToolCache.getAllTools st) ->
  name t = "send_document" ->
  In ecp_example (examples t) ->
  template_suffices E t ->
  Router.exampleWords_of ecp_example = ["send"; "the"; "ecp"; "checklist"]
  /\ (forall message,
        Router.example_confidence message ecp_example
        = Router.ratio
            (List.length
               (List.filter
                  (fun ew =>
                     existsb (fun mw => (JS.includes mw ew || JS.includes ew mw)%bool)
                       (JS.split_ws (JS.trim (JS.toLowerCase message))))
                  ["send"; "the"; "ecp"; "checklist"]))
            4)
  /\ Router.matchingWords_of ecp_message ecp_example = ["send"; "the"; "ecp"; "checklist"]
  /\ Router.example_confidence ecp_message ecp_example = Router.ratio 4 4
  /\ Router.example_matches E ecp_message t ecp_example = Ok [ecp_candidate]
  /\ forall pool,
       Router.pooled E st ecp_message = Ok pool ->
       In ecp_candidate pool
       /\ In ecp_candidate (Router.select pool)
       /\ Router.tryFastPath E st ecp_message = Ok (Router.select pool)
       /\ exists cs,
            (forall P uid history,
               Router.route E P ecp_message uid history st
               = (Ok (Router.fast_plan (Router.select pool)), st))
            /\ Val.prop (Router.fast_plan (Router.select pool)) "calls"
               = Some (Some (JArr cs))
            /\ In (Router.call_json ecp_candidate) cs.
Proof.
  intros Ht Hn He Hs.
  split; [vm_compute; reflexivity|].
  split; [intros message; reflexivity|].
  split; [vm_compute; reflexivity|].
  split; [vm_compute; reflexivity|].
  split; [now apply ecp_example_matches|].
  intros pool Hp.
  assert (Hpool : In ecp_candidate pool).
  { unfold Router.pooled in Hp.
    destruct (collect_each _ _ _ Hp t Ht) as [ys Hys].
    apply (collect_in _ _ _ Hp). exists t, ys. split; [exact Ht|]. split; [exact Hys|].
    unfold Router.tool_matches, Router.guarded in Hys.
    rewrite ecp_is_document_request, andb_false_r in Hys.
    unfold and_then in Hys.
    destruct (collect (Router.example_matches E ecp_message t) (examples t))
      as [byExample|e] eqn:Hc; [|discriminate].
    destruct (Router.name_and_description_matches E ecp_message t)
      as [byWords|e]; [|discriminate].
    injection Hys as <-. apply in_or_app. left.
    apply (collect_in _ _ _ Hc). exists ecp_example, [ecp_candidate].
    split; [exact He|]. split; [now apply ecp_example_matches|now left]. }
  assert (Hsel : In ecp_candidate (Router.select pool)).
  { apply (Permutation_in _ (Permutation_sym (select_perm _))).
    apply filter_In. split; [exact Hpool|].
    unfold selection_threshold. destruct (existsb _ _); vm_compute; reflexivity. }
  assert (Hf : Router.tryFastPath E st ecp_message = Ok (Router.select pool)).
  { unfold Router.tryFastPath. rewrite Hp. reflexivity. }
  split; [exact Hpool|]. split; [exact Hsel|]. split; [exact Hf|].
  destruct (deduplicateMatches_keeps _ _ Hsel) as (y & Hy & Htool & Hargs).
  eexists. split; [|split].
  - intros P uid history. apply route_fast; [exact Hf|].
    intros Hnil. rewrite Hnil in Hsel. destruct Hsel.
  - reflexivity.
  - apply in_map_iff. exists y. split; [|exact Hy].
    unfold Router.call_json. now rewrite Htool, Hargs.
Qed.

(** The document tool as [ToolCache] builds it from a listing carries
    the example of C9. *)
Lemma send_document_examples (description : string) (schema : Schema) :
  In ecp_example (ToolCache.generateExamples "send_document" description schema).
Proof.
  unfold ToolCache.generateExamples. cbn [String.eqb Ascii.eqb Bool.eqb].
  apply in_or_app. left. now left.
Qed.

Lemma ecp_checklist_fast_path_witness :
  Router.example_matches (Scenario.quiet 0) ecp_message
    (ToolCache.metadata_of Scenario.send_document_listing) ecp_example
  = Ok [ecp_candidate]
  /\ exists pool,
       Router.pooled (Scenario.quiet 0) Scenario.with_send_document ecp_message = Ok pool
       /\ In ecp_candidate (Router.select pool)
       /\ Router.route (Scenario.quiet 0) Scenario.planner ecp_message "u1" []
            Scenario.with_send_document
          = (Ok (Router.fast_plan (Router.select pool)), Scenario.with_send_document).
Proof.
  assert (Ht : In (ToolCache.metadata_of Scenario.send_document_listing)
                  (ToolCache.getAllTools Scenario.with_send_document)) by (now left).
  assert (Hs : template_suffices (Scenario.quiet 0)
                 (ToolCache.metadata_of Scenario.send_document_listing)).
  { intros p ps [Heq|[]] Hne. injection Heq as <- <-. now destruct Hne. }
  destruct (ecp_checklist_fast_path (Scenario.quiet 0) Scenario.with_send_document
              (ToolCache.metadata_of Scenario.send_document_listing)
              Ht eq_refl (send_document_examples _ _) Hs)
    as (_ & _ & _ & _ & Hex & Hall).
  split; [exact Hex|].
  destruct (Router.pooled (Scenario.quiet 0) Scenario.with_send_document ecp_message)
    as [pool|e] eqn:Hp; [|vm_compute in Hp; discriminate].
  destruct (Hall pool eq_refl) as (_ & Hsel & _ & cs & Hroute & _).
  exists pool. split; [reflexivity|]. split; [exact Hsel|apply Hroute].
Defined.

(** C9 as stated fails on a catalog whose document tool
    declares an [id] as well: the rule for id-like properties takes the
    first word of the message, so both candidates carry [id: "send"] and
    the candidate with the arguments [{query: "ecp checklist"}] alone is
    neither pooled nor selected. *)
Lemma ecp_candidate_gains_id :
  In ecp_example (examples (ToolCache.metadata_of send_document_with_id))
  /\ ToolCache.getAllTools with_id_property
     = [ToolCache.metadata_of send_document_with_id]
  /\ Router.pooled (Scenario.quiet 0) with_id_property ecp_message
     = Ok [ecp_candidate_with_id; name_candidate_with_id]
  /\ Router.tryFastPath (Scenario.quiet 0) with_id_property ecp_message
     = Ok [ecp_candidate_with_id; name_candidate_with_id]
  /\ ~ In ecp_candidate [ecp_candidate_with_id; name_candidate_with_id].
Proof.
  split; [apply send_document_examples|].
  split; [reflexivity|].
  split; [vm_compute; reflexivity|].
  split; [vm_compute; reflexivity|].
  intros [H|[H|[]]]; discriminate.
Qed.

(* ===================================================================== *)
(** * Properties of the executor *)
(* ===================================================================== *)

Section ExecutorFacts.

Import PlanExecutor.

Lemma stream_run (message : string) (st : State) :
  stream message st
  = (Ok (match onStream st with
         | Some handler => handler message
         | None => Delivered
         end), notified message st).
Proof.
  unfold stream, notified, bind, get_state.
  destruct (onStream st) as [handler|] eqn:Hh; [|reflexivity].
  unfold emit, modify, ret. cbn. rewrite Hh. reflexivity.
Qed.

Lemma stream_quiet_run (message : string) (st : State) :
  stream_quiet st -> stream message st = (Ok Delivered, notified message st).
Proof.
  intros Hq. rewrite stream_run. unfold stream_quiet in Hq.
  destruct (onStream st) as [handler|]; [now rewrite Hq|reflexivity].
Qed.

Lemma notified_quiet (message : string) (st : State) :
  stream_quiet st -> stream_quiet (notified message st).
Proof.
  unfold stream_quiet, notified.
  destruct (onStream st) as [handler|] eqn:Hh; cbn; [|now rewrite Hh].
  tauto.
Qed.

Lemma notified_tools (message : string) (st : State) :
  tools (notified message st) = tools st.
Proof. unfold notified. now destruct (onStream st). Qed.

Lemma notified_calls (message : string) (st : State) :
  remote_calls (trace (notified message st)) = remote_calls (trace st).
Proof.
  unfold notified, remote_calls. destruct (onStream st); [|reflexivity].
  cbn. rewrite List.filter_app. cbn. apply app_nil_r.
Qed.

Lemma validateCall_tools (st st' : State) (call : PlanCall) :
  tools st' = tools st -> validateCall st' call = validateCall st call.
Proof.
  intros H. unfold validateCall, ToolCache.getTool. now rewrite H.
Qed.

(** A call that fails validation is recorded and not sent. *)
Lemma execute_call_invalid (E : Env) (call : PlanCall) (res : ExecutionResult)
    (st : State) (err : string) :
  stream_quiet st ->
  validateCall st call = Some err ->
  execute_call E call res st
  = (Ok (add_error res call err),
     notified ("Executing " +:+ tool call +:+ "...") st).
Proof.
  intros Hq Hv. unfold execute_call, bind at 1.
  rewrite (stream_quiet_run _ _ Hq). cbn [awaited]. unfold bind, get_state.
  rewrite (validateCall_tools st _ call (notified_tools _ st)), Hv.
  reflexivity.
Qed.

(** A call that passes validation and whose invocation succeeds is sent
    once and its result recorded. *)
Lemma execute_call_valid (E : Env) (call : PlanCall) (res : ExecutionResult)
    (st : State) (r : JValue) :
  stream_quiet st ->
  validateCall st call = None ->
  mcp_callTool E (tool call) (call_args call) = Ok r ->
  execute_call E call res st
  = (Ok (add_result res r),
     notified (check_mark +:+ " Completed " +:+ tool call)
       (invoked call (notified ("Executing " +:+ tool call +:+ "...") st))).
Proof.
  intros Hq Hv Hr. unfold execute_call, bind at 1.
  rewrite (stream_quiet_run _ _ Hq). cbn [awaited]. unfold bind at 1, get_state.
  rewrite (validateCall_tools st _ call (notified_tools _ st)), Hv.
  set (st1 := notified _ st).
  assert (Hq1 : stream_quiet st1) by (now apply notified_quiet).
  unfold bind at 1, settled, executeCall, try_catch, bind at 1, emit, modify,
    lift_outcome.
  rewrite Hr. fold (invoked call st1).
  assert (Hq2 : stream_quiet (invoked call st1)) by exact Hq1.
  unfold bind. rewrite (stream_quiet_run _ _ Hq2). reflexivity.
Qed.

(** A required argument that is absent makes validation fail. *)
Lemma validateCall_missing (st : State) (call : PlanCall) (t : ToolMetadata)
    (props : list (string * PropSchema)) (prop : string) :
  ToolCache.getTool st (tool call) = Some t ->
  properties (inputSchema t) = Some props ->
  In prop (default [] (required (inputSchema t))) ->
  has_in prop (call_args call) = false ->
  exists p, validateCall st call = Some ("Missing required argument: " +:+ p)
            /\ In p (default [] (required (inputSchema t)))
            /\ has_in p (call_args call) = false.
Proof.
  intros Hg Hp Hin Hno. unfold validateCall. rewrite Hg, Hp.
  destruct (List.find _ _) as [p|] eqn:Hf.
  - apply find_some in Hf. destruct Hf as [Hinp Hneg].
    exists p. repeat split; [exact Hinp|]. now apply negb_true_iff.
  - apply (find_none _ _ Hf) in Hin. rewrite Hno in Hin. discriminate.
Qed.

(** A progress notice whose delivery fails is caught like any other
    error of the call: with a handler that always rejects, neither call
    of the plan gets as far as validation. *)
Lemma rejected_notice_is_recorded :
  fst (execute (Scenario.quiet 0) Scenario.two_calls Scenario.with_failing_handler)
  = Ok {| success := false; results := [];
          errors := [(Scenario.incomplete_call, "connection lost");
                     (Scenario.complete_call, "connection lost")];
          needsConfirmation := false |}.
Proof. vm_compute. reflexivity. Qed.

End ExecutorFacts.

(** C5.  A plan that needs confirmation is returned at once: no results,
    no errors, [needsConfirmation] set, and the state as it was, so that
    no request has been sent for any call of the plan. *)
Theorem confirmation_short_circuit (E : Env) (plan : Plan) (st : State) :
  needs_confirmation plan = Some true ->
  PlanExecutor.execute E plan st
  = (Ok {| success := true; results := []; errors := [];
           needsConfirmation := true |}, st).
Proof.
  intros H. unfold PlanExecutor.execute. rewrite H. reflexivity.
Qed.

(** C4.  With a plan of two calls that does not need confirmation, the
    first lacking a required argument of its tool and the second valid
    with a successful invocation, and progress notices that are delivered,
    [execute] reports failure with one error, for the first call, and one
    result, that of the second; the second call is the only invocation
    sent. *)
Theorem partial_failure (E : Env) (st : State) (plan : Plan) (c1 c2 : PlanCall)
    (t : ToolMetadata) (props : list (string * PropSchema)) (prop : string)
    (r : JValue) :
  calls plan = [c1; c2] ->
  default false (needs_confirmation plan) = false ->
  ToolCache.getTool st (tool c1) = Some t ->
  properties (inputSchema t) = Some props ->
  In prop (default [] (required (inputSchema t))) ->
  PlanExecutor.has_in prop (call_args c1) = false ->
  PlanExecutor.validateCall st c2 = None ->
  mcp_callTool E (tool c2) (call_args c2) = Ok r ->
  stream_quiet st ->
  exists p st',
    PlanExecutor.execute E plan st
    = (Ok {| success := false; results := [r];
             errors := [(c1, "Missing required argument: " +:+ p)];
             needsConfirmation := false |}, st')
    /\ remote_calls (trace st')
       = remote_calls (trace st) ++ [EvCallTool (tool c2) (call_args c2)].
Proof.
  intros Hc Hn Hg Hp Hin Hno Hv2 Hr Hq.
  destruct (validateCall_missing st c1 t props prop Hg Hp Hin Hno) as (p & Hv1 & _).
  set (st1 := notified ("Executing " +:+ tool c1 +:+ "...") st).
  assert (Hq1 : stream_quiet st1) by (now apply notified_quiet).
  assert (Hv2' : PlanExecutor.validateCall st1 c2 = None).
  { rewrite (validateCall_tools st st1 c2 (notified_tools _ st)). exact Hv2. }
  exists p.
  exists (notified (PlanExecutor.check_mark +:+ " Completed " +:+ tool c2)
            (invoked c2 (notified ("Executing " +:+ tool c2 +:+ "...") st1))).
  split.
  - unfold PlanExecutor.execute. rewrite Hn, Hc.
    cbn [PlanExecutor.execute_calls]. unfold bind at 1.
    rewrite (execute_call_invalid E c1 _ st _ Hq Hv1).
    fold st1. unfold bind at 1.
    rewrite (execute_call_valid E c2 _ st1 r Hq1 Hv2' Hr).
    reflexivity.
  - rewrite notified_calls. unfold invoked, remote_calls at 1. cbn [trace].
    rewrite List.filter_app. cbn [List.filter].
    fold (remote_calls (trace (notified ("Executing " +:+ tool c2 +:+ "...") st1))).
    rewrite notified_calls. unfold st1. now rewrite notified_calls.
Qed.

Lemma confirmation_short_circuit_witness :
  PlanExecutor.execute (Scenario.quiet 0)
    {| calls := [{| tool := "send_document"; call_args := [("query", JStr "ecp checklist")] |}];
       needs_confirmation := Some true |}
    Scenario.with_send_document
  = (Ok {| success := true; results := []; errors := [];
           needsConfirmation := true |}, Scenario.with_send_document).
Proof.
  apply (confirmation_short_circuit (Scenario.quiet 0)). reflexivity.
Defined.

(** C4 as stated fails when a progress notice is not
    delivered.  Here the first call lacks the required [query], the
    second is valid and its invocation succeeds, but the handler rejects
    the notice of completion: the result of the second call is recorded,
    and so is a second error, for the second call. *)
Lemma rejected_completion_adds_error :
  calls Scenario.two_calls = [Scenario.incomplete_call; Scenario.complete_call]
  /\ needs_confirmation Scenario.two_calls = Some false
  /\ PlanExecutor.validateCall with_rejected_completion Scenario.incomplete_call
     = Some "Missing required argument: query"
  /\ PlanExecutor.validateCall with_rejected_completion Scenario.complete_call = None
  /\ mcp_callTool (Scenario.quiet 0) (tool Scenario.complete_call)
       (call_args Scenario.complete_call) = Ok JNull
  /\ fst (PlanExecutor.execute (Scenario.quiet 0) Scenario.two_calls
            with_rejected_completion)
     = Ok {| success := false; results := [JNull];
             errors := [(Scenario.incomplete_call, "Missing required argument: query");
                        (Scenario.complete_call, "connection lost")];
             needsConfirmation := false |}.
Proof. repeat split; vm_compute; reflexivity. Qed.

Lemma partial_failure_witness :
  exists p st',
    PlanExecutor.execute (Scenario.quiet 0) Scenario.two_calls
      Scenario.with_send_document
    = (Ok {| success := false; results := [JNull];
             errors := [(Scenario.incomplete_call,
                         "Missing required argument: " +:+ p)];
             needsConfirmation := false |}, st')
    /\ remote_calls (trace st')
       = remote_calls (trace Scenario.with_send_document)
         ++ [EvCallTool (tool Scenario.complete_call)
               (call_args Scenario.complete_call)].
Proof.
  apply (partial_failure (Scenario.quiet 0) Scenario.with_send_document
           Scenario.two_calls Scenario.incomplete_call Scenario.complete_call
           (ToolCache.metadata_of Scenario.send_document_listing)
           [("query", {| p_type := Some "string"; p_description := None |})]
           "query" JNull).
  - reflexivity.
  - reflexivity.
  - reflexivity.
  - reflexivity.
  - simpl. now left.
  - reflexivity.
  - vm_compute. reflexivity.
  - reflexivity.
  - exact I.
Defined.

(* ===================================================================== *)
(** * Properties of the tool cache *)
(* ===================================================================== *)

(** C10.  When [listTools] fails during [refresh], the error is passed
    on and the table is the one held before: [getTool] answers the same
    for every name and [getAllTools] returns the same list.  The only
    trace of the attempt is the request itself. *)
Theorem refresh_failure_keeps_table (E : Env) (st : State) (e : string) :
  mcp_listTools E = Throw e ->
  exists st',
    ToolCache.refresh E st = (Throw e, st')
    /\ tools st' = tools st
    /\ (forall n, ToolCache.getTool st' n = ToolCache.getTool st n)
    /\ ToolCache.getAllTools st' = ToolCache.getAllTools st
    /\ trace st' = trace st ++ [EvListTools].
Proof.
  intros H. eexists.
  unfold ToolCache.refresh, try_catch, bind, emit, modify, lift_outcome, throw.
  cbn. rewrite H. cbn.
  repeat split; reflexivity.
Qed.

Lemma refresh_failure_keeps_table_witness :
  exists st',
    ToolCache.refresh Scenario.unreachable Scenario.with_send_document
    = (Throw "fetch failed", st')
    /\ tools st' = tools Scenario.with_send_document
    /\ (forall n, ToolCache.getTool st' n
                  = ToolCache.getTool Scenario.with_send_document n)
    /\ ToolCache.getAllTools st' = ToolCache.getAllTools Scenario.with_send_document
    /\ trace st' = trace Scenario.with_send_document ++ [EvListTools].
Proof.
  apply (refresh_failure_keeps_table Scenario.unreachable). reflexivity.
Defined.

(* ===================================================================== *)
(** * Properties of the planner *)
(* ===================================================================== *)

Section Framing.

Lemma frames_ret {A} (a : A) : frames (ret a).
Proof. intros st. split; reflexivity. Qed.

Lemma frames_throw {A} (e : string) : frames (@throw A e).
Proof. intros st. split; reflexivity. Qed.

Lemma frames_get_state : frames get_state.
Proof. intros st. split; reflexivity. Qed.

Lemma frames_lift_outcome {A} (o : Outcome A) : frames (lift_outcome o).
Proof. intros st. split; reflexivity. Qed.

Lemma frames_bind {A B} (c : M A) (k : A -> M B) :
  frames c -> (forall a, frames (k a)) -> frames (bind c k).
Proof.
  intros Hc Hk st. unfold bind. specialize (Hc st).
  destruct (c st) as [[a|e] st1]; cbn in *.
  - destruct (Hk a st1) as [H1 H2]. destruct Hc as [H3 H4].
    split; congruence.
  - exact Hc.
Qed.

Lemma frames_try_catch {A} (c : M A) (h : string -> M A) :
  frames c -> (forall e, frames (h e)) -> frames (try_catch c h).
Proof.
  intros Hc Hh st. unfold try_catch. specialize (Hc st).
  destruct (c st) as [[a|e] st1]; cbn in *.
  - exact Hc.
  - destruct (Hh e st1) as [H1 H2]. destruct Hc as [H3 H4].
    split; congruence.
Qed.

Lemma frames_for_each {A} (xs : list A) (body : A -> M unit) :
  (forall x, frames (body x)) -> frames (for_each xs body).
Proof.
  intros Hb. induction xs as [|x r IH]; cbn [for_each].
  - apply frames_ret.
  - apply frames_bind; [apply Hb|intros _; exact IH].
Qed.

Lemma frames_emit (ev : Event) :
  (forall url messages, ev <> EvLlmFetch url messages) -> frames (emit ev).
Proof.
  intros Hev st. cbn. split; [reflexivity|].
  unfold llm_requests. rewrite List.filter_app. cbn.
  destruct ev; try apply app_nil_r. now destruct (Hev url messages).
Qed.

Lemma frames_now (E : Env) : frames (now E).
Proof. intros st. split; reflexivity. Qed.

Lemma frames_set_userSessions u : frames (set_userSessions u).
Proof. intros st. split; reflexivity. Qed.

Lemma frames_set_entityCache c : frames (set_entityCache c).
Proof. intros st. split; reflexivity. Qed.

Lemma frames_set_discoveredResources r : frames (set_discoveredResources r).
Proof. intros st. split; reflexivity. Qed.

Lemma frames_set_lastEntityRefresh t : frames (set_lastEntityRefresh t).
Proof. intros st. split; reflexivity. Qed.

Lemma total_ret {A} (a : A) : total (ret a).
Proof. intros st. now exists a. Qed.

Lemma total_bind {A B} (c : M A) (k : A -> M B) :
  total c -> (forall a, total (k a)) -> total (bind c k).
Proof.
  intros Hc Hk st. unfold bind. destruct (Hc st) as [a Ha].
  destruct (c st) as [[a'|e] st1]; cbn in Ha; [|discriminate].
  apply Hk.
Qed.

Lemma total_try_catch {A} (c : M A) (h : string -> M A) :
  (forall e, total (h e)) -> total (try_catch c h).
Proof.
  intros Hh st. unfold try_catch.
  destruct (c st) as [[a|e] st1]; [now exists a|apply Hh].
Qed.

Lemma total_for_each {A} (xs : list A) (body : A -> M unit) :
  (forall x, total (body x)) -> total (for_each xs body).
Proof.
  intros Hb. induction xs as [|x r IH]; cbn [for_each].
  - apply total_ret.
  - apply total_bind; [apply Hb|intros _; exact IH].
Qed.

Lemma total_modify (f : State -> State) : total (modify f).
Proof. intros st. now exists tt. Qed.

Lemma total_get_state : total get_state.
Proof. intros st. now exists st. Qed.

Lemma total_now (E : Env) : total (now E).
Proof. intros st. eexists. reflexivity. Qed.

End Framing.

Create HintDb framing.

#[local] Hint Resolve frames_ret frames_throw frames_get_state frames_lift_outcome
  frames_now frames_set_userSessions frames_set_entityCache
  frames_set_discoveredResources frames_set_lastEntityRefresh
  total_ret total_modify total_get_state total_now : framing.

Ltac framing :=
  repeat first
    [ match goal with |- forall _, _ => intro end
    | solve [auto with framing]
    | apply frames_bind | apply frames_try_catch | apply frames_for_each
    | apply total_bind | apply total_try_catch | apply total_for_each
    | apply frames_emit; intros; discriminate
    | match goal with
      | |- frames (match ?x with _ => _ end) => destruct x
      | |- total (match ?x with _ => _ end) => destruct x
      | |- frames (if ?b then _ else _) => destruct b
      | |- total (if ?b then _ else _) => destruct b
      end ].

Section ContextFacts.

Import ContextProvider.

Lemma frames_fetch_resource (E : Env) (r : DiscoveredResource) :
  frames (fetch_resource E r).
Proof. unfold fetch_resource. framing. Qed.

Lemma frames_discoverResources (E : Env) : frames (discoverResources E).
Proof. unfold discoverResources. framing. Qed.

#[local] Hint Resolve frames_fetch_resource frames_discoverResources : framing.

Lemma frames_refreshEntityCatalog (E : Env) : frames (refreshEntityCatalog E).
Proof. unfold refreshEntityCatalog. framing. Qed.

Lemma total_refreshEntityCatalog (E : Env) : total (refreshEntityCatalog E).
Proof. unfold refreshEntityCatalog. apply total_try_catch. framing. Qed.

#[local] Hint Resolve frames_refreshEntityCatalog total_refreshEntityCatalog : framing.

Lemma frames_refresh_if_stale (E : Env) : frames (refresh_if_stale E).
Proof. unfold refresh_if_stale. framing. Qed.

Lemma total_refresh_if_stale (E : Env) : total (refresh_if_stale E).
Proof. unfold refresh_if_stale. framing. Qed.

#[local] Hint Resolve frames_refresh_if_stale total_refresh_if_stale : framing.

Lemma frames_getUserContext (E : Env) (uid : string) : frames (getUserContext E uid).
Proof. unfold getUserContext. framing. Qed.

Lemma total_getUserContext (E : Env) (uid : string) : total (getUserContext E uid).
Proof. unfold getUserContext, set_userSessions. framing. Qed.

Lemma frames_getEntityCatalog (E : Env) : frames (getEntityCatalog E).
Proof. unfold getEntityCatalog. framing. Qed.

Lemma total_getEntityCatalog (E : Env) : total (getEntityCatalog E).
Proof. unfold getEntityCatalog. framing. Qed.

(** The two context reads of [plan] succeed and leave the tool table and
    the model endpoint alone. *)
Lemma context_reads (E : Env) (uid : string) (st : State) :
  exists uc st1 cat st2,
    getUserContext E uid st = (Ok uc, st1)
    /\ getEntityCatalog E st1 = (Ok cat, st2)
    /\ tools st2 = tools st
    /\ llm_requests (trace st2) = llm_requests (trace st).
Proof.
  destruct (total_getUserContext E uid st) as [uc Huc].
  destruct (frames_getUserContext E uid st) as [Ht1 Hl1].
  destruct (getUserContext E uid st) as [o1 st1] eqn:H1.
  cbn [fst snd] in Huc, Ht1, Hl1. subst o1.
  destruct (total_getEntityCatalog E st1) as [cat Hcat].
  destruct (frames_getEntityCatalog E st1) as [Ht2 Hl2].
  destruct (getEntityCatalog E st1) as [o2 st2] eqn:H2.
  cbn [fst snd] in Hcat, Ht2, Hl2. subst o2.
  exists uc, st1, cat, st2.
  split; [reflexivity|]. split; [exact H2|].
  split; [now rewrite Ht2|now rewrite Hl2].
Qed.

End ContextFacts.

Section PlannerFacts.

Import Planner.

Lemma validateCall_ok (st : State) (call : JValue) :
  validateCall st call = Ok tt ->
  has_tool_name call /\ has_args_object call /\ names_known_tool st call.
Proof.
  unfold validateCall, has_tool_name, has_args_object, names_known_tool.
  destruct (Val.prop call "tool") as [[[| | |s| |]|]|]; try discriminate.
  destruct (String.eqb s EmptyString) eqn:Hs; [discriminate|].
  apply String.eqb_neq in Hs.
  destruct (Val.prop call "args") as [[a|]|]; try discriminate.
  destruct (Val.truthy a && String.eqb (Val.typeof a) "object")%bool eqn:Ha;
    [|discriminate].
  apply andb_true_iff in Ha. destruct Ha as [Htr Hty].
  apply String.eqb_eq in Hty.
  destruct (ToolCache.getTool st s) as [t|] eqn:Ht; [|discriminate].
  intros _. split; [eauto|]. split; [|eauto].
  exists a. repeat split; [|exact Hty].
  intros ->. discriminate.
Qed.

Lemma validateCalls_ok (st : State) (cs : list JValue) :
  validateCalls st cs = Ok tt ->
  forall call, In call cs ->
    has_tool_name call /\ has_args_object call /\ names_known_tool st call.
Proof.
  induction cs as [|c r IH]; intros H call Hin; [destruct Hin|].
  cbn in H. destruct (validateCall st c) as [[]|e] eqn:Hc; [|discriminate].
  destruct Hin as [<-|Hin]; [now apply validateCall_ok|now apply IH].
Qed.


Lemma planner_validateCall_tools (st st' : State) (c : JValue) :
  tools st' = tools st -> validateCall st' c = validateCall st c.
Proof.
  intros H. unfold validateCall, ToolCache.getTool. now rewrite H.
Qed.

Lemma validatePlan_tools (st st' : State) (p : JValue) :
  tools st' = tools st -> validatePlan st' p = validatePlan st p.
Proof.
  intros H. unfold validatePlan.
  destruct (Val.prop p "calls") as [[[| | | |cs|]|]|]; try reflexivity.
  induction cs as [|c r IH]; [reflexivity|].
  cbn [validateCalls]. rewrite (planner_validateCall_tools st st' c H), IH.
  reflexivity.
Qed.

Lemma names_known_tool_tools (st st' : State) (call : JValue) :
  tools st' = tools st -> names_known_tool st call -> names_known_tool st' call.
Proof.
  unfold names_known_tool, ToolCache.getTool. intros ->. tauto.
Qed.

End PlannerFacts.





(** The fallback on answers that parse and break a rule. *)
Lemma rule_breaking_answers_fall_back :
  fst (Planner.plan (Scenario.answering Scenario.unknown_tool_answer)
         Scenario.planner "launch it" "u1" [] Scenario.with_send_document)
  = Ok Planner.fallback_plan
  /\ fst (Planner.plan (Scenario.answering Scenario.calls_not_array_answer)
            Scenario.planner "launch it" "u1" [] Scenario.with_send_document)
     = Ok Planner.fallback_plan
  /\ Json.parse Scenario.unknown_tool_answer
     = Some (JObj [("calls", JArr [JObj [("tool", JStr "launch_rocket");
                                         ("args", JObj [])]])]).
Proof. vm_compute. repeat split; reflexivity. Qed.


(* ===================================================================== *)
(** * Properties of the entity catalog *)
(* ===================================================================== *)

Section EntityFacts.

Import ContextProvider.

Lemma fetch_projects (E : Env) (st : State) :
  JSON_parse E Scenario.projects_payload = Some (JArr [projects_item]) ->
  mcp_readResource E "projects://all" = Ok (Some Scenario.projects_payload) ->
  fetch_resource E projects_resource st = (Ok tt, projects_stored st).
Proof.
  intros Hparse Hread. unfold fetch_resource.
  change (JS.uri_scheme (uri projects_resource)) with (Some "projects").
  change (uri projects_resource) with "projects://all".
  unfold try_catch, bind, emit, modify, lift_outcome. rewrite Hread.
  replace (String.eqb Scenario.projects_payload EmptyString) with false
    by (vm_compute; reflexivity).
  rewrite Hparse.
  change (entities_of "projects" (JS.slice_to 100 [projects_item]))
    with (Some [projects_entity]).
  reflexivity.
Qed.

End EntityFacts.

(** C1 as amended.  Refreshing the catalog from the resource
    [projects://all] whose payload is the array holding the single item
    [{id: p1, projectName: Aspen}] stores for the type [projects] exactly
    one record: [id] is [p1], [projectName] is kept as it was, and [name]
    is the empty string, because the rule looks for [name],
    [projectsName], [fileName] and [title], none of which the item has. *)
Theorem projects_entity_record (E : Env) (st : State) :
  JSON_parse E Scenario.projects_payload = Some (JArr [projects_item]) ->
  mcp_readResource E "projects://all" = Ok (Some Scenario.projects_payload) ->
  ContextProvider.entity_of "projects" projects_item = Some projects_entity
  /\ (exists st',
        ContextProvider.fetch_resource E projects_resource st = (Ok tt, st')
        /\ Obj.get "projects" (entityCache st') = Some [projects_entity])
  /\ (mcp_listResources E = Ok [projects_resource] ->
      exists st',
        ContextProvider.refreshEntityCatalog E st = (Ok tt, st')
        /\ entityCache st' = [("projects", [projects_entity])]).
Proof.
  intros Hparse Hread. split; [reflexivity|]. split.
  - exists (projects_stored st). split; [now apply fetch_projects|].
    apply get_put_same. discriminate.
  - intros Hlist. eexists.
    unfold ContextProvider.refreshEntityCatalog, ContextProvider.discoverResources.
    unfold try_catch at 1, bind at 1, try_catch at 1, bind at 1.
    unfold bind at 1, emit at 1, modify at 1, lift_outcome at 1.
    rewrite Hlist.
    change (List.filter ContextProvider.is_all_resource [projects_resource])
      with [projects_resource].
    unfold set_discoveredResources at 1, modify at 1.
    unfold bind at 1, set_entityCache at 1, modify at 1.
    unfold bind at 1, bind at 1, get_state at 1.
    cbn [discoveredResources for_each]. unfold bind at 1.
    rewrite (fetch_projects E _ Hparse Hread).
    unfold ret at 1, bind at 1, now at 1, set_lastEntityRefresh, modify.
    split; reflexivity.
Qed.

(** The record of C1 on the server of the scenario. *)
Lemma projects_entity_record_witness :
  exists st',
    ContextProvider.refreshEntityCatalog Scenario.projects_server initial_state
    = (Ok tt, st')
    /\ entityCache st' = [("projects", [projects_entity])].
Proof.
  destruct (projects_entity_record Scenario.projects_server initial_state)
    as (_ & _ & H).
  - vm_compute. reflexivity.
  - reflexivity.
  - apply H. reflexivity.
Defined.

(** C1 as stated fails: the record stored for the payload is not the one
    whose [name] is [Aspen]. *)
Lemma projects_name_is_not_derived :
  Obj.get "projects"
    (entityCache
       (snd (ContextProvider.refreshEntityCatalog Scenario.projects_server
               initial_state)))
  <> Some [expected_projects_entity].
Proof.
  vm_compute. discriminate.
Qed.

(* ===================================================================== *)
(** * Properties of the conversation store *)
(* ===================================================================== *)

Section HistoryFacts.

Import ConversationHistory.

Lemma In_skipn {A} (n : nat) (l : list A) (x : A) : In x (skipn n l) -> In x l.
Proof.
  intros H. rewrite <- (firstn_skipn n l). apply in_or_app. now right.
Qed.

Lemma slice_from_incl {A} (start : Z) (l : list A) (x : A) :
  In x (JS.slice_from start l) -> In x l.
Proof. unfold JS.slice_from. apply In_skipn. Qed.

(** [slice(-n)] of a longer array keeps [n] entries when [n] is
    positive. *)
Lemma slice_last_length {A} (n : Z) (l : list A) :
  0 < n -> n < Z.of_nat (List.length l) ->
  Z.of_nat (List.length (JS.slice_from (- n) l)) = n.
Proof.
  intros Hpos Hlt. unfold JS.slice_from.
  replace (- n <? 0) with true by (symmetry; apply Z.ltb_lt; lia).
  rewrite List.length_skipn. lia.
Qed.

(** [getHistory] returns the entries held before its own [cleanup]. *)
Lemma getHistory_returns_stored (u : string) (t : Z) (h : ConversationHistory.t) :
  fst (getHistory u t h) = retained u h
  /\ snd (getHistory u t h) = cleanup u t h.
Proof. split; reflexivity. Qed.

(** What [cleanup] leaves for the user is within both limits. *)
Lemma cleanup_bounds (u : string) (t : Z) (h : ConversationHistory.t) :
  0 < maxMessages h ->
  Z.of_nat (List.length (retained u (cleanup u t h))) <= maxMessages (cleanup u t h)
  /\ (forall msg, In msg (retained u (cleanup u t h)) -> age t msg < maxAge h)
  \/ conversations h !! u = None.
Proof.
  intros Hpos. unfold cleanup, retained.
  destruct (conversations h !! u) as [messages|] eqn:Hm; [left|now right].
  set (filtered := List.filter _ messages).
  assert (Hage : forall msg, In msg filtered -> age t msg < maxAge h).
  { intros msg Hin. apply filter_In in Hin. destruct Hin as [_ Hc].
    apply Z.ltb_lt in Hc. unfold age. lia. }
  destruct (maxMessages h <? Z.of_nat (List.length filtered)) eqn:Hc;
    cbn [conversations with_conversations maxMessages];
    rewrite lookup_insert_eq; cbn [default from_option id].
  - apply Z.ltb_lt in Hc. split.
    + rewrite slice_last_length; lia.
    + intros msg Hin. apply Hage. eapply slice_from_incl; eassumption.
  - apply Z.ltb_ge in Hc. split; [lia|exact Hage].
Qed.

(** X1.  After [addMessage] the entries kept for the user are within
    both limits, provided the limit on their number is positive. *)
Lemma addMessage_bounds (u : string) (r : Role) (text : string) (stamp t : Z)
    (h : ConversationHistory.t) :
  0 < maxMessages h ->
  let h' := addMessage u r text stamp t h in
  Z.of_nat (List.length (retained u h')) <= maxMessages h
  /\ forall msg, In msg (retained u h') -> age t msg <= maxAge h.
Proof.
  intros Hpos h'. subst h'. unfold addMessage.
  set (h1 := match conversations h !! u with Some _ => h | None => _ end).
  set (h2 := with_conversations h1 _).
  assert (Hmax : maxMessages h2 = maxMessages h).
  { unfold h2, h1. destruct (conversations h !! u); reflexivity. }
  assert (Hage : maxAge h2 = maxAge h).
  { unfold h2, h1. destruct (conversations h !! u); reflexivity. }
  assert (Hsome : conversations h2 !! u <> None).
  { unfold h2. cbn [conversations with_conversations].
    rewrite lookup_insert_eq. discriminate. }
  destruct (cleanup_bounds u t h2) as [[Hn Ha]|Hnone]; [lia| |contradiction].
  split.
  - assert (maxMessages (cleanup u t h2) = maxMessages h2) as Hk.
    { unfold cleanup. destruct (conversations h2 !! u); [|reflexivity].
      destruct (_ <? _); reflexivity. }
    lia.
  - intros msg Hin. specialize (Ha msg Hin). lia.
Qed.

End HistoryFacts.

(** C2 at its failing run.  With a limit of one second on the age, a
    message written at time 0 is returned by [getHistory] at time 5000,
    when its age is 5000; the store itself has dropped it by then. *)
Theorem getHistory_returns_expired :
  fst (ConversationHistory.getHistory "u1" 5000 one_message) = [hello]
  /\ ConversationHistory.maxAge one_message < ConversationHistory.age 5000 hello
  /\ ConversationHistory.retained "u1"
       (snd (ConversationHistory.getHistory "u1" 5000 one_message)) = [].
Proof.
  vm_compute. repeat split; reflexivity.
Qed.

(** A limit of zero messages keeps every message: [slice(-0)] is the
    whole array. *)
Lemma zero_limit_keeps_all :
  ConversationHistory.retained "u1"
    (ConversationHistory.addMessage "u1" user "hello" 0 0
       (ConversationHistory.create 0 1000)) = [hello].
Proof. vm_compute. reflexivity. Qed.

(* ===================================================================== *)
(** * Further properties of the conversation store *)
(* ===================================================================== *)

Section HistoryMore.

Import ConversationHistory.

(** The two bounds on the store of one message. *)
Lemma addMessage_bounds_witness :
  Z.of_nat (List.length (retained "u1" (addMessage "u1" assistant "hi" 10 10 one_message)))
    <= maxMessages one_message
  /\ forall msg, In msg (retained "u1" (addMessage "u1" assistant "hi" 10 10 one_message)) ->
                 age 10 msg <= maxAge one_message.
Proof.
  apply (addMessage_bounds "u1" assistant "hi" 10 10 one_message).
  vm_compute. reflexivity.
Defined.

Lemma cleanup_other (u v : string) (t : Z) (h : ConversationHistory.t) :
  v <> u -> conversations (cleanup u t h) !! v = conversations h !! v.
Proof.
  intros Hne. unfold cleanup.
  destruct (conversations h !! u); [|reflexivity].
  destruct (_ <? _); cbn [conversations with_conversations];
    now rewrite lookup_insert_ne.
Qed.

(** X2.  The operations on one user's history leave the entries of every
    other user as they were. *)
Theorem history_isolation (u v : string) (r : Role) (text : string)
    (stamp t : Z) (h : ConversationHistory.t) :
  v <> u ->
  retained v (addMessage u r text stamp t h) = retained v h
  /\ retained v (snd (getHistory u t h)) = retained v h
  /\ retained v (clearHistory u h) = retained v h.
Proof.
  intros Hne. unfold retained. repeat split.
  - unfold addMessage. rewrite cleanup_other by exact Hne.
    cbn [conversations with_conversations]. rewrite lookup_insert_ne by congruence.
    destruct (conversations h !! u); [reflexivity|].
    cbn [conversations with_conversations]. now rewrite lookup_insert_ne.
  - cbn [getHistory snd]. now rewrite cleanup_other.
  - unfold clearHistory. cbn [conversations with_conversations].
    now rewrite lookup_delete_ne.
Qed.

Lemma history_isolation_witness :
  retained "u2" (addMessage "u1" assistant "hi" 10 10 one_message)
    = retained "u2" one_message
  /\ retained "u2" (snd (getHistory "u1" 10 one_message)) = retained "u2" one_message
  /\ retained "u2" (clearHistory "u1" one_message) = retained "u2" one_message.
Proof.
  apply (history_isolation "u1" "u2" assistant "hi" 10 10 one_message).
  discriminate.
Defined.

Lemma skipn_snoc {A} (k : nat) (l : list A) (x : A) :
  (k <= List.length l)%nat -> skipn k (l ++ [x]) = skipn k l ++ [x].
Proof.
  revert k. induction l as [|y r IH]; intros k Hk.
  - destruct k; [reflexivity|cbn in Hk; lia].
  - destruct k; [reflexivity|]. cbn. apply IH. cbn in Hk. lia.
Qed.

(** X3.  A message whose stamp is within the age limit is the last of
    the entries kept after [addMessage], when the limit on their number is
    positive. *)
Theorem newest_message_is_kept (u : string) (r : Role) (text : string)
    (stamp t : Z) (h : ConversationHistory.t) :
  0 < maxMessages h ->
  t - maxAge h < stamp ->
  exists older,
    retained u (addMessage u r text stamp t h)
    = older ++ [{| role := r; content := text; timestamp := stamp |}].
Proof.
  intros Hpos Hfresh. unfold addMessage, retained.
  set (h1 := match conversations h !! u with Some _ => h | None => _ end).
  set (msg := {| role := r; content := text; timestamp := stamp |}).
  assert (Hmax : maxMessages h1 = maxMessages h)
    by (unfold h1; destruct (conversations h !! u); reflexivity).
  assert (Hage : maxAge h1 = maxAge h)
    by (unfold h1; destruct (conversations h !! u); reflexivity).
  unfold cleanup. cbn [conversations with_conversations maxMessages maxAge].
  rewrite lookup_insert_eq, Hmax, Hage.
  rewrite List.filter_app. cbn [List.filter timestamp msg].
  replace (t - maxAge h <? stamp) with true by (symmetry; apply Z.ltb_lt; lia).
  set (kept := List.filter _ (default [] (conversations h1 !! u))).
  destruct (maxMessages h <? Z.of_nat (List.length (kept ++ [msg]))) eqn:Hc;
    cbn [conversations with_conversations];
    rewrite lookup_insert_eq; cbn [default from_option id].
  - apply Z.ltb_lt in Hc. rewrite List.length_app in Hc. cbn in Hc.
    unfold JS.slice_from.
    replace (- maxMessages h <? 0) with true by (symmetry; apply Z.ltb_lt; lia).
    rewrite List.length_app. cbn [List.length].
    rewrite skipn_snoc by lia. eauto.
  - eauto.
Qed.

Lemma newest_message_is_kept_witness :
  exists older,
    retained "u1" (addMessage "u1" assistant "hi" 10 10 one_message)
    = older ++ [{| role := assistant; content := "hi"; timestamp := 10 |}].
Proof.
  apply (newest_message_is_kept "u1" assistant "hi" 10 10 one_message);
    vm_compute; reflexivity.
Defined.

(** X4.  A user without entries reads as empty: [getHistory] returns the
    empty list, [getFormattedHistory] the empty string, neither creates an
    entry, and this is the state [clearHistory] leaves. *)
Theorem absent_user_reads_empty (u : string) (limit t : Z) (h : ConversationHistory.t) :
  conversations (clearHistory u h) !! u = None
  /\ (conversations h !! u = None ->
      getHistory u t h = ([], h)
      /\ getFormattedHistory u limit t h = (EmptyString, h)).
Proof.
  split.
  - unfold clearHistory. cbn [conversations with_conversations].
    apply lookup_delete_eq.
  - intros Hnone.
    assert (Hg : getHistory u t h = ([], h)).
    { unfold getHistory, cleanup. now rewrite Hnone. }
    split; [exact Hg|]. unfold getFormattedHistory. rewrite Hg.
    unfold JS.slice_from. cbn [List.length]. now rewrite skipn_nil.
Qed.

Lemma absent_user_reads_empty_witness :
  getHistory "u1" 10 (clearHistory "u1" one_message) = ([], clearHistory "u1" one_message)
  /\ getFormattedHistory "u1" 10 10 (clearHistory "u1" one_message)
     = (EmptyString, clearHistory "u1" one_message).
Proof.
  destruct (absent_user_reads_empty "u1" 10 10 one_message) as [Hc _].
  destruct (absent_user_reads_empty "u1" 10 10 (clearHistory "u1" one_message))
    as [_ H].
  apply H. exact Hc.
Defined.

Lemma filter_all {A} (f : A -> bool) (l : list A) :
  (forall x, In x l -> f x = true) -> List.filter f l = l.
Proof.
  induction l as [|x r IH]; intros H; [reflexivity|].
  cbn. rewrite (H x) by (now left). f_equal. apply IH. intros y Hy. apply H. now right.
Qed.

Lemma slice_from_zero {A} (l : list A) : JS.slice_from 0 l = l.
Proof.
  unfold JS.slice_from. cbn [Z.ltb Z.compare].
  replace (Z.min 0 (Z.of_nat (List.length l))) with 0 by lia. reflexivity.
Qed.

(** X5.  [cleanup] is idempotent at a given time when the limit on the
    number of messages is not negative: a second pass changes nothing. *)
Theorem cleanup_idempotent (u : string) (t : Z) (h : ConversationHistory.t) :
  0 <= maxMessages h ->
  cleanup u t (cleanup u t h) = cleanup u t h.
Proof.
  intros Hmax. unfold cleanup at 2 3.
  destruct (conversations h !! u) as [messages|] eqn:Hm.
  2:{ unfold cleanup. now rewrite Hm. }
  set (f := fun msg : Message => t - maxAge h <? timestamp msg).
  set (filtered := List.filter f messages).
  assert (Hf : forall x, In x filtered -> f x = true).
  { intros x Hx. apply filter_In in Hx. tauto. }
  assert (Hstep : forall kept,
    (forall x, In x kept -> f x = true) ->
    ((maxMessages h <? Z.of_nat (List.length kept)) = true ->
     JS.slice_from (- maxMessages h) kept = kept) ->
    cleanup u t (with_conversations h (<[u := kept]> (conversations h)))
    = with_conversations h (<[u := kept]> (conversations h))).
  { intros kept Hk Hlong. unfold cleanup.
    cbn [conversations with_conversations maxMessages maxAge].
    rewrite lookup_insert_eq. fold f. rewrite (filter_all f kept Hk).
    destruct (maxMessages h <? Z.of_nat (List.length kept)) eqn:Hc;
      unfold with_conversations; cbn [conversations maxMessages maxAge];
      rewrite ?(Hlong eq_refl), insert_insert_eq; reflexivity. }
  destruct (maxMessages h <? Z.of_nat (List.length filtered)) eqn:Hc.
  - apply Hstep.
    + intros x Hx. apply Hf. eapply slice_from_incl; eassumption.
    + intros Hlong. apply Z.ltb_lt in Hc, Hlong.
      destruct (Z.eq_dec (maxMessages h) 0) as [Hz|Hz].
      * rewrite Hz. change (- 0) with 0. now rewrite !slice_from_zero.
      * rewrite slice_last_length in Hlong; lia.
  - apply Hstep; [exact Hf|]. intros Hlong. congruence.
Qed.

Lemma cleanup_idempotent_witness :
  cleanup "u1" 5000 (cleanup "u1" 5000 one_message) = cleanup "u1" 5000 one_message.
Proof.
  apply (cleanup_idempotent "u1" 5000 one_message). vm_compute. discriminate.
Defined.

End HistoryMore.

Section HistoryReads.

Import ConversationHistory.

(** X6.  A second [getHistory] at the same time returns only entries
    within both limits (the first one returns what was stored before its
    own clean-up). *)
Theorem second_read_is_trimmed (u : string) (t : Z) (h : ConversationHistory.t) :
  0 < maxMessages h ->
  Z.of_nat (List.length (fst (getHistory u t (snd (getHistory u t h))))) <= maxMessages h
  /\ forall msg, In msg (fst (getHistory u t (snd (getHistory u t h)))) ->
                 age t msg < maxAge h.
Proof.
  intros Hpos. cbn [getHistory fst snd]. fold (retained u (cleanup u t h)).
  assert (Hk : maxMessages (cleanup u t h) = maxMessages h).
  { unfold cleanup. destruct (conversations h !! u); [|reflexivity].
    destruct (_ <? _); reflexivity. }
  destruct (cleanup_bounds u t h Hpos) as [[Hn Ha]|Hnone].
  - split; [lia|exact Ha].
  - unfold cleanup, retained. rewrite Hnone, Hnone. cbn. split; [lia|tauto].
Qed.

Lemma second_read_is_trimmed_witness :
  Z.of_nat (List.length
              (fst (getHistory "u1" 5000 (snd (getHistory "u1" 5000 one_message)))))
    <= maxMessages one_message
  /\ forall msg,
       In msg (fst (getHistory "u1" 5000 (snd (getHistory "u1" 5000 one_message)))) ->
       age 5000 msg < maxAge one_message.
Proof.
  apply (second_read_is_trimmed "u1" 5000 one_message). vm_compute. reflexivity.
Defined.

End HistoryReads.

(* ===================================================================== *)
(** * Further properties of the tool cache *)
(* ===================================================================== *)

Section ToolCacheMore.

Import ToolCache.

(** X7.  The safety flags of a tool: [read] is the negation of [write],
    a destructive tool is a write tool, a destructive keyword in the
    lower-cased name or description makes the tool destructive, a write
    keyword makes it a write tool, and a tool with no keyword of either
    list is read-only. *)
Theorem safety_flags (toolName description : string) (schema : Schema) :
  let s := analyzeSafety toolName description schema in
  let hit kw := (JS.includes (JS.toLowerCase toolName) kw
                 || JS.includes (JS.toLowerCase description) kw)%bool in
  read s = negb (write s)
  /\ (destructive s = true -> write s = true)
  /\ (forall kw, In kw destructiveKeywords -> hit kw = true ->
                 destructive s = true /\ write s = true /\ read s = false)
  /\ (forall kw, In kw writeKeywords -> hit kw = true ->
                 write s = true /\ read s = false)
  /\ ((forall kw, In kw (destructiveKeywords ++ writeKeywords) -> hit kw = false) ->
      read s = true /\ write s = false /\ destructive s = false).
Proof.
  intros s hit. unfold s, analyzeSafety. cbn [read write destructive]. fold hit.
  set (d := existsb hit destructiveKeywords).
  set (w := existsb hit writeKeywords).
  assert (Hd : forall kw, In kw destructiveKeywords -> hit kw = true -> d = true).
  { intros kw Hin Hk. apply existsb_exists. eauto. }
  assert (Hw : forall kw, In kw writeKeywords -> hit kw = true -> w = true).
  { intros kw Hin Hk. apply existsb_exists. eauto. }
  split; [destruct w, d; reflexivity|].
  split; [intros ->; apply orb_true_r|].
  split; [intros kw Hin Hk; rewrite (Hd kw Hin Hk); destruct w; auto|].
  split; [intros kw Hin Hk; rewrite (Hw kw Hin Hk); destruct d; auto|].
  intros Hnone.
  assert (d = false).
  { destruct d eqn:E; [|reflexivity]. apply existsb_exists in E.
    destruct E as (kw & Hin & Hk). rewrite Hnone in Hk; [discriminate|].
    apply in_or_app. now left. }
  assert (w = false).
  { destruct w eqn:E; [|reflexivity]. apply existsb_exists in E.
    destruct E as (kw & Hin & Hk). rewrite Hnone in Hk; [discriminate|].
    apply in_or_app. now right. }
  subst. rewrite H, H0. auto.
Qed.

Lemma safety_flags_witness :
  destructive (analyzeSafety "Delete_Project" "Removes a project" empty_schema) = true
  /\ write (analyzeSafety "Delete_Project" "Removes a project" empty_schema) = true
  /\ read (analyzeSafety "Delete_Project" "Removes a project" empty_schema) = false.
Proof.
  destruct (safety_flags "Delete_Project" "Removes a project" empty_schema)
    as (_ & _ & H & _).
  apply (H "delete").
  - now left.
  - vm_compute. reflexivity.
Defined.

Lemma keys_set {V} (k : string) (v : V) (fs : list (string * V)) :
  Obj.keys (Obj.set k v fs)
  = if PlanExecutor.own k fs then Obj.keys fs else Obj.keys fs ++ [k].
Proof.
  unfold PlanExecutor.own, Obj.keys.
  induction fs as [|[k0 v0] r IH]; cbn; [reflexivity|].
  destruct (String.eqb k k0) eqn:Hk; cbn.
  - apply String.eqb_eq in Hk. now subst.
  - rewrite IH. destruct (Obj.get k r); reflexivity.
Qed.

Lemma own_in_keys {V} (k : string) (fs : list (string * V)) :
  PlanExecutor.own k fs = true <-> In k (Obj.keys fs).
Proof.
  unfold PlanExecutor.own, Obj.keys.
  induction fs as [|[k0 v0] r IH]; cbn; [split; [discriminate|tauto]|].
  destruct (String.eqb k k0) eqn:Hk.
  - apply String.eqb_eq in Hk. subst. split; auto.
  - apply String.eqb_neq in Hk. rewrite IH. split; [auto|].
    intros [H|H]; [congruence|exact H].
Qed.

Lemma nodup_snoc {A} (l : list A) (x : A) :
  List.NoDup l -> ~ In x l -> List.NoDup (l ++ [x]).
Proof.
  induction 1 as [|y r Hy Hr IH]; intros Hx; cbn.
  - constructor; [intros []|constructor].
  - constructor.
    + intros Hin. apply in_app_or in Hin. destruct Hin as [Hin|[<-|[]]].
      * now apply Hy.
      * apply Hx. now left.
    + apply IH. intros Hin. apply Hx. now right.
Qed.

Lemma keys_set_nodup {V} (k : string) (v : V) (fs : list (string * V)) :
  List.NoDup (Obj.keys fs) -> List.NoDup (Obj.keys (Obj.set k v fs)).
Proof.
  intros H. rewrite keys_set. destruct (PlanExecutor.own k fs) eqn:Ho; [exact H|].
  apply nodup_snoc; [exact H|].
  intros Hin. apply own_in_keys in Hin. congruence.
Qed.

(** What folding [set] over a listing builds on top of a table. *)
Lemma table_fold (listed : list DiscoveredTool) (acc : list (string * ToolMetadata)) :
  let table := fold_left (fun a t => Obj.set (dt_name t) (metadata_of t) a) listed acc in
  (List.NoDup (Obj.keys acc) -> List.NoDup (Obj.keys table))
  /\ (forall n, In n (Obj.keys table) <-> In n (Obj.keys acc) \/ In n (List.map dt_name listed))
  /\ ((forall n m, Obj.get n acc = Some m -> name m = n) ->
      forall n m, Obj.get n table = Some m -> name m = n)
  /\ forall n m, Obj.get n table = Some m ->
       Obj.get n acc = Some m \/ exists t, In t listed /\ m = metadata_of t.
Proof.
  revert acc. induction listed as [|t r IH]; intros acc; cbn [fold_left List.map].
  - split; [tauto|]. split; [intros n; cbn; tauto|]. split; [tauto|].
    intros n m Hg. now left.
  - destruct (IH (Obj.set (dt_name t) (metadata_of t) acc)) as (I1 & I2 & I3 & I4).
    split; [intros H; apply I1; now apply keys_set_nodup|].
    split; [|split].
    + intros n. rewrite I2, keys_set.
      destruct (PlanExecutor.own (dt_name t) acc) eqn:Ho.
      * apply own_in_keys in Ho. cbn. split; [tauto|].
        intros [H|[<-|H]]; auto.
      * rewrite in_app_iff. cbn. tauto.
    + intros Hacc. apply I3. intros n m.
      destruct (String.eqb_spec n (dt_name t)) as [->|Hne].
      * rewrite get_set_same. intros [= <-]. reflexivity.
      * rewrite get_set_other by exact Hne. apply Hacc.
    + intros n m Hg. destruct (I4 n m Hg) as [H|(t' & Ht' & ->)].
      * destruct (String.eqb_spec n (dt_name t)) as [->|Hne].
        -- rewrite get_set_same in H. injection H as <-.
           right. exists t. split; [now left|reflexivity].
        -- rewrite get_set_other in H by exact Hne. now left.
      * right. exists t'. split; [now right|reflexivity].
Qed.

(** X8.  A [refresh] whose [listTools] answers replaces the table by
    the listing: the names known afterwards are exactly the listed names,
    each once; every stored entry is the metadata of a listed tool filed
    under its own name; nothing of the previous table is left. *)
Theorem refresh_replaces_table (E : Env) (st : State) (listed : list DiscoveredTool) :
  mcp_listTools E = Ok listed ->
  exists st',
    refresh E st = (Ok tt, st')
    /\ tools st' = table_of listed
    /\ List.NoDup (List.map name (getAllTools st'))
    /\ (forall n, getTool st' n <> None <-> In n (List.map dt_name listed))
    /\ (forall n m, getTool st' n = Some m ->
          name m = n /\ exists t, In t listed /\ m = metadata_of t).
Proof.
  intros H. eexists. split.
  { unfold refresh, try_catch, bind, emit, modify, lift_outcome, set_tools.
    cbn. rewrite H. reflexivity. }
  cbn [tools]. unfold getTool, getAllTools. cbn [tools].
  destruct (table_fold listed []) as (I1 & I2 & I3 & I4). fold (table_of listed) in *.
  assert (Hkeys : forall n, Obj.get n (table_of listed) <> None
                            <-> In n (Obj.keys (table_of listed))).
  { intros n. rewrite <- own_in_keys. unfold PlanExecutor.own.
    destruct (Obj.get n (table_of listed)); split; congruence. }
  assert (Hnames : List.map name (Obj.values (table_of listed)) = Obj.keys (table_of listed)).
  { assert (Hall : forall n m, Obj.get n (table_of listed) = Some m -> name m = n)
      by (apply I3; discriminate).
    assert (Hnd : List.NoDup (Obj.keys (table_of listed))) by (apply I1; constructor).
    revert Hall Hnd. generalize (table_of listed) as tb.
    induction tb as [|[k m] r IHr]; intros Hall Hnd; [reflexivity|].
    cbn in *. inversion Hnd as [|? ? Hnotin Hnd']; subst.
    f_equal.
    - apply (Hall k m). now rewrite String.eqb_refl.
    - apply IHr; [|exact Hnd']. intros n m' Hg. apply Hall.
      destruct (String.eqb_spec n k) as [->|Hne]; [|exact Hg].
      exfalso. apply Hnotin. apply (own_in_keys k r). unfold PlanExecutor.own.
      now rewrite Hg. }
  split; [reflexivity|]. split; [rewrite Hnames; apply I1; constructor|].
  split.
  - intros n. rewrite Hkeys, I2. cbn. tauto.
  - intros n m Hg. split; [apply (I3 ltac:(discriminate) n m Hg)|].
    destruct (I4 n m Hg) as [Hacc|Ht]; [discriminate|exact Ht].
Qed.

Lemma refresh_replaces_table_witness :
  exists st',
    refresh (Scenario.make 0 None (Ok [Scenario.send_document_listing]) (Ok [])
               (fun _ => Ok None) (FetchContent None)) initial_state
    = (Ok tt, st')
    /\ tools st' = table_of [Scenario.send_document_listing]
    /\ List.NoDup (List.map name (getAllTools st'))
    /\ (forall n, getTool st' n <> None
                  <-> In n (List.map dt_name [Scenario.send_document_listing]))
    /\ (forall n m, getTool st' n = Some m ->
          name m = n
          /\ exists t, In t [Scenario.send_document_listing] /\ m = metadata_of t).
Proof.
  apply (refresh_replaces_table
           (Scenario.make 0 None (Ok [Scenario.send_document_listing]) (Ok [])
              (fun _ => Ok None) (FetchContent None))).
  reflexivity.
Defined.

End ToolCacheMore.

(* ===================================================================== *)
(** * Further properties of the router *)
(* ===================================================================== *)

Section RouterOrder.

Import Router.

Lemma Qle_bool_false (a b : Q) : Qle_bool a b = false -> (b <= a)%Q.
Proof.
  intros H. destruct (Qlt_le_dec b a) as [Hlt|Hle].
  - now apply Qlt_le_weak.
  - apply Qle_bool_iff in Hle. congruence.
Qed.

Lemma insert_desc_in (x y : FastPathMatch) (l : list FastPathMatch) :
  In y (insert_desc x l) <-> y = x \/ In y l.
Proof.
  split.
  - intros H. apply (Permutation_in _ (insert_desc_perm x l)) in H.
    destruct H as [<-|H]; auto.
  - intros H. apply (Permutation_in _ (Permutation_sym (insert_desc_perm x l))).
    destruct H as [->|H]; [now left|now right].
Qed.

Lemma insert_desc_sorted (x : FastPathMatch) (l : list FastPathMatch) :
  sorted_desc l -> sorted_desc (insert_desc x l).
Proof.
  induction l as [|y r IH]; intros Hs; cbn.
  - split; [intros ? []|exact I].
  - destruct Hs as [Hy Hr].
    destruct (Qle_bool (confidence y) (confidence x)) eqn:Hc.
    + apply Qle_bool_iff in Hc. split; [|split; assumption].
      intros z [<-|Hz]; [exact Hc|].
      eapply Qle_trans; [apply Hy; exact Hz|exact Hc].
    + apply Qle_bool_false in Hc. split; [|now apply IH].
      intros z Hz. apply insert_desc_in in Hz.
      destruct Hz as [->|Hz]; [exact Hc|now apply Hy].
Qed.

Lemma sort_desc_sorted (l : list FastPathMatch) : sorted_desc (sort_desc l).
Proof.
  induction l as [|x r IH]; cbn; [exact I|]. now apply insert_desc_sorted.
Qed.

Lemma filter_sorted (f : FastPathMatch -> bool) (l : list FastPathMatch) :
  sorted_desc l -> sorted_desc (List.filter f l).
Proof.
  induction l as [|x r IH]; intros Hs; cbn; [exact I|].
  destruct Hs as [Hx Hr]. destruct (f x); [|now apply IH].
  split; [|now apply IH]. intros y Hy. apply filter_In in Hy. apply Hx. tauto.
Qed.

Lemma select_sorted (l : list FastPathMatch) : sorted_desc (select l).
Proof.
  unfold select. destruct (Nat.eqb _ 0); [exact I|].
  pose proof (sort_desc_sorted l) as Hs.
  destruct (Nat.ltb 0 _); [destruct (existsb _ _)|]; now apply filter_sorted.
Qed.

(** X9.  The fast path and the deduplication both return their matches
    in order of non-increasing confidence: the selection is ordered
    whatever was pooled, so the result of [tryFastPath] is whenever there
    is one. *)
Theorem matches_are_ranked (E : Env) (st : State) (message : string)
    (l : list FastPathMatch) :
  sorted_desc (select l)
  /\ (forall sel, tryFastPath E st message = Ok sel -> sorted_desc sel)
  /\ sorted_desc (deduplicateMatches l).
Proof.
  split; [apply select_sorted|]. split.
  - intros sel Hs. apply tryFastPath_ok in Hs. destruct Hs as (pool & _ & ->).
    apply select_sorted.
  - apply sort_desc_sorted.
Qed.

End RouterOrder.

Section DeduplicationMore.

Import Router.

Lemma same_key_match_key (a b : FastPathMatch) :
  same_key a b = true <-> match_key a = match_key b.
Proof.
  rewrite same_key_spec. unfold match_key. split.
  - intros [-> ->]. reflexivity.
  - intros [= -> ->]. tauto.
Qed.

Lemma same_key_false (a b : FastPathMatch) :
  same_key a b = false <-> match_key a <> match_key b.
Proof.
  rewrite <- same_key_match_key. destruct (same_key a b); split; congruence.
Qed.

Lemma replace_key_keys (m : FastPathMatch) (seen : list FastPathMatch) :
  List.map match_key (replace_key m seen) = List.map match_key seen.
Proof.
  induction seen as [|x r IH]; [reflexivity|]. cbn.
  destruct (same_key m x) eqn:Hk; cbn.
  - apply same_key_match_key in Hk. now rewrite Hk.
  - now rewrite IH.
Qed.

Lemma replace_key_in (m y : FastPathMatch) (seen : list FastPathMatch) :
  In y (replace_key m seen) -> y = m \/ In y seen.
Proof.
  induction seen as [|x r IH]; [intros []|]. cbn.
  destruct (same_key m x); cbn; intros [<-|H]; auto.
  destruct (IH H); auto.
Qed.

Lemma replace_key_other (m y : FastPathMatch) (seen : list FastPathMatch) :
  In y seen -> match_key y <> match_key m -> In y (replace_key m seen).
Proof.
  induction seen as [|x r IH]; [intros []|]. cbn. intros [<-|H] Hne.
  - destruct (same_key m x) eqn:Hk; [|now left].
    apply same_key_match_key in Hk. congruence.
  - destruct (same_key m x); right; [exact H|now apply IH].
Qed.

Lemma unique_key_element (l : list FastPathMatch) (a b : FastPathMatch) :
  unique_keys l -> In a l -> In b l -> match_key a = match_key b -> a = b.
Proof.
  unfold unique_keys. induction l as [|x r IH]; [intros _ []|].
  cbn. intros Hnd Ha Hb Hk. inversion Hnd as [|? ? Hnotin Hnd']; subst.
  destruct Ha as [<-|Ha], Hb as [<-|Hb]; auto.
  - exfalso. apply Hnotin. rewrite Hk. now apply in_map.
  - exfalso. apply Hnotin. rewrite <- Hk. now apply in_map.
Qed.

Lemma remember_match_deduplicated (done seen : list FastPathMatch) (m : FastPathMatch) :
  deduplicated done seen -> deduplicated (done ++ [m]) (remember_match seen m).
Proof.
  intros (Hu & Hsub & Hcov). unfold remember_match.
  destruct (List.find (same_key m) seen) as [existing|] eqn:Hf.
  - apply find_some in Hf. destruct Hf as [Hin Hk].
    apply same_key_match_key in Hk.
    destruct (gt (confidence m) (confidence existing)) eqn:Hg.
    + assert (Hlt : (confidence existing <= confidence m)%Q).
      { unfold gt in Hg. apply negb_true_iff in Hg. now apply Qle_bool_false. }
      split; [|split].
      * unfold unique_keys. now rewrite replace_key_keys.
      * intros y Hy. apply in_or_app. apply replace_key_in in Hy.
        destruct Hy as [->|Hy]; [right; now left|left; now apply Hsub].
      * intros m0 Hm0. apply in_app_or in Hm0.
        assert (Hm : In m (replace_key m seen)).
        { apply replace_key_puts. exists existing. split; [exact Hin|].
          now apply same_key_match_key. }
        destruct Hm0 as [Hm0|[<-|[]]].
        -- destruct (Hcov m0 Hm0) as (y & Hy & Hky & Hc).
           destruct (same_key y m) eqn:Hym.
           ++ apply same_key_match_key in Hym.
              assert (y = existing)
                by (apply (unique_key_element seen); auto; congruence).
              subst y. exists m. split; [exact Hm|]. split; [congruence|].
              eapply Qle_trans; eassumption.
           ++ apply same_key_false in Hym. exists y.
              split; [now apply replace_key_other|]. split; assumption.
        -- exists m. split; [exact Hm|]. split; [reflexivity|apply Qle_refl].
    + assert (Hle : (confidence m <= confidence existing)%Q).
      { unfold gt in Hg. apply negb_false_iff in Hg. now apply Qle_bool_iff. }
      split; [exact Hu|]. split.
      * intros y Hy. apply in_or_app. left. now apply Hsub.
      * intros m0 Hm0. apply in_app_or in Hm0. destruct Hm0 as [Hm0|[<-|[]]].
        -- now apply Hcov.
        -- exists existing. split; [exact Hin|]. split; [congruence|exact Hle].
  - assert (Hnew : ~ In (match_key m) (List.map match_key seen)).
    { intros Hin. apply in_map_iff in Hin. destruct Hin as (y & Hky & Hy).
      pose proof (find_none _ _ Hf y Hy) as Hno. apply same_key_false in Hno.
      congruence. }
    split; [|split].
    + unfold unique_keys. rewrite List.map_app. cbn. now apply nodup_snoc.
    + intros y Hy. apply in_app_or in Hy. apply in_or_app.
      destruct Hy as [Hy|Hy]; [left; now apply Hsub|now right].
    + intros m0 Hm0. apply in_app_or in Hm0. destruct Hm0 as [Hm0|[<-|[]]].
      * destruct (Hcov m0 Hm0) as (y & Hy & Hky & Hc).
        exists y. split; [apply in_or_app; now left|]. split; assumption.
      * exists m. split; [apply in_or_app; right; now left|].
        split; [reflexivity|apply Qle_refl].
Qed.

Lemma fold_remember_deduplicated (l done seen : list FastPathMatch) :
  deduplicated done seen ->
  deduplicated (done ++ l) (fold_left remember_match l seen).
Proof.
  revert done seen. induction l as [|m r IH]; intros done seen H; cbn.
  - now rewrite app_nil_r.
  - replace (done ++ m :: r) with ((done ++ [m]) ++ r)
      by (now rewrite <- app_assoc).
    apply IH. now apply remember_match_deduplicated.
Qed.

(** What [deduplicateMatches] keeps. *)
Lemma deduplicateMatches_best (l : list FastPathMatch) :
  unique_keys (deduplicateMatches l)
  /\ (forall y, In y (deduplicateMatches l) -> In y l)
  /\ forall m, In m l ->
       exists y, In y (deduplicateMatches l)
                 /\ m_tool y = m_tool m /\ m_args y = m_args m
                 /\ (confidence m <= confidence y)%Q.
Proof.
  destruct (fold_remember_deduplicated l [] []) as (Hu & Hsub & Hcov).
  { split; [constructor|]. split; [intros ? []|intros ? []]. }
  cbn [app] in *. unfold deduplicateMatches.
  pose proof (sort_desc_perm (fold_left remember_match l [])) as Hp.
  split; [|split].
  - unfold unique_keys in *.
    eapply Permutation_NoDup; [|exact Hu].
    apply Permutation_map. now apply Permutation_sym.
  - intros y Hy. apply Hsub. eapply Permutation_in; eassumption.
  - intros m Hm. destruct (Hcov m Hm) as (y & Hy & Hk & Hc).
    exists y. split; [eapply Permutation_in; [apply Permutation_sym|]; eassumption|].
    unfold match_key in Hk. injection Hk as -> ->. tauto.
Qed.

(** X10.  [deduplicateMatches] returns matches of its input, no two of
    them with the same tool and arguments, and for every match of the
    input it returns one with that tool and those arguments whose
    confidence is at least as high. *)
Theorem deduplication_keeps_best (l : list FastPathMatch) :
  unique_keys (deduplicateMatches l)
  /\ (forall y, In y (deduplicateMatches l) -> In y l)
  /\ forall m, In m l ->
       exists y, In y (deduplicateMatches l)
                 /\ m_tool y = m_tool m /\ m_args y = m_args m
                 /\ (confidence m <= confidence y)%Q.
Proof. apply deduplicateMatches_best. Qed.

End DeduplicationMore.

Section RouterConfidence.

Import Router.

Lemma ratio_bounds (m n : nat) :
  (m <= n)%nat -> (0 <= ratio m n)%Q /\ (ratio m n <= 1)%Q.
Proof.
  intros Hmn. unfold ratio. rewrite Qred_correct.
  destruct n as [|n].
  - assert (m = 0%nat) by lia. subst m. split; discriminate.
  - unfold Qdiv, Qinv, Qmult, Qle, inject_Z. cbn [Qnum Qden].
    rewrite Nat2Z.inj_succ, <- Z.add_1_r.
    destruct (Z.of_nat n + 1) as [|p|p] eqn:Hp; try lia.
    cbn [Qnum Qden]. split; lia.
Qed.

Lemma qmin_le_r (a b : Q) : (qmin a b <= b)%Q.
Proof.
  unfold qmin. destruct (Qle_bool a b) eqn:H.
  - now apply Qle_bool_iff.
  - apply Qle_refl.
Qed.

Lemma qmin_ge (a b c : Q) : (c <= a)%Q -> (c <= b)%Q -> (c <= qmin a b)%Q.
Proof. intros Ha Hb. unfold qmin. now destruct (Qle_bool a b). Qed.

Lemma filter_length_le {A} (f : A -> bool) (l : list A) :
  (List.length (List.filter f l) <= List.length l)%nat.
Proof.
  induction l as [|x r IH]; cbn; [lia|]. destruct (f x); cbn; lia.
Qed.

Lemma description_confidence (E : Env) (message : string) (t : ToolMetadata)
    (l : list FastPathMatch) (m : FastPathMatch) :
  description_matches E message t = Ok l ->
  In m l ->
  (1 # 2 <= confidence m)%Q /\ (confidence m <= 7 # 10)%Q.
Proof.
  unfold description_matches, and_then.
  destruct (Nat.ltb 0 _); [|intros [= <-] []].
  destruct (guarded message t); [intros [= <-] []|].
  destruct (extractArgsFromMessage E message t []) as [[a|]|e];
    [|intros [= <-] []|discriminate].
  intros [= <-] [<-|[]]. cbn [confidence]. rewrite Qred_correct.
  destruct (ratio_bounds (List.length (occurring message (descWords_of t)))
              (List.length (descWords_of t))) as [H0 H1].
  { apply filter_length_le. }
  split; [|apply qmin_le_r].
  apply qmin_ge; [|discriminate].
  rewrite <- (Qplus_0_r (1 # 2)) at 1. apply Qplus_le_r.
  apply Qmult_le_0_compat; [exact H0|discriminate].
Qed.

Lemma tool_confidence (E : Env) (message : string) (t : ToolMetadata)
    (l : list FastPathMatch) (m : FastPathMatch) :
  tool_matches E message t = Ok l ->
  In m l ->
  (1 # 2 <= confidence m)%Q /\ (confidence m <= 1)%Q.
Proof.
  unfold tool_matches. destruct (guarded message t) eqn:G; [intros [= <-] []|].
  unfold and_then at 1.
  destruct (collect (example_matches E message t) (examples t)) as [byExample|e] eqn:Hc;
    [|discriminate].
  unfold and_then.
  destruct (name_and_description_matches E message t) as [byWords|e] eqn:Hw;
    [|discriminate].
  intros [= <-] H. apply in_app_or in H. destruct H as [H|H].
  - apply (collect_in _ _ _ Hc) in H. destruct H as (e & ys & _ & He & H).
    unfold example_matches, and_then in He.
    destruct (_ && _)%bool eqn:Hb; [|injection He as <-; destruct H].
    destruct (extractArgsFromMessage E message t (args e)) as [[a|]|err];
      [|injection He as <-; destruct H|discriminate].
    injection He as <-. destruct H as [<-|[]]. cbn [confidence].
    apply andb_true_iff in Hb. destruct Hb as [_ Hgt].
    unfold gt in Hgt. apply negb_true_iff in Hgt. apply Qle_bool_false in Hgt.
    split; [exact Hgt|]. unfold example_confidence.
    destruct (Nat.ltb 0 _); [|discriminate].
    apply ratio_bounds. apply filter_length_le.
  - assert (D : forall l' m', description_matches E message t = Ok l' -> In m' l' ->
                              (1 # 2 <= confidence m')%Q /\ (confidence m' <= 1)%Q).
    { intros l' m' Hl' Hm'.
      destruct (description_confidence E message t l' m' Hl' Hm') as [H1 H2].
      split; [exact H1|]. eapply Qle_trans; [exact H2|discriminate]. }
    unfold name_and_description_matches in Hw.
    destruct (Nat.ltb 0 _); [|now apply (D byWords)].
    rewrite G in Hw. unfold and_then in Hw.
    destruct (extractArgsFromMessage E message t []) as [found|err]; [|discriminate].
    destruct (description_matches E message t) as [byDescription|err] eqn:Hd;
      [|discriminate].
    injection Hw as <-. apply in_app_or in H.
    destruct H as [H|H]; [|now apply (D byDescription)].
    destruct found as [a|]; [|destruct H].
    destruct H as [<-|[]]. cbn [confidence]. rewrite Qred_correct.
    destruct (ratio_bounds (List.length (occurring message (toolNameWords_of t)))
                (List.length (toolNameWords_of t))) as [H0 H1].
    { apply filter_length_le. }
    split.
    + apply qmin_ge; [|discriminate].
      apply Qle_trans with (3 # 5); [discriminate|].
      rewrite <- (Qplus_0_r (3 # 5)) at 1. apply Qplus_le_r.
      apply Qmult_le_0_compat; [exact H0|discriminate].
    + eapply Qle_trans; [apply qmin_le_r|discriminate].
Qed.

(** The bounds of the three confidence formulas. *)
Lemma pooled_confidence_bounds (E : Env) (st : State) (message : string)
    (pool : list FastPathMatch) (m : FastPathMatch) :
  pooled E st message = Ok pool ->
  In m pool ->
  (1 # 2 <= confidence m)%Q /\ (confidence m <= 1)%Q.
Proof.
  unfold pooled. intros Hp H. apply (collect_in _ _ _ Hp) in H.
  destruct H as (t & ys & _ & Hys & H).
  exact (tool_confidence E message t ys m Hys H).
Qed.

(** X11.  The confidence of every pooled candidate lies between 0.5 and
    1: a candidate of an example is above 0.5, one of the tool name lies
    between 0.6 and 0.9, one of the description between 0.5 and 0.7. *)
Theorem pooled_confidence_range (E : Env) (st : State) (message : string)
    (pool : list FastPathMatch) (m : FastPathMatch) :
  Router.pooled E st message = Ok pool ->
  In m pool ->
  (1 # 2 <= confidence m)%Q /\ (confidence m <= 1)%Q.
Proof. apply pooled_confidence_bounds. Qed.

Lemma pooled_confidence_range_witness :
  exists pool,
    Router.pooled (Scenario.quiet 0) Scenario.with_send_document ecp_message = Ok pool
    /\ In ecp_candidate pool
    /\ (1 # 2 <= confidence ecp_candidate)%Q /\ (confidence ecp_candidate <= 1)%Q.
Proof.
  destruct (Router.pooled (Scenario.quiet 0) Scenario.with_send_document ecp_message)
    as [pool|e] eqn:Hp; [|vm_compute in Hp; discriminate].
  assert (H : In ecp_candidate pool).
  { vm_compute in Hp. injection Hp as <-. left. reflexivity. }
  exists pool. split; [reflexivity|]. split; [exact H|].
  exact (pooled_confidence_range (Scenario.quiet 0) Scenario.with_send_document
           ecp_message pool ecp_candidate Hp H).
Defined.

(** A pool whose candidates all reach 0.5 is selected whole. *)
Lemma select_all (pool : list FastPathMatch) :
  (forall m, In m pool -> (1 # 2 <= confidence m)%Q) ->
  select pool = sort_desc pool.
Proof.
  intros Hb. unfold select.
  assert (Hall : forall thr, (thr <= 1 # 2)%Q ->
                   List.filter (fun m => geq (confidence m) thr) (sort_desc pool)
                   = sort_desc pool).
  { intros thr Hthr. apply filter_all. intros m Hm.
    apply (Permutation_in _ (sort_desc_perm pool)) in Hm.
    unfold geq. apply Qle_bool_iff. eapply Qle_trans; [exact Hthr|now apply Hb]. }
  destruct pool as [|m0 r] eqn:Hp; [reflexivity|]. cbn [List.length Nat.eqb].
  rewrite (Hall (1 # 2)) by apply Qle_refl.
  destruct (Nat.ltb 0 _); [|reflexivity].
  destruct (existsb _ _); [|reflexivity].
  apply Hall. discriminate.
Qed.

(** The final selection is the sorted pool. *)
Lemma tryFastPath_sorted_pool (E : Env) (st : State) (message : string) :
  (forall pool,
     pooled E st message = Ok pool ->
     tryFastPath E st message = Ok (sort_desc pool)
     /\ Permutation (sort_desc pool) pool
     /\ (sort_desc pool = [] <-> pool = []))
  /\ (forall e, pooled E st message = Throw e -> tryFastPath E st message = Throw e).
Proof.
  split.
  - intros pool Hp. split; [|split].
    + unfold tryFastPath. rewrite Hp. cbn [and_then]. f_equal.
      apply select_all. intros m Hm.
      now destruct (pooled_confidence_bounds E st message pool m Hp Hm).
    + apply sort_desc_perm.
    + split; intros H.
      * pose proof (sort_desc_perm pool) as Hperm. rewrite H in Hperm.
        now apply Permutation.Permutation_nil in Hperm.
      * now rewrite H.
  - intros e He. unfold tryFastPath. now rewrite He.
Qed.

(** X12.  The thresholds of the final selection never drop a candidate:
    when the loop over the tools has pooled its candidates, the fast path
    returns them, all of them, sorted by descending confidence; the
    result is empty, and the planner consulted, exactly when no candidate
    was pooled.  An error raised while pooling is the error of the fast
    path. *)
Theorem selection_drops_nothing (E : Env) (st : State) (message : string) :
  (forall pool,
     pooled E st message = Ok pool ->
     tryFastPath E st message = Ok (sort_desc pool)
     /\ Permutation (sort_desc pool) pool
     /\ (sort_desc pool = [] <-> pool = []))
  /\ (forall e, pooled E st message = Throw e -> tryFastPath E st message = Throw e).
Proof. apply tryFastPath_sorted_pool. Qed.

End RouterConfidence.

Section ExtractionFacts.

Import Router.

Lemma own_put {V} (k k' : string) (v : V) (fs : list (string * V)) :
  PlanExecutor.own k fs = true -> PlanExecutor.own k (Obj.put k' v fs) = true.
Proof.
  unfold PlanExecutor.own. intros H.
  pose proof (get_put_defined k k' v fs) as Hd.
  destruct (Obj.get k fs); [|discriminate].
  destruct (Obj.get k (Obj.put k' v fs)); [reflexivity|].
  exfalso. now apply Hd.
Qed.

Lemma defined_put (k k' : string) (v : JValue) (fs : list (string * JValue)) :
  defined k fs = true -> defined k (Obj.put k' v fs) = true.
Proof.
  unfold defined, PlanExecutor.has_in. intros H.
  apply orb_true_iff in H. apply orb_true_iff.
  destruct H as [H|H]; [left; now apply own_put|now right].
Qed.

Lemma defined_own (k : string) (v : JValue) (fs : list (string * JValue)) :
  Obj.get k fs = Some v -> defined k fs = true.
Proof.
  intros H. unfold defined, PlanExecutor.has_in, PlanExecutor.own. now rewrite H.
Qed.

Lemma defined_proto (fs : list (string * JValue)) : defined "__proto__" fs = true.
Proof.
  unfold defined, PlanExecutor.has_in. apply orb_true_iff. right.
  vm_compute. reflexivity.
Qed.

(** [Object.assign]: a key that the source does not hold is left as it
    was, and a key that it holds takes the value of the source. *)
Lemma assign_other {V} (source target : list (string * V)) (k : string) :
  ~ In k (Obj.keys source) ->
  Obj.get k (Obj.assign target source) = Obj.get k target.
Proof.
  unfold Obj.assign. revert target.
  induction source as [|[k0 v0] r IH]; intros target Hno; [reflexivity|].
  cbn [fold_left fst snd]. rewrite IH.
  - apply get_put_other. intros ->. apply Hno. now left.
  - intros H. apply Hno. now right.
Qed.

Lemma assign_source {V} (source target : list (string * V)) (k : string) (v : V) :
  List.NoDup (Obj.keys source) ->
  k <> "__proto__" ->
  Obj.get k source = Some v ->
  Obj.get k (Obj.assign target source) = Some v.
Proof.
  unfold Obj.assign. revert target.
  induction source as [|[k0 v0] r IH]; intros target Hnd Hk Hg; [discriminate|].
  cbn in Hnd. inversion Hnd as [|? ? Hk0 Hr]; subst.
  cbn [fold_left fst snd]. cbn [Obj.get] in Hg.
  destruct (String.eqb_spec k k0) as [<-|Hne].
  - injection Hg as <-.
    change (fold_left (fun acc kv => Obj.put (fst kv) (snd kv) acc) r (Obj.put k v0 target))
      with (Obj.assign (Obj.put k v0 target) r).
    rewrite assign_other by exact Hk0. now apply get_put_same.
  - now apply IH.
Qed.

(** The loop over the declared properties only adds keys, and never
    touches a key that is already present. *)
Lemma fill_keeps (E : Env) (message : string) (props : list (string * PropSchema))
    (acc filled : list (string * JValue)) (k : string) (v : JValue) :
  fill E message props acc = Ok filled ->
  Obj.get k acc = Some v ->
  Obj.get k filled = Some v.
Proof.
  revert acc. induction props as [|[p ps] r IH]; intros acc Hf Hg; cbn [fill] in Hf.
  - injection Hf as <-. exact Hg.
  - destruct (defined p acc) eqn:D; [now apply (IH acc)|].
    unfold and_then in Hf.
    destruct (extractProp E message p ps) as [[found|]|e]; [| |discriminate].
    + apply (IH _ Hf). rewrite get_put_other; [exact Hg|].
      intros ->. rewrite (defined_own _ _ _ Hg) in D. discriminate.
    + now apply (IH acc).
Qed.

(** An error of the loop is the error of the search of a declared
    property that had no value when the loop began; [__proto__], which
    every object inherits, is never searched. *)
Lemma fill_raises (E : Env) (message : string) (props : list (string * PropSchema))
    (acc : list (string * JValue)) (e : string) :
  fill E message props acc = Throw e ->
  exists p ps, In (p, ps) props /\ p <> "__proto__" /\ Obj.get p acc = None
               /\ extractProp E message p ps = Throw e.
Proof.
  revert acc. induction props as [|[p ps] r IH]; intros acc Hf; cbn [fill] in Hf;
    [discriminate|].
  destruct (defined p acc) eqn:D.
  - destruct (IH acc Hf) as (q & qs & Hin & Hne & Hg & Hq).
    exists q, qs. auto with datatypes.
  - assert (Hp : Obj.get p acc = None).
    { destruct (Obj.get p acc) eqn:Hg; [|reflexivity].
      rewrite (defined_own _ _ _ Hg) in D. discriminate. }
    assert (Hproto : p <> "__proto__").
    { intros ->. rewrite defined_proto in D. discriminate. }
    unfold and_then in Hf.
    destruct (extractProp E message p ps) as [[found|]|e'] eqn:Hx.
    + destruct (IH _ Hf) as (q & qs & Hin & Hne & Hg & Hq).
      exists q, qs. split; [now right|]. split; [exact Hne|]. split; [|exact Hq].
      destruct (Obj.get q acc) eqn:Hqa; [|reflexivity].
      exfalso. apply (get_put_defined q p found acc); [congruence|exact Hg].
    + destruct (IH acc Hf) as (q & qs & Hin & Hne & Hg & Hq).
      exists q, qs. auto with datatypes.
    + injection Hf as <-. exists p, ps. auto with datatypes.
Qed.

(** The loop returns when the search raises for no declared property
    that is without a value. *)
Lemma fill_returns (E : Env) (message : string) (props : list (string * PropSchema))
    (acc : list (string * JValue)) :
  (forall p ps, In (p, ps) props ->
                defined p acc = true \/ exists r, extractProp E message p ps = Ok r) ->
  exists filled, fill E message props acc = Ok filled.
Proof.
  revert acc. induction props as [|[p ps] r IH]; intros acc H; cbn [fill]; [eauto|].
  destruct (defined p acc) eqn:D.
  - apply IH. intros q qs Hq. apply H. now right.
  - destruct (H p ps (or_introl eq_refl)) as [Hd|[found Hx]]; [congruence|].
    rewrite Hx. cbn [and_then]. destruct found as [v|].
    + apply IH. intros q qs Hq. destruct (H q qs (or_intror Hq)) as [Hd|Hr].
      * left. now apply defined_put.
      * now right.
    + apply IH. intros q qs Hq. apply H. now right.
Qed.

(** Extraction from a template with distinct keys: what a result holds,
    when the answer is [null], where an error comes from, and when there
    is none. *)
Lemma extraction_from_template (E : Env) (message : string) (t : ToolMetadata)
    (template : list (string * JValue)) :
  List.NoDup (Obj.keys template) ->
  (forall a,
     extractArgsFromMessage E message t template = Ok (Some a) ->
     (forall k v, k <> "__proto__" -> Obj.get k template = Some v ->
                  Obj.get k a = Some v)
     /\ (default [] (required (inputSchema t)) <> [] -> a <> []))
  /\ (extractArgsFromMessage E message t template = Ok None ->
      (forall k v, Obj.get k template = Some v -> k = "__proto__")
      /\ default [] (required (inputSchema t)) <> [])
  /\ (forall e,
        extractArgsFromMessage E message t template = Throw e ->
        exists p ps,
          In (p, ps) (default [] (properties (inputSchema t)))
          /\ Obj.get p template = None
          /\ extractProp E message p ps = Throw e)
  /\ ((forall p ps,
         In (p, ps) (default [] (properties (inputSchema t))) ->
         (Obj.get p template <> None /\ p <> "__proto__")
         \/ exists r, extractProp E message p ps = Ok r) ->
      exists r, extractArgsFromMessage E message t template = Ok r).
Proof.
  intros Hnd. unfold extractArgsFromMessage.
  set (seeded := if Nat.ltb 0 (List.length (Obj.keys template))
                 then Obj.assign [] template else []).
  set (props := default [] (properties (inputSchema t))).
  set (req := default [] (required (inputSchema t))).
  assert (Hseed : forall k v, k <> "__proto__" -> Obj.get k template = Some v ->
                              Obj.get k seeded = Some v).
  { intros k v Hk Hg. unfold seeded.
    destruct template as [|kv r]; [discriminate|].
    cbn [Obj.keys List.map List.length Nat.ltb Nat.leb].
    now apply assign_source. }
  assert (Hempty : forall filled,
             fill E message props seeded = Ok filled -> filled = [] ->
             forall k v, Obj.get k template = Some v -> k = "__proto__").
  { intros filled Hf -> k v Hg.
    destruct (String.eqb_spec k "__proto__") as [Hk|Hk]; [exact Hk|].
    pose proof (fill_keeps E message props seeded [] k v Hf (Hseed k v Hk Hg)) as H.
    discriminate. }
  assert (Hlen : forall l : list (string * JValue),
             (Nat.eqb (List.length (Obj.keys l)) 0 = true <-> l = [])
             /\ (Nat.ltb 0 (List.length (Obj.keys l)) = false <-> l = [])).
  { intros [|x l]; split; split; intros H; try reflexivity; discriminate. }
  split; [|split; [|split]].
  - intros a Ha.
    destruct (fill E message props seeded) as [filled|e] eqn:Hf; [|discriminate].
    cbn [and_then] in Ha.
    assert (Hcase : a = filled
                    /\ (Nat.ltb 0 (List.length req) = true -> filled <> [])).
    { destruct (Nat.eqb (List.length req) 0
                || forallb (fun prop => defined prop filled) req)%bool eqn:Hc.
      - destruct (Nat.eqb (List.length (Obj.keys filled)) 0
                  && Nat.ltb 0 (List.length req))%bool eqn:Hb; [discriminate|].
        injection Ha as <-. split; [reflexivity|]. intros Hr Hnil.
        rewrite Hr, andb_true_r in Hb. apply (proj1 (Hlen filled)) in Hnil. congruence.
      - destruct (Nat.ltb 0 (List.length (Obj.keys filled))) eqn:Hb; [|discriminate].
        injection Ha as <-. split; [reflexivity|]. intros _ Hnil.
        apply (proj2 (Hlen filled)) in Hnil. congruence. }
    destruct Hcase as [-> Hne]. split.
    + intros k v Hk Hg.
      exact (fill_keeps E message props seeded filled k v Hf (Hseed k v Hk Hg)).
    + intros Hreq. apply Hne. destruct req; [now destruct Hreq|reflexivity].
  - intros Ha.
    destruct (fill E message props seeded) as [filled|e] eqn:Hf; [|discriminate].
    cbn [and_then] in Ha.
    destruct (Nat.eqb (List.length req) 0
              || forallb (fun prop => defined prop filled) req)%bool eqn:Hc.
    + destruct (Nat.eqb (List.length (Obj.keys filled)) 0
                && Nat.ltb 0 (List.length req))%bool eqn:Hb; [|discriminate].
      apply andb_true_iff in Hb. destruct Hb as [H0 Hr]. split.
      * apply (Hempty filled eq_refl). now apply (proj1 (Hlen filled)).
      * intros Hreq. rewrite Hreq in Hr. discriminate.
    + destruct (Nat.ltb 0 (List.length (Obj.keys filled))) eqn:Hb; [discriminate|].
      split.
      * apply (Hempty filled eq_refl). now apply (proj2 (Hlen filled)).
      * intros Hreq. rewrite Hreq in Hc. discriminate.
  - intros e He.
    destruct (fill E message props seeded) as [filled|e'] eqn:Hf.
    + cbn [and_then] in He. revert He.
      destruct (Nat.eqb (List.length req) 0
                || forallb (fun prop => defined prop filled) req)%bool;
        [destruct (Nat.eqb (List.length (Obj.keys filled)) 0
                   && Nat.ltb 0 (List.length req))%bool
        |destruct (Nat.ltb 0 (List.length (Obj.keys filled)))];
        intros He; discriminate He.
    + injection He as <-.
      destruct (fill_raises E message props seeded e' Hf)
        as (p & ps & Hin & Hk & Hg & Hx).
      exists p, ps. split; [exact Hin|]. split; [|exact Hx].
      destruct (Obj.get p template) as [v|] eqn:Hgt; [|reflexivity].
      rewrite (Hseed p v Hk Hgt) in Hg. discriminate.
  - intros H.
    destruct (fill_returns E message props seeded) as [filled Hf].
    { intros p ps Hin. destruct (H p ps Hin) as [[Hg Hk]|Hr]; [left|now right].
      destruct (Obj.get p template) as [v|] eqn:Hgt; [|congruence].
      exact (defined_own p v seeded (Hseed p v Hk Hgt)). }
    rewrite Hf. cbn [and_then].
    destruct (Nat.eqb (List.length req) 0
              || forallb (fun prop => defined prop filled) req)%bool;
      [destruct (Nat.eqb (List.length (Obj.keys filled)) 0
                 && Nat.ltb 0 (List.length req))%bool
      |destruct (Nat.ltb 0 (List.length (Obj.keys filled)))]; eauto.
Qed.

Lemma keys_insert_index {V} (i : Z) (k : string) (v : V) (fs : list (string * V)) :
  Permutation (Obj.keys (Obj.insert_index i k v fs)) (k :: Obj.keys fs).
Proof.
  unfold Obj.keys. induction fs as [|[k0 v0] r IH]; cbn; [reflexivity|].
  destruct (Obj.index_of k0) as [j|]; [|reflexivity].
  destruct (j <? i); [|reflexivity].
  cbn. rewrite IH. apply perm_swap.
Qed.

Lemma keys_put_nodup {V} (k : string) (v : V) (fs : list (string * V)) :
  List.NoDup (Obj.keys fs) -> List.NoDup (Obj.keys (Obj.put k v fs)).
Proof.
  intros H.
  assert (Hd : List.NoDup (Obj.keys (Obj.define k v fs))).
  { unfold Obj.define. destruct (Obj.get k fs) eqn:Hg; [now apply keys_set_nodup|].
    destruct (Obj.index_of k) as [i|]; [|now apply keys_set_nodup].
    apply (Permutation_NoDup (l := k :: Obj.keys fs)).
    - symmetry. apply keys_insert_index.
    - constructor; [|exact H]. intros Hin. apply own_in_keys in Hin.
      unfold PlanExecutor.own in Hin. rewrite Hg in Hin. discriminate. }
  unfold Obj.put. destruct (Obj.get k fs); [exact Hd|].
  destruct (String.eqb k "__proto__"); [exact H|exact Hd].
Qed.

Lemma put_keeps_prototype {V} (k : string) (v : V) (fs : list (string * V)) :
  Obj.get "__proto__" fs = None -> Obj.get "__proto__" (Obj.put k v fs) = None.
Proof.
  intros H. destruct (String.eqb_spec k "__proto__") as [->|Hne].
  - now rewrite put_proto.
  - rewrite get_put_other by congruence. exact H.
Qed.

(** The templates of [generateExamples] are such objects: no key twice,
    no own [__proto__]. *)
Lemma generated_templates (toolName description : string) (schema : Schema)
    (e : Example) :
  In e (ToolCache.generateExamples toolName description schema) ->
  List.NoDup (Obj.keys (args e)) /\ Obj.get "__proto__" (args e) = None.
Proof.
  assert (Hgen : forall props acc,
            List.NoDup (Obj.keys acc) /\ Obj.get "__proto__" acc = None ->
            let r := fold_left
                       (fun acc kp =>
                          let '(key, prop) := kp in
                          match p_type prop with
                          | Some ty =>
                              if String.eqb ty "string"
                              then Obj.put key (JStr ("example-" +:+ key)) acc
                              else if String.eqb ty "number" then Obj.put key (JNum 123) acc
                              else if String.eqb ty "boolean" then Obj.put key (JBool true) acc
                              else acc
                          | None => acc
                          end) props acc in
            List.NoDup (Obj.keys r) /\ Obj.get "__proto__" r = None).
  { induction props as [|[key prop] r IH]; intros acc Hacc; [exact Hacc|].
    cbn [fold_left]. apply IH. destruct Hacc as [Hn Hp].
    destruct (p_type prop) as [ty|]; [|now split].
    destruct (String.eqb ty "string");
      [split; [now apply keys_put_nodup|now apply put_keeps_prototype]|].
    destruct (String.eqb ty "number");
      [split; [now apply keys_put_nodup|now apply put_keeps_prototype]|].
    destruct (String.eqb ty "boolean");
      [split; [now apply keys_put_nodup|now apply put_keeps_prototype]|].
    now split. }
  assert (Hone : forall k v, List.NoDup (Obj.keys [(k, v : JValue)])).
  { intros k v. cbn. constructor; [intros []|constructor]. }
  unfold ToolCache.generateExamples. intros Hin. apply in_app_or in Hin.
  destruct Hin as [Hin|Hin].
  - repeat match type of Hin with
           | In _ (if ?c then _ else _) => destruct c
           end;
      cbn [In] in Hin;
      repeat match type of Hin with
             | _ \/ _ => destruct Hin as [<-|Hin]
             | False => destruct Hin
             end;
      cbn [args ToolCache.ex]; (split; [first [apply Hone|constructor]|reflexivity]).
  - destruct (properties schema) as [props|]; [|destruct Hin].
    destruct (Nat.ltb 0 (List.length props)); [|destruct Hin].
    destruct (Nat.ltb 0 (List.length (ToolCache.exampleArgs_of props))); [|destruct Hin].
    destruct Hin as [<-|[]]. cbn [args ToolCache.ex].
    apply (Hgen props []). split; [constructor|reflexivity].
Qed.

(** X13.  Argument extraction from a template, an object like those of
    [generateExamples] (no key twice, no own [__proto__]).  A result
    holds every value of the template under its key, never replaced by
    one found in the message, and is not the empty object when the schema
    has required properties.  The answer is [null] only when the template
    is empty and the schema has required properties.  An error is the
    [SyntaxError] of the search for a declared property to which the
    template gives no value; when the template gives a value to every
    declared property for which the search raises, extraction returns. *)
Theorem template_values_win (E : Env) (message : string) (t : ToolMetadata)
    (template : list (string * JValue)) :
  List.NoDup (Obj.keys template) ->
  Obj.get "__proto__" template = None ->
  (forall a,
     extractArgsFromMessage E message t template = Ok (Some a) ->
     (forall k v, Obj.get k template = Some v -> Obj.get k a = Some v)
     /\ (default [] (required (inputSchema t)) <> [] -> a <> []))
  /\ (extractArgsFromMessage E message t template = Ok None ->
      template = [] /\ default [] (required (inputSchema t)) <> [])
  /\ (forall e,
        extractArgsFromMessage E message t template = Throw e ->
        exists p ps,
          In (p, ps) (default [] (properties (inputSchema t)))
          /\ Obj.get p template = None
          /\ extractProp E message p ps = Throw e)
  /\ ((forall p ps,
         In (p, ps) (default [] (properties (inputSchema t))) ->
         Obj.get p template <> None
         \/ exists r, extractProp E message p ps = Ok r) ->
      exists r, extractArgsFromMessage E message t template = Ok r).
Proof.
  intros Hnd Hproto.
  destruct (extraction_from_template E message t template Hnd)
    as (Hres & Hnull & Hraise & Hreturn).
  assert (Hk : forall k v, Obj.get k template = Some v -> k <> "__proto__").
  { intros k v Hg ->. congruence. }
  split; [|split; [|split]].
  - intros a Ha. destruct (Hres a Ha) as [Hkeep Hne]. split; [|exact Hne].
    intros k v Hg. apply Hkeep; [exact (Hk k v Hg)|exact Hg].
  - intros Ha. destruct (Hnull Ha) as [Hall Hreq]. split; [|exact Hreq].
    destruct template as [|[k v] r]; [reflexivity|].
    assert (Hg : Obj.get k ((k, v) :: r) = Some v) by (cbn; now rewrite String.eqb_refl).
    destruct (Hk k v Hg). exact (Hall k v Hg).
  - exact Hraise.
  - intros H. apply Hreturn. intros p ps Hin.
    destruct (H p ps Hin) as [Hg|Hr]; [left|now right].
    split; [exact Hg|].
    destruct (Obj.get p template) as [v|] eqn:Hgt; [|congruence].
    exact (Hk p v Hgt).
Qed.

Lemma template_values_win_witness :
  List.NoDup (Obj.keys (args ecp_example))
  /\ Obj.get "__proto__" (args ecp_example) = None
  /\ exists r,
       extractArgsFromMessage (Scenario.quiet 0) ecp_message
         (ToolCache.metadata_of Scenario.send_document_listing) (args ecp_example)
       = Ok r.
Proof.
  assert (Hnd : List.NoDup (Obj.keys (args ecp_example))).
  { cbn. constructor; [intros []|constructor]. }
  split; [exact Hnd|]. split; [reflexivity|].
  destruct (template_values_win (Scenario.quiet 0) ecp_message
              (ToolCache.metadata_of Scenario.send_document_listing)
              (args ecp_example) Hnd eq_refl) as (_ & _ & _ & Hreturns).
  apply Hreturns. intros p ps [Heq|[]]. injection Heq as <- <-.
  left. discriminate.
Defined.

End ExtractionFacts.

Section ExampleFacts.

Import Router.

Lemma startsWith_refl (s : string) : JS.startsWith s s = true.
Proof.
  induction s as [|c r IH]; [reflexivity|]. cbn. now rewrite Ascii.eqb_refl.
Qed.

Lemma includes_refl (s : string) : JS.includes s s = true.
Proof.
  destruct s as [|c r]; [reflexivity|].
  cbn [JS.includes]. now rewrite startsWith_refl.
Qed.

Lemma ratio_full (n : nat) : (0 < n)%nat -> ratio n n = 1%Q.
Proof.
  intros Hn. unfold ratio.
  change 1%Q with (Qred 1). apply Qred_complete.
  apply Qmult_inv_r. unfold Qeq, inject_Z. cbn. lia.
Qed.

(** X14.  A message that is, up to case and surrounding white space, the
    query of a usage example matches every token of that example and
    scores confidence 1 on it; when extraction yields arguments the
    example yields the candidate of its tool with these arguments at
    confidence 1, and, the tool being in the catalog and not held back by
    the document guard, the fast path returns that candidate whenever it
    returns. *)
Theorem exact_example_is_matched (E : Env) (st : State) (message : string)
    (t : ToolMetadata) (e : Example) (a : list (string * JValue)) :
  JS.toLowerCase (query e) = lowerMessage_of message ->
  exampleWords_of e <> [] ->
  matchingWords_of message e = exampleWords_of e
  /\ example_confidence message e = 1%Q
  /\ (extractArgsFromMessage E message t (args e) = Ok (Some a) ->
      example_matches E message t e
      = Ok [{| m_tool := name t; m_args := a; confidence := 1 |}])
  /\ (In t (ToolCache.getAllTools st) ->
      In e (examples t) ->
      guarded message t = false ->
      extractArgsFromMessage E message t (args e) = Ok (Some a) ->
      forall sel,
        tryFastPath E st message = Ok sel ->
        In {| m_tool := name t; m_args := a; confidence := 1 |} sel).
Proof.
  intros Hq Hwords.
  assert (Hm : matchingWords_of message e = exampleWords_of e).
  { unfold matchingWords_of. apply filter_all. intros ew Hew.
    apply existsb_exists. exists ew. split.
    - rewrite <- Hq. unfold exampleWords_of in Hew. apply filter_In in Hew. tauto.
    - now rewrite includes_refl. }
  assert (Hlen : (0 < List.length (exampleWords_of e))%nat).
  { destruct (exampleWords_of e); [now destruct Hwords|cbn; lia]. }
  assert (Hc : example_confidence message e = 1%Q).
  { unfold example_confidence. rewrite Hm.
    replace (Nat.ltb 0 (List.length (exampleWords_of e))) with true
      by (symmetry; now apply Nat.ltb_lt).
    now apply ratio_full. }
  assert (Hex : extractArgsFromMessage E message t (args e) = Ok (Some a) ->
                example_matches E message t e
                = Ok [{| m_tool := name t; m_args := a; confidence := 1 |}]).
  { intros Ha. unfold example_matches. rewrite Hc, Hm, Ha.
    replace (Nat.leb _ _) with true by (symmetry; apply Nat.leb_le; lia).
    reflexivity. }
  split; [exact Hm|]. split; [exact Hc|]. split; [exact Hex|].
  intros Ht He Hg Ha sel Hs.
  apply tryFastPath_ok in Hs. destruct Hs as (pool & Hp & ->).
  destruct (tryFastPath_sorted_pool E st message) as (Hall & _).
  destruct (Hall pool Hp) as (Hf & Hperm & _).
  assert (Hsel : select pool = sort_desc pool).
  { unfold tryFastPath in Hf. rewrite Hp in Hf. cbn [and_then] in Hf. congruence. }
  rewrite Hsel. apply (Permutation_in _ (Permutation_sym Hperm)).
  unfold pooled in Hp.
  destruct (collect_each _ _ _ Hp t Ht) as [ys Hys].
  apply (collect_in _ _ _ Hp). exists t, ys. split; [exact Ht|]. split; [exact Hys|].
  unfold tool_matches in Hys. rewrite Hg in Hys. unfold and_then in Hys.
  destruct (collect (example_matches E message t) (examples t))
    as [byExample|err] eqn:Hc'; [|discriminate].
  destruct (name_and_description_matches E message t) as [byWords|err]; [|discriminate].
  injection Hys as <-. apply in_or_app. left.
  apply (collect_in _ _ _ Hc'). eexists e, _. split; [exact He|].
  split; [exact (Hex Ha)|now left].
Qed.

Lemma exact_example_is_matched_witness :
  exists sel,
    tryFastPath (Scenario.quiet 0) Scenario.with_send_document
      "  Where is the SUBMITTAL package " = Ok sel
    /\ In {| m_tool := "send_document";
             m_args := [("query", JStr "submittal package")]; confidence := 1 |} sel.
Proof.
  destruct (exact_example_is_matched (Scenario.quiet 0) Scenario.with_send_document
              "  Where is the SUBMITTAL package "
              (ToolCache.metadata_of Scenario.send_document_listing)
              {| query := "where is the submittal package";
                 args := [("query", JStr "submittal package")] |}
              [("query", JStr "submittal package")])
    as (_ & _ & _ & H).
  - vm_compute. reflexivity.
  - vm_compute. discriminate.
  - destruct (tryFastPath (Scenario.quiet 0) Scenario.with_send_document
                "  Where is the SUBMITTAL package ") as [sel|err] eqn:Hs;
      [|vm_compute in Hs; discriminate].
    exists sel. split; [reflexivity|]. apply H.
    + now left.
    + vm_compute. tauto.
    + vm_compute. reflexivity.
    + vm_compute. reflexivity.
    + reflexivity.
Defined.

Lemma call_json_nodup (l : list FastPathMatch) :
  unique_keys l -> List.NoDup (List.map call_json l).
Proof.
  unfold unique_keys. induction l as [|x r IH]; cbn; intros H; [constructor|].
  inversion H as [|? ? Hnotin Hnd]; subst. constructor; [|now apply IH].
  intros Hin. apply in_map_iff in Hin. destruct Hin as (y & Hy & Hin).
  apply Hnotin. apply in_map_iff. exists y. split; [|exact Hin].
  unfold call_json in Hy. unfold match_key. now injection Hy as -> ->.
Qed.

(** X15.  Whenever the fast path has a match, [route] answers without
    the planner and without touching the state: the plan does not ask for
    confirmation, its calls are the tool and arguments of the selected
    matches, each pair once, and there is at least one. *)
Theorem fast_path_plan_shape (E : Env) (P : Planner.t) (message uid : string)
    (history : list Message) (st : State) (sel : list FastPathMatch) :
  tryFastPath E st message = Ok sel ->
  sel <> [] ->
  exists cs reasoning,
    route E P message uid history st
    = (Ok (JObj [("calls", JArr cs); ("needs_confirmation", JBool false);
                 ("reasoning", JStr reasoning)]), st)
    /\ cs <> []
    /\ List.NoDup cs
    /\ forall c, In c cs <-> exists m, In m sel /\ c = call_json m.
Proof.
  intros Hs Hne.
  destruct (deduplicateMatches_best sel) as (Hu & Hsub & Hcov).
  exists (List.map call_json (deduplicateMatches sel)).
  exists ("Fast path matches: " +:+
          JS.join ", " (List.map m_tool (deduplicateMatches sel))).
  split; [|split; [|split]].
  - rewrite (route_fast E P message uid history st sel Hs Hne). reflexivity.
  - destruct sel as [|m r]; [now destruct Hne|].
    destruct (Hcov m (or_introl eq_refl)) as (y & Hy & _).
    intros Hnil. apply (f_equal (@List.length _)) in Hnil.
    rewrite List.length_map in Hnil.
    destruct (deduplicateMatches (m :: r)); [destruct Hy|discriminate].
  - now apply call_json_nodup.
  - intros c. rewrite in_map_iff. split.
    + intros (y & <- & Hy). exists y. split; [now apply Hsub|reflexivity].
    + intros (m & Hm & ->). destruct (Hcov m Hm) as (y & Hy & Ht & Ha & _).
      exists y. split; [|exact Hy]. unfold call_json. now rewrite Ht, Ha.
Qed.

Lemma fast_path_plan_shape_witness :
  exists sel cs reasoning,
    tryFastPath (Scenario.quiet 0) Scenario.with_send_document ecp_message = Ok sel
    /\ route (Scenario.quiet 0) Scenario.planner ecp_message "u1" []
         Scenario.with_send_document
       = (Ok (JObj [("calls", JArr cs); ("needs_confirmation", JBool false);
                    ("reasoning", JStr reasoning)]), Scenario.with_send_document)
    /\ cs <> []
    /\ List.NoDup cs
    /\ forall c, In c cs <-> exists m, In m sel /\ c = call_json m.
Proof.
  destruct (tryFastPath (Scenario.quiet 0) Scenario.with_send_document ecp_message)
    as [sel|err] eqn:Hs; [|vm_compute in Hs; discriminate].
  assert (Hne : sel <> []).
  { vm_compute in Hs. injection Hs as <-. discriminate. }
  destruct (fast_path_plan_shape (Scenario.quiet 0) Scenario.planner ecp_message
              "u1" [] Scenario.with_send_document sel Hs Hne)
    as (cs & reasoning & H).
  exists sel, cs, reasoning. split; [reflexivity|exact H].
Defined.

End ExampleFacts.

Section ExtractionErrors.

Import Router.

Lemma collect_raises {A B} (f : A -> Outcome (list B)) (xs : list A) (a : A)
    (e : string) :
  In a xs -> f a = Throw e -> exists e', collect f xs = Throw e'.
Proof.
  intros Ha Hf. destruct (collect f xs) as [l|e'] eqn:Hc; [|eauto].
  destruct (collect_each f xs l Hc a Ha) as [ys Hys]. congruence.
Qed.

(** X30.  An error of the argument search is not caught.  When a tool of
    the catalog that the document guard does not hold back has a word of
    its name in the message, and extraction from the message raises for
    it, [tryFastPath] raises and so does [route]: no plan is returned, the
    planner is not asked, and the state is as before. *)
Theorem extraction_error_escapes (E : Env) (P : Planner.t) (message uid : string)
    (history : list Message) (st : State) (t : ToolMetadata) (e : string) :
  In t (ToolCache.getAllTools st) ->
  guarded message t = false ->
  occurring message (toolNameWords_of t) <> [] ->
  extractArgsFromMessage E message t [] = Throw e ->
  exists e',
    tryFastPath E st message = Throw e'
    /\ route E P message uid history st = (Throw e', st).
Proof.
  intros Ht Hg Hw He.
  assert (Htool : exists e1, tool_matches E message t = Throw e1).
  { unfold tool_matches. rewrite Hg. unfold and_then at 1.
    destruct (collect (example_matches E message t) (examples t)); [|eauto].
    unfold name_and_description_matches.
    destruct (occurring message (toolNameWords_of t)) as [|w ws]; [now destruct Hw|].
    cbn [List.length Nat.ltb Nat.leb]. rewrite Hg, He. cbn [and_then]. eauto. }
  destruct Htool as [e1 He1].
  destruct (collect_raises (tool_matches E message) _ t e1 Ht He1) as [e' Hc].
  exists e'.
  assert (Hf : tryFastPath E st message = Throw e').
  { unfold tryFastPath, pooled. now rewrite Hc. }
  split; [exact Hf|now apply route_raises].
Qed.

Lemma extraction_error_escapes_witness :
  extractArgsFromMessage strict_patterns "lookup language"
    (ToolCache.metadata_of lookup_language) [] = Throw nothing_to_repeat
  /\ exists e',
       tryFastPath strict_patterns with_lookup_language "lookup language" = Throw e'
       /\ route strict_patterns Scenario.planner "lookup language" "u1" []
            with_lookup_language
          = (Throw e', with_lookup_language).
Proof.
  assert (He : extractArgsFromMessage strict_patterns "lookup language"
                 (ToolCache.metadata_of lookup_language) [] = Throw nothing_to_repeat)
    by (vm_compute; reflexivity).
  split; [exact He|].
  apply (extraction_error_escapes strict_patterns Scenario.planner "lookup language"
           "u1" [] with_lookup_language (ToolCache.metadata_of lookup_language)
           nothing_to_repeat).
  - now left.
  - vm_compute. reflexivity.
  - vm_compute. discriminate.
  - exact He.
Defined.

End ExtractionErrors.

(* ===================================================================== *)
(** * Further properties of the executor *)
(* ===================================================================== *)

Section ExecutorMore.

Import PlanExecutor.

(** A call that passes validation and whose invocation fails is sent
    once and the wrapped error recorded. *)
Lemma execute_call_failed (E : Env) (call : PlanCall) (res : ExecutionResult)
    (st : State) (e : string) :
  stream_quiet st ->
  validateCall st call = None ->
  mcp_callTool E (tool call) (call_args call) = Throw e ->
  execute_call E call res st
  = (Ok (add_error res call ("Tool execution failed: " +:+ error_text e)),
     invoked call (notified ("Executing " +:+ tool call +:+ "...") st)).
Proof.
  intros Hq Hv Hr. unfold execute_call, bind at 1.
  rewrite (stream_quiet_run _ _ Hq). cbn [awaited]. unfold bind at 1, get_state.
  rewrite (validateCall_tools st _ call (notified_tools _ st)), Hv.
  unfold bind at 1, settled, executeCall, try_catch, bind at 1, emit, modify,
    lift_outcome.
  rewrite Hr. unfold throw, ret.
  assert (Ht : error_text ("Tool execution failed: " +:+ error_text e)
               = "Tool execution failed: " +:+ error_text e) by reflexivity.
  rewrite Ht. reflexivity.
Qed.

Lemma call_outcome_tools (E : Env) (st st' : State) (call : PlanCall) :
  tools st' = tools st -> call_outcome E st' call = call_outcome E st call.
Proof.
  intros H. unfold call_outcome. now rewrite (validateCall_tools st st' call H).
Qed.

(** One round of the loop, when progress notices are delivered. *)
Lemma execute_call_quiet (E : Env) (call : PlanCall) (res : ExecutionResult)
    (st : State) :
  stream_quiet st ->
  exists st',
    execute_call E call res st
    = (Ok (match call_outcome E st call with
           | inl r => add_result res r
           | inr e => add_error res call e
           end), st')
    /\ tools st' = tools st
    /\ stream_quiet st'
    /\ remote_calls (trace st')
       = remote_calls (trace st) ++ (if is_valid st call then [call_event call] else []).
Proof.
  intros Hq. unfold call_outcome, is_valid.
  set (st1 := notified ("Executing " +:+ tool call +:+ "...") st).
  assert (Hq1 : stream_quiet st1) by (now apply notified_quiet).
  assert (Hc1 : remote_calls (trace (invoked call st1))
                = remote_calls (trace st) ++ [call_event call]).
  { unfold invoked, remote_calls. cbn [trace]. rewrite List.filter_app.
    cbn [List.filter]. fold (remote_calls (trace st1)). unfold st1.
    now rewrite notified_calls. }
  destruct (validateCall st call) as [err|] eqn:Hv.
  - exists st1. rewrite (execute_call_invalid E call res st err Hq Hv).
    split; [reflexivity|]. split; [apply notified_tools|]. split; [exact Hq1|].
    unfold st1. rewrite notified_calls. now rewrite app_nil_r.
  - destruct (mcp_callTool E (tool call) (call_args call)) as [r|e] eqn:Hr.
    + eexists. rewrite (execute_call_valid E call res st r Hq Hv Hr).
      split; [reflexivity|]. split; [|split].
      * rewrite notified_tools. cbn [tools invoked]. apply notified_tools.
      * apply notified_quiet. exact Hq1.
      * rewrite notified_calls. exact Hc1.
    + eexists. rewrite (execute_call_failed E call res st e Hq Hv Hr).
      split; [reflexivity|]. split; [|split].
      * cbn [tools invoked]. apply notified_tools.
      * exact Hq1.
      * exact Hc1.
Qed.

Lemma execute_calls_quiet (E : Env) (cs : list PlanCall) (res : ExecutionResult)
    (st : State) :
  stream_quiet st ->
  exists st',
    execute_calls E cs res st
    = (Ok {| success := (success res
                         && match call_errors E st cs with [] => true | _ => false end)%bool;
             results := results res ++ call_results E st cs;
             errors := errors res ++ call_errors E st cs;
             needsConfirmation := needsConfirmation res |}, st')
    /\ remote_calls (trace st')
       = remote_calls (trace st) ++ List.map call_event (List.filter (is_valid st) cs).
Proof.
  revert res st. induction cs as [|c r IH]; intros res st Hq.
  - exists st. cbn. rewrite !app_nil_r, andb_true_r. split; [now destruct res|reflexivity].
  - destruct (execute_call_quiet E c res st Hq) as (st1 & Hrun & Ht & Hq1 & Hc).
    set (res1 := match call_outcome E st c with
                 | inl v => add_result res v
                 | inr e => add_error res c e
                 end) in Hrun.
    destruct (IH res1 st1 Hq1) as (st2 & Hrun2 & Hc2).
    exists st2. cbn [execute_calls]. unfold bind. rewrite Hrun, Hrun2.
    assert (Hres : call_results E st1 r = call_results E st r).
    { unfold call_results. apply flat_map_ext. intros a.
      now rewrite (call_outcome_tools E st st1 a Ht). }
    assert (Herr : call_errors E st1 r = call_errors E st r).
    { unfold call_errors. apply flat_map_ext. intros a.
      now rewrite (call_outcome_tools E st st1 a Ht). }
    assert (Hval : List.filter (is_valid st1) r = List.filter (is_valid st) r).
    { apply List.filter_ext. intros a. unfold is_valid.
      now rewrite (validateCall_tools st st1 a Ht). }
    rewrite Hres, Herr. split.
    + f_equal. unfold call_results, call_errors. cbn [flat_map].
      fold (call_results E st r). fold (call_errors E st r).
      unfold res1. destruct (call_outcome E st c) as [v|e];
        cbn [add_result add_error success results errors needsConfirmation app].
      * rewrite <- app_assoc. reflexivity.
      * rewrite <- app_assoc. cbn [app]. now rewrite andb_false_r.
    + rewrite Hc2, Hc, Hval. cbn [List.filter]. destruct (is_valid st c); cbn [List.map app].
      * now rewrite <- app_assoc.
      * now rewrite app_nil_r.
Qed.

Lemma outcomes_partition (E : Env) (st : State) (cs : list PlanCall) :
  (List.length (call_results E st cs) + List.length (call_errors E st cs)
   = List.length cs)%nat.
Proof.
  unfold call_results, call_errors.
  induction cs as [|c r IH]; [reflexivity|]. cbn [flat_map].
  rewrite !List.length_app. destruct (call_outcome E st c); cbn [List.length]; lia.
Qed.

(** X16.  With progress notices delivered and no confirmation needed,
    [execute] goes through every call of the plan in order: a call that
    fails validation is recorded with its error and not sent; every other
    call is sent to the server exactly once, earlier failures
    notwithstanding, and contributes its result, or the wrapped error of
    the server.  [results] and [errors] keep the order of the plan, every
    call ends in exactly one of them, and [success] tells whether [errors]
    is empty. *)
Theorem execute_accounts_for_every_call (E : Env) (plan : Plan) (st : State) :
  default false (needs_confirmation plan) = false ->
  stream_quiet st ->
  exists res st',
    execute E plan st = (Ok res, st')
    /\ results res = call_results E st (calls plan)
    /\ errors res = call_errors E st (calls plan)
    /\ (success res = true <-> errors res = [])
    /\ (List.length (results res) + List.length (errors res)
        = List.length (calls plan))%nat
    /\ remote_calls (trace st')
       = remote_calls (trace st)
         ++ List.map call_event (List.filter (is_valid st) (calls plan)).
Proof.
  intros Hn Hq. unfold execute. rewrite Hn.
  destruct (execute_calls_quiet E (calls plan)
              {| success := true; results := []; errors := [];
                 needsConfirmation := false |} st Hq) as (st' & Hrun & Hc).
  eexists. exists st'. split; [exact Hrun|]. cbn [results errors success app andb].
  split; [reflexivity|]. split; [reflexivity|]. split; [|split; [|exact Hc]].
  - destruct (call_errors E st (calls plan)); split; congruence.
  - apply outcomes_partition.
Qed.

Lemma execute_accounts_for_every_call_witness :
  exists res st',
    execute (Scenario.quiet 0) Scenario.two_calls Scenario.with_send_document
    = (Ok res, st')
    /\ results res
       = call_results (Scenario.quiet 0) Scenario.with_send_document
           (calls Scenario.two_calls)
    /\ errors res
       = call_errors (Scenario.quiet 0) Scenario.with_send_document
           (calls Scenario.two_calls)
    /\ (success res = true <-> errors res = [])
    /\ (List.length (results res) + List.length (errors res)
        = List.length (calls Scenario.two_calls))%nat
    /\ remote_calls (trace st')
       = remote_calls (trace Scenario.with_send_document)
         ++ List.map call_event
              (List.filter (is_valid Scenario.with_send_document)
                 (calls Scenario.two_calls)).
Proof.
  apply (execute_accounts_for_every_call (Scenario.quiet 0) Scenario.two_calls
           Scenario.with_send_document).
  - reflexivity.
  - exact I.
Defined.

End ExecutorMore.

Section ExecutorAlways.

Import PlanExecutor.










Lemma bare_rejection_escapes :
  fst (execute (Scenario.quiet 0) Scenario.two_calls with_bare_rejection)
  = Throw "Cannot read properties of undefined (reading 'message')".
Proof. vm_compute. reflexivity. Qed.

End ExecutorAlways.

(* ===================================================================== *)
(** * Further properties of the planner *)
(* ===================================================================== *)

Section PlannerMore.

Import Planner.

Lemma validateCall_accepts (st : State) (call : JValue) :
  has_tool_name call -> has_args_object call -> names_known_tool st call ->
  validateCall st call = Ok tt.
Proof.
  intros (s & Hs & Hne) (a & Ha & Hnull & Hty) (s' & t & Hs' & Ht).
  assert (s' = s) by congruence. subst s'.
  unfold validateCall. rewrite Hs.
  apply String.eqb_neq in Hne. rewrite Hne, Ha, Ht.
  replace (Val.truthy a) with true
    by (destruct a; cbn in Hty; try discriminate; try reflexivity; now destruct Hnull).
  now rewrite Hty.
Qed.

Lemma validateCalls_accepts (st : State) (cs : list JValue) :
  (forall call, In call cs ->
     has_tool_name call /\ has_args_object call /\ names_known_tool st call) ->
  validateCalls st cs = Ok tt.
Proof.
  induction cs as [|c r IH]; intros H; [reflexivity|]. cbn.
  destruct (H c (or_introl eq_refl)) as (H1 & H2 & H3).
  rewrite (validateCall_accepts st c H1 H2 H3). apply IH.
  intros call Hin. apply H. now right.
Qed.

(** X18.  [validatePlan] accepts a value exactly when its [calls] is an
    array each of whose elements has a non-empty string [tool], an object
    [args] and names a tool of the catalog.  Nothing else of the value is
    looked at. *)
Theorem validatePlan_accepts_exactly (st : State) (p : JValue) :
  validatePlan st p = Ok tt
  <-> exists cs,
        Val.prop p "calls" = Some (Some (JArr cs))
        /\ forall call, In call cs ->
             has_tool_name call /\ has_args_object call /\ names_known_tool st call.
Proof.
  split.
  - intros H. unfold validatePlan in H.
    destruct (Val.prop p "calls") as [[[| | | |cs|]|]|] eqn:Hc; try discriminate.
    exists cs. split; [reflexivity|]. now apply validateCalls_ok.
  - intros (cs & Hc & Hall). unfold validatePlan. rewrite Hc.
    now apply validateCalls_accepts.
Qed.

(** The request that [callLLM] sends for a prompt and a history. *)
Lemma callLLM_sends (E : Env) (P : Planner.t) (prompt : string)
    (history : list Message) (st : State) :
  credential_missing E P = false ->
  exists st',
    snd (callLLM E P prompt history st) = st'
    /\ tools st' = tools st
    /\ trace st'
       = trace st
         ++ [EvLlmFetch (llmBaseUrl P +:+ "/chat/completions")
               ([systemMessage]
                ++ List.map chat_of (JS.slice_from (-10) history)
                ++ [{| chat_role := user_role; chat_content := prompt |}])].
Proof.
  intros Hk. eexists. split; [reflexivity|].
  unfold callLLM. rewrite Hk. unfold bind, emit, modify. cbn [fst snd].
  destruct (llm_fetch E _ _); cbn; split; reflexivity.
Qed.

(** X19.  The history window of a model request: the request goes to
    [/chat/completions] under the base URL and carries the system message
    first, then the last ten messages of the history (all of them when
    there are at most ten) in their order, then the prompt as a user
    message: at most twelve messages. *)
Theorem llm_request_window (E : Env) (P : Planner.t) (prompt : string)
    (history : list Message) (st : State) :
  credential_missing E P = false ->
  exists sent,
    trace (snd (callLLM E P prompt history st))
    = trace st ++ [EvLlmFetch (llmBaseUrl P +:+ "/chat/completions") sent]
    /\ sent = [systemMessage]
              ++ List.map chat_of (skipn (List.length history - 10) history)
              ++ [{| chat_role := user_role; chat_content := prompt |}]
    /\ List.length sent = (Nat.min (List.length history) 10 + 2)%nat
    /\ (List.length history <= 10 ->
        sent = [systemMessage] ++ List.map chat_of history
               ++ [{| chat_role := user_role; chat_content := prompt |}])%nat.
Proof.
  intros Hk. destruct (callLLM_sends E P prompt history st Hk) as (st' & Hst & _ & Htr).
  rewrite Hst, Htr.
  assert (Hslice : JS.slice_from (-10) history
                   = skipn (List.length history - 10) history).
  { unfold JS.slice_from. cbn [Z.ltb Z.compare]. f_equal. lia. }
  rewrite Hslice. eexists. split; [reflexivity|]. split; [reflexivity|]. split.
  - cbn [app List.length]. rewrite List.length_app, List.length_map, List.length_skipn.
    cbn [List.length]. lia.
  - intros Hle. replace (List.length history - 10)%nat with 0%nat by lia. reflexivity.
Qed.

Lemma llm_request_window_witness :
  exists sent,
    trace (snd (callLLM (Scenario.answering "{}") Scenario.planner "prompt"
                  [hello; hello] initial_state))
    = trace initial_state
      ++ [EvLlmFetch (llmBaseUrl Scenario.planner +:+ "/chat/completions") sent]
    /\ List.length sent = 4%nat.
Proof.
  destruct (llm_request_window (Scenario.answering "{}") Scenario.planner "prompt"
              [hello; hello] initial_state) as (sent & Htr & _ & Hlen & _).
  - vm_compute. reflexivity.
  - exists sent. split; [exact Htr|exact Hlen].
Defined.

(** X20.  An answer that parses and passes validation is returned as it
    was parsed, with nothing added or removed, after exactly one request
    to the model. *)
Theorem valid_answer_is_returned (E : Env) (P : Planner.t)
    (message uid : string) (history : list Message) (st : State)
    (text : option string) (p : JValue) :
  credential_missing E P = false ->
  (forall url messages, llm_fetch E url messages = FetchContent text) ->
  JSON_parse E (default EmptyString text) = Some p ->
  validatePlan st p = Ok tt ->
  exists st',
    plan E P message uid history st = (Ok p, st')
    /\ List.length (llm_requests (trace st'))
       = S (List.length (llm_requests (trace st))).
Proof.
  intros Hk Hf Hp Hv.
  destruct (context_reads E uid st) as (uc & st1 & cat & st2 & H1 & H2 & Ht & Hl).
  eexists. unfold plan, bind. rewrite H1, H2.
  unfold get_state at 1. unfold callLLM. rewrite Hk, Hf.
  unfold bind, emit, modify, ret, get_state. cbn [fst snd].
  split.
  - f_equal. f_equal. unfold parse_response. rewrite Hp.
    match goal with |- context [validatePlan ?s p] =>
      rewrite (validatePlan_tools st s p) by exact Ht end.
    now rewrite Hv.
  - cbn [trace]. unfold llm_requests at 1. rewrite List.filter_app.
    fold (llm_requests (trace st2)). rewrite Hl, List.length_app. cbn. lia.
Qed.

Lemma startsWith_app (p rest : string) : JS.startsWith (p +:+ rest) p = true.
Proof.
  induction p as [|c r IH]; [now destruct rest|].
  change (String c r +:+ rest) with (String c (r +:+ rest)).
  cbn [JS.startsWith]. now rewrite Ascii.eqb_refl, IH.
Qed.

(** X21.  A failure of the transport is not turned into the fallback
    plan: when [fetch] rejects, or answers with a status that is not ok,
    [plan] raises an error that names the endpoint or the status, after
    the one request it has sent. *)
Theorem transport_failure_is_raised (E : Env) (P : Planner.t)
    (message uid : string) (history : list Message) (st : State) :
  credential_missing E P = false ->
  ((forall url messages, exists reason, llm_fetch E url messages = FetchRejects reason)
   \/ (forall url messages, exists status body,
         llm_fetch E url messages = FetchStatus status body)) ->
  exists e st',
    plan E P message uid history st = (Throw e, st')
    /\ (JS.startsWith e ("Failed to connect to LLM API at " +:+ llmBaseUrl P
                         +:+ "/chat/completions") = true
        \/ JS.startsWith e "LLM API error: " = true)
    /\ List.length (llm_requests (trace st'))
       = S (List.length (llm_requests (trace st))).
Proof.
  intros Hk Hf.
  destruct (context_reads E uid st) as (uc & st1 & cat & st2 & H1 & H2 & Ht & Hl).
  assert (Hlen : forall ev, List.length (llm_requests (trace st2 ++ [ev]))
                            = S (List.length (llm_requests (trace st)))
                            \/ forall u m, ev <> EvLlmFetch u m).
  { intros ev. destruct ev; try (right; intros; discriminate). left.
    unfold llm_requests at 1. rewrite List.filter_app.
    fold (llm_requests (trace st2)). rewrite Hl, List.length_app. cbn. lia. }
  unfold plan, bind. rewrite H1, H2.
  unfold get_state at 1. unfold callLLM. rewrite Hk.
  unfold bind, emit, modify, throw. cbn [fst snd].
  match goal with |- context [llm_fetch E ?u ?m] =>
    set (url := u); set (msgs := m) end.
  destruct Hf as [Hf|Hf].
  - destruct (Hf url msgs) as (reason & Hr). rewrite Hr.
    eexists. eexists. split; [reflexivity|]. split.
    + left. unfold url.
      set (prefix := "Failed to connect to LLM API at " +:+ llmBaseUrl P
                     +:+ "/chat/completions").
      match goal with |- JS.startsWith ?x _ = true =>
        replace x with (prefix +:+ (". " +:+
          "This could be due to network issues, DNS resolution failure, or the API server being unreachable. " +:+
          "Error: " +:+ error_text reason +:+ ". " +:+
          "Please check your OPENAI_BASE_URL environment variable (currently: " +:+
          llmBaseUrl P +:+ ") and ensure the service is accessible.")) end.
      * apply startsWith_app.
      * unfold prefix. reflexivity.
    + cbn [trace]. destruct (Hlen (EvLlmFetch url msgs)) as [H|H]; [exact H|].
      now destruct (H url msgs).
  - destruct (Hf url msgs) as (status & body & Hr). rewrite Hr.
    eexists. eexists. split; [reflexivity|]. split.
    + right. apply startsWith_app.
    + cbn [trace]. destruct (Hlen (EvLlmFetch url msgs)) as [H|H]; [exact H|].
      now destruct (H url msgs).
Qed.

End PlannerMore.

Lemma validatePlan_accepts_exactly_witness :
  Planner.validatePlan Scenario.with_send_document Cases.valid_plan = Ok tt.
Proof.
  apply (validatePlan_accepts_exactly Scenario.with_send_document Cases.valid_plan).
  eexists. split; [reflexivity|].
  intros call [<-|[]]. split; [|split].
  - exists "send_document". split; [reflexivity|discriminate].
  - eexists. split; [reflexivity|]. split; [discriminate|reflexivity].
  - exists "send_document". eexists. split; reflexivity.
Defined.

Lemma valid_answer_is_returned_witness :
  exists st',
    Planner.plan (Scenario.answering Cases.valid_answer) Scenario.planner
      "send me the checklist" "u1" [] Scenario.with_send_document
    = (Ok Cases.valid_plan, st')
    /\ List.length (llm_requests (trace st'))
       = S (List.length (llm_requests (trace Scenario.with_send_document))).
Proof.
  apply (valid_answer_is_returned (Scenario.answering Cases.valid_answer)
           Scenario.planner "send me the checklist" "u1" []
           Scenario.with_send_document (Some Cases.valid_answer)).
  - vm_compute. reflexivity.
  - intros url messages. reflexivity.
  - vm_compute. reflexivity.
  - vm_compute. reflexivity.
Defined.

Lemma transport_failure_is_raised_witness :
  exists e st',
    Planner.plan Cases.refusing Scenario.planner "hello" "u1" []
      Scenario.with_send_document = (Throw e, st')
    /\ (JS.startsWith e ("Failed to connect to LLM API at "
                         +:+ Planner.llmBaseUrl Scenario.planner
                         +:+ "/chat/completions") = true
        \/ JS.startsWith e "LLM API error: " = true)
    /\ List.length (llm_requests (trace st'))
       = S (List.length (llm_requests (trace Scenario.with_send_document))).
Proof.
  apply (transport_failure_is_raised Cases.refusing Scenario.planner "hello" "u1" []
           Scenario.with_send_document).
  - vm_compute. reflexivity.
  - left. intros url messages. eexists. reflexivity.
Defined.

(* ===================================================================== *)
(** * Further properties of the entity catalog *)
(* ===================================================================== *)

Section EntityMore.

Import ContextProvider.













End EntityMore.

(* ===================================================================== *)
(** * Invariants of the context provider *)
(* ===================================================================== *)

Section HoareRules.

Context {A B : Type}.

Lemma hoare_ret (a : A) (Q : A -> State -> Prop) (R : State -> Prop) :
  hoare (Q a) (ret a) Q R.
Proof. intros st H. exact H. Qed.

Lemma hoare_throw (e : string) (Q : A -> State -> Prop) (R : State -> Prop) :
  hoare R (@throw A e) Q R.
Proof. intros st H. exact H. Qed.

Lemma hoare_bind (P : State -> Prop) (c : M A) (k : A -> M B)
    (Q1 : A -> State -> Prop) (Q : B -> State -> Prop) (R : State -> Prop) :
  hoare P c Q1 R ->
  (forall a, hoare (Q1 a) (k a) Q R) ->
  hoare P (bind c k) Q R.
Proof.
  intros Hc Hk st HP. unfold bind. specialize (Hc st HP).
  destruct (c st) as [[a|e] st1]; [|exact Hc].
  exact (Hk a st1 Hc).
Qed.

Lemma hoare_try_catch (P : State -> Prop) (c : M A) (h : string -> M A)
    (Q : A -> State -> Prop) (R1 R : State -> Prop) :
  hoare P c Q R1 ->
  (forall e, hoare R1 (h e) Q R) ->
  hoare P (try_catch c h) Q R.
Proof.
  intros Hc Hh st HP. unfold try_catch. specialize (Hc st HP).
  destruct (c st) as [[a|e] st1]; [exact Hc|].
  exact (Hh e st1 Hc).
Qed.

Lemma hoare_weaken (P P' : State -> Prop) (c : M A)
    (Q Q' : A -> State -> Prop) (R R' : State -> Prop) :
  hoare P' c Q' R' ->
  (forall st, P st -> P' st) ->
  (forall a st, Q' a st -> Q a st) ->
  (forall st, R' st -> R st) ->
  hoare P c Q R.
Proof.
  intros Hc HP HQ HR st H. specialize (Hc st (HP st H)).
  destruct (c st) as [[a|e] st1]; auto.
Qed.

Lemma hoare_lift_outcome (P : State -> Prop) (o : Outcome A) :
  hoare P (lift_outcome o) (fun _ => P) P.
Proof. intros st H. unfold lift_outcome. destruct o; exact H. Qed.

End HoareRules.

Lemma hoare_get_state (P : State -> Prop) (R : State -> Prop) :
  hoare P get_state (fun a st => P st /\ a = st) R.
Proof. intros st H. cbn. auto. Qed.

Lemma hoare_modify (f : State -> State) (Q : unit -> State -> Prop)
    (R : State -> Prop) :
  hoare (fun st => Q tt (f st)) (modify f) Q R.
Proof. intros st H. exact H. Qed.

Lemma hoare_for_each {A} (I : State -> Prop) (xs : list A) (body : A -> M unit) :
  (forall x, In x xs -> hoare I (body x) (fun _ => I) I) ->
  hoare I (for_each xs body) (fun _ => I) I.
Proof.
  induction xs as [|x r IH]; intros Hb; cbn [for_each].
  - intros st H. exact H.
  - eapply hoare_bind.
    + apply Hb. now left.
    + intros ?. apply IH. intros y Hy. apply Hb. now right.
Qed.

Lemma hoare_emit (I : State -> Prop) (ev : Event) :
  passive I -> hoare I (emit ev) (fun _ => I) I.
Proof. intros Hp st H. cbn. now apply Hp. Qed.

Lemma hoare_now (I : State -> Prop) (E : Env) :
  passive I -> hoare I (now E) (fun _ => I) I.
Proof. intros Hp st H. cbn. now apply Hp. Qed.

Section CatalogInvariant.

Import ContextProvider.

Lemma copy_fields_keep (entries acc : list (string * JValue)) (k : string)
    (v : JValue) :
  k = "id" \/ k = "name" ->
  Obj.get k acc = Some v ->
  Obj.get k (fold_left copy_field entries acc) = Some v.
Proof.
  intros Hk. revert acc. induction entries as [|[k0 v0] r IH]; intros acc Hg;
    [exact Hg|].
  cbn [fold_left]. apply IH. unfold copy_field.
  destruct (String.eqb_spec k0 "id") as [->|H1]; [exact Hg|].
  destruct (String.eqb_spec k0 "name") as [->|H2]; [exact Hg|].
  destruct (negb (String.eqb k0 "_id")); cbn [negb andb]; [|exact Hg].
  rewrite get_put_other; [exact Hg|]. destruct Hk; congruence.
Qed.

Lemma entity_of_record (ty : string) (item e : JValue) :
  entity_of ty item = Some e -> is_record e.
Proof.
  assert (H : forall entries idv namev,
            is_record (JObj (fold_left copy_field entries
                               [("id", idv); ("name", namev)]))).
  { intros entries idv namev. eexists. exists idv, namev.
    split; [reflexivity|].
    split; apply copy_fields_keep; [now left|reflexivity|now right|reflexivity]. }
  unfold entity_of.
  destruct item; try discriminate; intros [= <-];
    first [apply H | exact (H [] _ _)].
Qed.

Lemma entities_of_records (ty : string) (items es : list JValue) :
  entities_of ty items = Some es ->
  List.length es = List.length items /\ forall e, In e es -> is_record e.
Proof.
  revert es. induction items as [|item r IH]; intros es; cbn [entities_of].
  - intros [= <-]. split; [reflexivity|intros e []].
  - destruct (entity_of ty item) as [e0|] eqn:He; [|discriminate].
    destruct (entities_of ty r) as [es0|]; [|discriminate].
    intros [= <-]. destruct (IH es0 eq_refl) as [Hl Hr]. split.
    + cbn. now rewrite Hl.
    + intros e [<-|H]; [now apply entity_of_record in He|now apply Hr].
Qed.

Lemma refreshing_passive : passive refreshing.
Proof. intros st tr n H. exact H. Qed.

Lemma fetch_resource_keeps (E : Env) (resource : DiscoveredResource) :
  hoare (fun st => refreshing st /\ In resource (discoveredResources st))
        (fetch_resource E resource)
        (fun _ => refreshing) refreshing.
Proof.
  unfold fetch_resource.
  destruct (JS.uri_scheme (uri resource)) as [ty|] eqn:Hty.
  2:{ intros st [H _]. exact H. }
  set (I := fun st => refreshing st /\ In resource (discoveredResources st)).
  assert (HI : passive I).
  { intros st tr n H. exact H. }
  apply hoare_try_catch with (R1 := I).
  2:{ intros e st [H _]. exact H. }
  eapply hoare_bind.
  { eapply hoare_bind.
    - apply hoare_emit. exact HI.
    - intros ?. apply hoare_lift_outcome. }
  intros text. cbv beta.
  destruct (JSON_parse E _) as [parsed|].
  2:{ intros st [H _]. exact H. }
  destruct (entities_of ty _) as [entities|] eqn:Hes.
  2:{ apply hoare_throw. }
  intros st [[Hr Hc] Hin]. cbn.
  split; [exact Hr|]. intros ty' es' H. cbn in H.
  apply in_put in H. destruct H as [[= -> ->]|H]; [|now apply Hc].
  apply entities_of_records in Hes. destruct Hes as [Hl Hrec].
  split; [|split].
  - rewrite Hl. unfold JS.slice_to. apply firstn_le_length.
  - exact Hrec.
  - exists resource. auto.
Qed.

Lemma discoverResources_ok (E : Env) :
  hoare (fun _ => True) (discoverResources E) (fun _ => resources_ok)
        (fun _ => False).
Proof.
  unfold discoverResources.
  apply hoare_try_catch with (R1 := fun _ => True).
  - eapply hoare_bind.
    + eapply hoare_bind.
      * apply hoare_emit with (I := fun _ => True). intros st tr n H. exact H.
      * intros ?. apply hoare_lift_outcome.
    + intros resources st _. cbn. intros r Hr. cbn in Hr.
      apply filter_In in Hr. tauto.
  - intros e st _. cbn. intros r Hr. cbn in Hr.
    destruct Hr as [<-|[<-|[<-|[]]]]; reflexivity.
Qed.

(** X23.  A refresh of the entity catalog never raises and leaves a
    catalog in which every resource recorded is a list endpoint
    ([...://all] or [...://all/...]), every type is the scheme of one of
    these resources, and every type has at most a hundred records, each an
    object that has an [id] and a [name]. *)
Theorem refresh_builds_bounded_catalog (E : Env) (st : State) :
  fst (refreshEntityCatalog E st) = Ok tt
  /\ resources_ok (snd (refreshEntityCatalog E st))
  /\ catalog_ok (snd (refreshEntityCatalog E st)).
Proof.
  assert (H : hoare (fun _ => True) (refreshEntityCatalog E)
                    (fun _ => refreshing) (fun _ => False)).
  { unfold refreshEntityCatalog.
    apply hoare_try_catch with (R1 := refreshing).
    2:{ intros e s Hs. exact Hs. }
    eapply hoare_bind with (Q1 := fun _ => resources_ok).
    { eapply hoare_weaken;
        [apply discoverResources_ok|auto|auto|intros s []]. }
    intros ?. eapply hoare_bind with (Q1 := fun _ => refreshing).
    { intros s Hs. cbn. split; [exact Hs|]. intros ty es []. }
    intros ?. eapply hoare_bind with (Q1 := fun _ => refreshing).
    { eapply hoare_bind; [apply hoare_get_state|].
      intros s0 s [Hs Heq]. subst s. revert Hs.
      generalize (fun x (Hx : In x (discoveredResources s0)) => Hx).
      generalize (discoveredResources s0) at 1 3 as xs.
      intros xs Hxs Hs.
      assert (Hloop : hoare (fun s => refreshing s
                               /\ discoveredResources s = discoveredResources s0)
                        (for_each xs (fetch_resource E))
                        (fun _ s => refreshing s
                               /\ discoveredResources s = discoveredResources s0)
                        (fun s => refreshing s
                               /\ discoveredResources s = discoveredResources s0)).
      { apply hoare_for_each. intros x Hx s1 [Hr1 Hd1].
        pose proof (fetch_resource_keeps E x s1) as Hk.
        assert (Hd : discoveredResources (snd (fetch_resource E x s1))
                     = discoveredResources s1).
        { clear. unfold fetch_resource.
          destruct (JS.uri_scheme (uri x)); [|reflexivity].
          unfold try_catch, bind, emit, modify, lift_outcome, get_state,
            set_entityCache, throw, ret.
          destruct (mcp_readResource E (uri x)) as [text|e]; [|reflexivity].
          cbn. destruct (JSON_parse E _); [|reflexivity].
          destruct (entities_of _ _); reflexivity. }
        specialize (Hk (conj Hr1 (eq_ind_r (fun l => In x l) (Hxs x Hx) Hd1))).
        destruct (fetch_resource E x s1) as [[[]|e] s2]; cbn in Hd;
          (split; [exact Hk|congruence]). }
      specialize (Hloop s0 (conj Hs eq_refl)).
      destruct (for_each xs (fetch_resource E) s0) as [[[]|e] s2]; tauto. }
    intros ?. eapply hoare_bind.
    { apply hoare_now. apply refreshing_passive. }
    intros t s Hs. exact Hs. }
  specialize (H st I).
  destruct (refreshEntityCatalog E st) as [[[]|e] st']; cbn; [|contradiction].
  destruct H as [Hr Hc]. auto.
Qed.

End CatalogInvariant.

Section SessionFrame.

Import ContextProvider.

Variable I : State -> Prop.
Hypothesis blind : catalog_blind I.

Lemma keeps_ret {A} (a : A) : keeps I (ret a).
Proof. intros st H. exact H. Qed.

Lemma keeps_throw {A} (e : string) : keeps I (@throw A e).
Proof. intros st H. exact H. Qed.

Lemma keeps_get_state : keeps I get_state.
Proof. intros st H. exact H. Qed.

Lemma keeps_lift_outcome {A} (o : Outcome A) : keeps I (lift_outcome o).
Proof. apply hoare_lift_outcome. Qed.

Lemma keeps_bind {A B} (c : M A) (k : A -> M B) :
  keeps I c -> (forall a, keeps I (k a)) -> keeps I (bind c k).
Proof. intros Hc Hk. eapply hoare_bind; [exact Hc|exact Hk]. Qed.

Lemma keeps_try_catch {A} (c : M A) (h : string -> M A) :
  keeps I c -> (forall e, keeps I (h e)) -> keeps I (try_catch c h).
Proof. intros Hc Hh. eapply hoare_try_catch; [exact Hc|exact Hh]. Qed.

Lemma keeps_for_each {A} (xs : list A) (body : A -> M unit) :
  (forall x, keeps I (body x)) -> keeps I (for_each xs body).
Proof. intros Hb. apply hoare_for_each. intros x _. apply Hb. Qed.

Lemma keeps_emit (ev : Event) : keeps I (emit ev).
Proof.
  intros st H. cbn. exact (blind st _ _ _ _ _ H).
Qed.

Lemma keeps_now (E : Env) : keeps I (now E).
Proof.
  intros st H. cbn. exact (blind st _ _ _ _ _ H).
Qed.

Lemma keeps_set_entityCache c : keeps I (set_entityCache c).
Proof.
  intros st H. cbn. exact (blind st _ _ _ _ _ H).
Qed.

Lemma keeps_set_discoveredResources r : keeps I (set_discoveredResources r).
Proof.
  intros st H. cbn. exact (blind st _ _ _ _ _ H).
Qed.

Lemma keeps_set_lastEntityRefresh t : keeps I (set_lastEntityRefresh t).
Proof.
  intros st H. cbn. exact (blind st _ _ _ _ _ H).
Qed.

Ltac keeping :=
  repeat first
    [ match goal with |- forall _, _ => intro end
    | apply keeps_bind | apply keeps_try_catch | apply keeps_for_each
    | apply keeps_ret | apply keeps_throw | apply keeps_get_state
    | apply keeps_lift_outcome | apply keeps_emit | apply keeps_now
    | apply keeps_set_entityCache | apply keeps_set_discoveredResources
    | apply keeps_set_lastEntityRefresh
    | match goal with
      | |- keeps _ (match ?x with _ => _ end) => destruct x
      | |- keeps _ (if ?b then _ else _) => destruct b
      end ].

Lemma keeps_fetch_resource (E : Env) (r : DiscoveredResource) :
  keeps I (fetch_resource E r).
Proof. unfold fetch_resource. keeping. Qed.

Lemma keeps_discoverResources (E : Env) : keeps I (discoverResources E).
Proof. unfold discoverResources. keeping. Qed.

Lemma keeps_refreshEntityCatalog (E : Env) : keeps I (refreshEntityCatalog E).
Proof.
  unfold refreshEntityCatalog.
  apply keeps_try_catch; [|intros e; apply keeps_ret].
  apply keeps_bind; [apply keeps_discoverResources|intros ?].
  apply keeps_bind; [apply keeps_set_entityCache|intros ?].
  apply keeps_bind.
  - apply keeps_bind; [apply keeps_get_state|intros s].
    apply keeps_for_each. intros x. apply keeps_fetch_resource.
  - intros ?. apply keeps_bind; [apply keeps_now|intros t].
    apply keeps_set_lastEntityRefresh.
Qed.

Lemma keeps_refresh_if_stale (E : Env) : keeps I (refresh_if_stale E).
Proof.
  unfold refresh_if_stale.
  apply keeps_bind; [apply keeps_now|intros t].
  apply keeps_bind; [apply keeps_get_state|intros s].
  destruct (_ <? _); [apply keeps_refreshEntityCatalog|apply keeps_ret].
Qed.

End SessionFrame.

Section Sessions.

Import ContextProvider.

Lemma refresh_if_stale_run (E : Env) (st : State) :
  exists st',
    refresh_if_stale E st = (Ok tt, st')
    /\ userSessions st' = userSessions st
    /\ tools st' = tools st
    /\ onStream st' = onStream st.
Proof.
  pose proof (keeps_refresh_if_stale
                (fun s => userSessions s = userSessions st
                          /\ tools s = tools st /\ onStream s = onStream st)) as Hk.
  specialize (Hk ltac:(intros s tr n c r t H; exact H) E st
                (conj eq_refl (conj eq_refl eq_refl))).
  destruct (total_refresh_if_stale E st) as [[] Ht].
  destruct (refresh_if_stale E st) as [o st']. cbn in Ht. subst o.
  exists st'. tauto.
Qed.

(** X24.  [getUserContext] never raises.  It returns the context stored
    for the user, or for a user it has not seen a new context that holds
    the user's id and the time zone [America/New_York] and nothing else;
    the context returned is the one stored for the user afterwards, and
    the contexts of the other users are as before. *)
Theorem getUserContext_registers (E : Env) (uid : string) (st : State) :
  exists c st',
    getUserContext E uid st = (Ok c, st')
    /\ c = default (default_context uid) (userSessions st !! uid)
    /\ userSessions st' !! uid = Some c
    /\ forall u, u <> uid -> userSessions st' !! u = userSessions st !! u.
Proof.
  unfold getUserContext, bind at 1, get_state. unfold bind at 1.
  destruct (userSessions st !! uid) as [c0|] eqn:Hl.
  - unfold ret at 1.
    destruct (refresh_if_stale_run E st) as (st' & Hr & Hu & _).
    unfold bind. rewrite Hr. exists c0, st'. unfold ret.
    rewrite Hu. auto.
  - unfold bind at 1, set_userSessions, modify. unfold ret at 1.
    match goal with |- context [bind (refresh_if_stale E) _ ?s] => set (st1 := s) end.
    destruct (refresh_if_stale_run E st1) as (st' & Hr & Hu & _).
    unfold bind. rewrite Hr. eexists. exists st'. unfold ret.
    split; [reflexivity|]. split; [reflexivity|]. rewrite Hu. subst st1.
    cbn [userSessions]. split.
    + apply lookup_insert_eq.
    + intros u Hne. now apply lookup_insert_ne.
Qed.

(** X25.  A second [getUserContext] for the same user returns the context
    the first returned and leaves the stored contexts as they are. *)
Theorem getUserContext_is_stable (E : Env) (uid : string) (st : State) :
  exists c st1 st2,
    getUserContext E uid st = (Ok c, st1)
    /\ getUserContext E uid st1 = (Ok c, st2)
    /\ userSessions st2 = userSessions st1.
Proof.
  assert (Hseen : forall s c, userSessions s !! uid = Some c ->
            exists s', getUserContext E uid s = (Ok c, s')
                       /\ userSessions s' = userSessions s).
  { intros s c Hl. unfold getUserContext, bind at 1, get_state. unfold bind at 1.
    rewrite Hl. unfold ret at 1.
    destruct (refresh_if_stale_run E s) as (s' & Hr & Hu & _).
    unfold bind. rewrite Hr. exists s'. auto. }
  assert (H1 : exists c st1, getUserContext E uid st = (Ok c, st1)
                             /\ userSessions st1 !! uid = Some c).
  { destruct (userSessions st !! uid) as [c0|] eqn:Hl.
    - destruct (Hseen st c0 Hl) as (s' & Hg & Hu).
      exists c0, s'. rewrite Hu. auto.
    - unfold getUserContext, bind at 1, get_state. unfold bind at 1.
      rewrite Hl. unfold bind at 1, set_userSessions, modify. unfold ret at 1.
      match goal with |- context [bind (refresh_if_stale E) _ ?s] => set (s1 := s) end.
      destruct (refresh_if_stale_run E s1) as (s' & Hr & Hu & _).
      unfold bind. rewrite Hr. eexists. exists s'. unfold ret.
      split; [reflexivity|]. rewrite Hu. subst s1. cbn [userSessions].
      apply lookup_insert_eq. }
  destruct H1 as (c & st1 & Hg1 & Hl1).
  destruct (Hseen st1 c Hl1) as (st2 & Hg2 & Hu2).
  exists c, st1, st2. auto.
Qed.

End Sessions.

Section RefreshRequests.

Import ContextProvider.

Lemma fetch_resource_requests (E : Env) (r : DiscoveredResource) (st : State) :
  exists st',
    fetch_resource E r st = (Ok tt, st')
    /\ trace st' = trace st ++ reads_of [r]
    /\ ticks st' = ticks st
    /\ discoveredResources st' = discoveredResources st.
Proof.
  unfold fetch_resource, reads_of, has_scheme. cbn [List.filter].
  destruct (JS.uri_scheme (uri r)) as [ty|].
  2:{ exists st. unfold ret. cbn [List.map]. rewrite List.app_nil_r. auto. }
  unfold try_catch, bind, emit, modify, lift_outcome, get_state,
    set_entityCache, throw, ret.
  destruct (mcp_readResource E (uri r)) as [text|e]; [|eexists; cbn; auto].
  cbn. destruct (JSON_parse E _); [|eexists; cbn; auto].
  destruct (entities_of _ _); eexists; cbn; auto.
Qed.

Lemma for_each_requests (E : Env) (xs : list DiscoveredResource) (st : State) :
  exists st',
    for_each xs (fetch_resource E) st = (Ok tt, st')
    /\ trace st' = trace st ++ reads_of xs
    /\ ticks st' = ticks st
    /\ discoveredResources st' = discoveredResources st.
Proof.
  revert st. induction xs as [|x r IH]; intros st.
  - exists st. unfold reads_of, ret. cbn [for_each List.filter List.map].
    rewrite List.app_nil_r. auto.
  - destruct (fetch_resource_requests E x st) as (st1 & H1 & Ht1 & Hk1 & Hd1).
    destruct (IH st1) as (st2 & H2 & Ht2 & Hk2 & Hd2).
    exists st2. cbn [for_each]. unfold bind. rewrite H1, H2.
    split; [reflexivity|]. split; [|split; congruence].
    rewrite Ht2, Ht1, <- List.app_assoc. f_equal.
    unfold reads_of. cbn [List.filter].
    destruct (has_scheme x); reflexivity.
Qed.

(** X26.  What a refresh of the entity catalog sends and records: one
    [resources/list], then one read per recorded resource whose URI has a
    scheme, in the order of the list, and nothing else; the resources
    recorded are the list endpoints of the answer, or the three known
    ones ([projects], [users], [documents]) when the listing fails; the
    clock is read once, and that reading becomes the time of the last
    refresh whether or not any read succeeded. *)
Theorem refresh_requests (E : Env) (st : State) :
  exists st',
    refreshEntityCatalog E st = (Ok tt, st')
    /\ discoveredResources st'
       = match mcp_listResources E with
         | Ok resources => List.filter is_all_resource resources
         | Throw _ => knownResources
         end
    /\ trace st' = trace st ++ EvListResources :: reads_of (discoveredResources st')
    /\ ticks st' = S (ticks st)
    /\ lastEntityRefresh st' = Date_now E (ticks st).
Proof.
  unfold refreshEntityCatalog.
  assert (Hd : exists st1,
             discoverResources E st = (Ok tt, st1)
             /\ discoveredResources st1
                = match mcp_listResources E with
                  | Ok resources => List.filter is_all_resource resources
                  | Throw _ => knownResources
                  end
             /\ trace st1 = trace st ++ [EvListResources]
             /\ ticks st1 = ticks st).
  { unfold discoverResources, try_catch, bind, emit, modify, lift_outcome,
      set_discoveredResources.
    destruct (mcp_listResources E); eexists; cbn; auto. }
  destruct Hd as (st1 & H1 & Hd1 & Ht1 & Hk1).
  unfold try_catch, bind at 1. rewrite H1.
  unfold bind at 1, set_entityCache, modify.
  unfold bind at 1. unfold bind at 1, get_state.
  match goal with
  | |- context [for_each ?xs _ ?s] =>
      destruct (for_each_requests E xs s) as (st2 & H2 & Ht2 & Hk2 & Hd2)
  end.
  rewrite H2.
  cbn [trace ticks discoveredResources] in Ht2, Hk2, Hd2.
  unfold bind, now, set_lastEntityRefresh, modify.
  eexists. split; [reflexivity|]. cbn.
  rewrite Hd2, Hd1 in *. rewrite Ht2, Ht1, <- List.app_assoc, Hk2, Hk1. auto.
Qed.

End RefreshRequests.

(* ===================================================================== *)
(** * Properties of the resource manager *)
(* ===================================================================== *)

Section ResourceManagerFacts.

Import ResourceManager.

Lemma refresh_failure (E : Env) (later : Z) (m : t) (e : string) :
  fst (refresh E later m) = Throw e ->
  resources (snd (refresh E later m)) = resources m
  /\ lastRefresh (snd (refresh E later m)) = lastRefresh m
  /\ refreshIntervalMs (snd (refresh E later m)) = refreshIntervalMs m.
Proof.
  unfold refresh.
  destruct (mcp_listTools E) as [toolList|e1]; [|auto].
  destruct (mcp_listResources E) as [listed|e2]; [discriminate|auto].
Qed.

(** X27.  A refresh of the resource manager that raises leaves the
    resources and the time of the last refresh as they were, so a stale
    manager stays stale: at any later reading of the clock [ensureFresh]
    runs the refresh again. *)
Theorem failed_refresh_is_retried (E : Env) (now later now' later' : Z) (m : t)
    (e : string) :
  fst (ensureFresh E now later m) = Throw e ->
  now <= now' ->
  let m' := snd (ensureFresh E now later m) in
  resources m' = resources m
  /\ lastRefresh m' = lastRefresh m
  /\ ensureFresh E now' later' m' = refresh E later' m'.
Proof.
  intros Hf Hle m'. subst m'. unfold ensureFresh in Hf |- *.
  destruct (refreshIntervalMs m <? now - lastRefresh m) eqn:Hs; [|discriminate].
  apply Z.ltb_lt in Hs.
  destruct (refresh_failure E later m e Hf) as (Hr & Hl & Hi).
  split; [exact Hr|]. split; [exact Hl|]. rewrite Hl, Hi.
  replace (refreshIntervalMs m <? now' - lastRefresh m) with true; [reflexivity|].
  symmetry. apply Z.ltb_lt. lia.
Qed.

Lemma failed_refresh_is_retried_witness :
  let m' := snd (ensureFresh Cases.offline 600000 600001 (create None)) in
  resources m' = []
  /\ lastRefresh m' = 0
  /\ ensureFresh Cases.offline 700000 700001 m' = refresh Cases.offline 700001 m'.
Proof.
  apply (failed_refresh_is_retried Cases.offline 600000 600001 700000 700001
           (create None) "fetch failed").
  - reflexivity.
  - lia.
Defined.

(** X28.  A refresh of the resource manager that succeeds keeps exactly
    the list endpoints of the listing, in its order, and one tool per
    listed tool, each with a description and a schema; it records the
    reading of the clock, and until the interval has passed
    [ensureFresh] does nothing. *)
Theorem refresh_records_listing (E : Env) (now now' later' : Z) (m : t) :
  fst (refresh E now m) = Ok tt ->
  now' - now <= refreshIntervalMs m ->
  let m' := snd (refresh E now m) in
  (exists listed, mcp_listResources E = Ok listed
     /\ getResources m' = List.filter ContextProvider.is_all_resource listed)
  /\ (exists toolList, mcp_listTools E = Ok toolList
        /\ List.map dt_name (getTools m') = List.map dt_name toolList
        /\ forall d, In d (getTools m') ->
             dt_description d <> None /\ dt_inputSchema d <> None)
  /\ lastRefresh m' = now
  /\ ensureFresh E now' later' m' = (Ok tt, m').
Proof.
  unfold refresh.
  destruct (mcp_listTools E) as [toolList|e1]; [|discriminate].
  destruct (mcp_listResources E) as [listed|e2]; [|discriminate].
  intros _ Hle. cbn [fst snd]. unfold getResources, getTools, ensureFresh.
  cbn [resources tools lastRefresh refreshIntervalMs].
  split; [eauto|]. split; [|split; [reflexivity|]].
  - exists toolList. split; [reflexivity|]. split.
    + rewrite List.map_map. reflexivity.
    + intros d Hd. apply in_map_iff in Hd. destruct Hd as (d0 & <- & _).
      split; discriminate.
  - replace (_ <? _) with false; [reflexivity|].
    symmetry. apply Z.ltb_ge. lia.
Qed.

Lemma refresh_records_listing_witness :
  let m' := snd (refresh Scenario.projects_server 5 (create None)) in
  getResources m' = [ {| uri := "projects://all" |} ]
  /\ lastRefresh m' = 5
  /\ ensureFresh Scenario.projects_server 60005 60006 m' = (Ok tt, m').
Proof.
  destruct (refresh_records_listing Scenario.projects_server 5 60005 60006
              (create None))
    as (_ & _ & Hl & He).
  - reflexivity.
  - cbn. lia.
  - split; [reflexivity|]. split; [exact Hl|exact He].
Defined.

(** X29.  [getResourceUri] answers with the URI of the first resource
    held whose scheme is the type asked for, and with nothing exactly
    when no resource held has that scheme. *)
Theorem getResourceUri_finds_first (type : string) (m : t) :
  match getResourceUri type m with
  | Some u =>
      JS.uri_scheme u = Some type
      /\ exists before after,
           getResources m = before ++ {| uri := u |} :: after
           /\ forall r, In r before -> JS.uri_scheme (uri r) <> Some type
  | None =>
      forall r, In r (getResources m) -> JS.uri_scheme (uri r) <> Some type
  end.
Proof.
  unfold getResourceUri, getResourceByType, getResources.
  assert (Hof : forall r, of_type type r = true <-> JS.uri_scheme (uri r) = Some type).
  { intros r. unfold of_type. destruct (JS.uri_scheme (uri r)) as [s|].
    - rewrite String.eqb_eq. split; congruence.
    - split; discriminate. }
  induction (resources m) as [|r rest IH]; cbn [List.find option_map].
  - intros r [].
  - destruct (of_type type r) eqn:Hr.
    + cbn [option_map]. split; [now apply Hof|].
      exists [], rest. destruct r as [u]. split; [reflexivity|intros r []].
    + assert (Hn : JS.uri_scheme (uri r) <> Some type).
      { intros H. apply Hof in H. congruence. }
      destruct (List.find (of_type type) rest) as [r0|]; cbn [option_map] in *.
      * destruct IH as (Hs & before & after & Heq & Hb).
        split; [exact Hs|]. exists (r :: before), after. split.
        -- rewrite Heq. reflexivity.
        -- intros x [<-|Hx]; [exact Hn|now apply Hb].
      * intros x [<-|Hx]; [exact Hn|now apply IH].
Qed.

End ResourceManagerFacts.
